(** * Trip lifecycle and settlement core of the online-taxi backend

    A shallow embedding of [app/services/trip_service.py],
    [app/services/payment_service.py], [app/types.py], the response
    schema of [app/schemas/trip.py], the trip endpoints of
    [app/routers/driver/api.py] and the two dependencies of
    [app/dependencies.py] they stand behind, with the two lookups of
    [app/services/user_service.py] those call, followed by the properties
    of the lifecycle, the driver assignment, the wallet ledger and the
    settlement.

    Conventions of the embedding.
    - A table is the list of its rows in insertion order.  [SELECT ... WHERE]
      is [filter], [fetchone] is the head of the result, [UPDATE ... WHERE]
      maps over the rows, [INSERT] appends a row whose id is the next value
      of the table's sequence.
    - A psycopg connection (autocommit off, the default) is a pair of
      stores: what has been committed and what the open transaction sees.
      [commit] publishes the working store, [rollback] discards it.  A
      textual [BEGIN] inside an open transaction changes nothing.
    - Service functions are computations in a state-and-exception monad
      over the connection: a raised exception keeps the connection as the
      statements before it left it.
    - A [Decimal] or [NUMERIC] amount is the rational it denotes.  Python
      computes on decimals under the default context of the [decimal]
      module: a result of more than 28 significant digits is rounded half
      to even ([Decimal.round]); comparisons are exact.  The store keeps a
      [NUMERIC] value as it is given.
    - The clock ([CURRENT_TIMESTAMP], [datetime.now()]) is an explicit
      argument [now]. *)

From Stdlib Require Import ZArith QArith Qabs String List Bool.
From Stdlib Require Import Sorted Permutation Lia Lqa Qround.
Import ListNotations.

Local Open Scope Z_scope.

(** ** Values *)

(** [Coordinate] of [app/models.py]: a latitude and a longitude. *)
Record Coordinate := { lat : Q; lng : Q }.

Definition is_none {A} (o : option A) : bool :=
  match o with None => true | Some _ => false end.

Definition is_some {A} (o : option A) : bool := negb (is_none o).

Definition opt_eqb (o : option Z) (z : Z) : bool :=
  match o with Some x => x =? z | None => false end.

(** Python truth value of an optional integer: [None] and [0] are false. *)
Definition truthy (o : option Z) : bool :=
  match o with Some x => negb (x =? 0) | None => false end.

(** [x in values] on string literals. *)
Definition str_in (x : string) (values : list string) : bool :=
  existsb (String.eqb x) values.

(** [x < y] on decimals. *)
Definition Qltb (x y : Q) : bool :=
  (Qnum x * QDen y <? Qnum y * QDen x)%Z.

(** [int(d)] on a decimal: truncation towards zero. *)
Definition Qtrunc (x : Q) : Z := Z.quot (Qnum x) (QDen x).

(** ** [decimal.Decimal]

    Arithmetic on decimals under the default context: [prec = 28],
    [ROUND_HALF_EVEN].  The exact result of an operation is rounded to the
    nearest value with at most 28 significant digits; a result that has no
    more digits than that is kept as it is.  The exponent limits of the
    context ([Emax = 999999], [Emin = -999999]) lie beyond what a
    [NUMERIC] column holds and play no part. *)

Module Decimal.

Definition prec : Z := 28.

(** Number of decimal digits of [n] for [0 < n]; [fuel] bounds the number
    of divisions by ten, and the binary logarithm of [n] is enough. *)
Fixpoint digits_upto (fuel : nat) (n : Z) : Z :=
  match fuel with
  | O => 1
  | S fuel' => if n <? 10 then 1 else 1 + digits_upto fuel' (n / 10)
  end.

Definition digits (n : positive) : Z :=
  digits_upto (Z.to_nat (Z.log2 (Zpos n))) (Zpos n).

(** Exponent of the leading digit of [n / d]: the [e] with
    [10 ^ e <= n / d < 10 ^ (e + 1)]. *)
Definition adjusted (n d : positive) : Z :=
  let k := digits n - digits d in
  if (if 0 <=? k then Zpos d * 10 ^ k <=? Zpos n
      else Zpos d <=? Zpos n * 10 ^ (- k))
  then k else k - 1.

(** The integer nearest to [n / d] for [0 <= n] and [0 < d], a tie going
    to the even neighbour. *)
Definition round_half_even (n d : Z) : Z :=
  let q := n / d in
  match 2 * (n mod d) ?= d with
  | Lt => q
  | Gt => q + 1
  | Eq => if Z.even q then q else q + 1
  end.

(** [n / d] rounded to [prec] significant digits: [e] is the exponent of
    the last digit that is kept. *)
Definition round_pos (n d : positive) : Q :=
  let e := adjusted n d - (prec - 1) in
  if 0 <=? e then
    inject_Z (round_half_even (Zpos n) (Zpos d * 10 ^ e) * 10 ^ e)
  else
    Qmake (round_half_even (Zpos n * 10 ^ (- e)) (Zpos d))
          (Z.to_pos (10 ^ (- e))).

Definition quantize (x : Q) : Q :=
  match Qnum x with
  | Z0 => x
  | Zpos n => round_pos n (Qden x)
  | Zneg n => Qopp (round_pos n (Qden x))
  end.

(** What the context makes of the exact result [x] of an operation. *)
Definition round (x : Q) : Q :=
  let r := quantize x in if Qeq_bool r x then x else r.

(** [x + y], [x - y], [x * y], [-x] and [abs(x)]. *)
Definition add (x y : Q) : Q := round (x + y).
Definition sub (x y : Q) : Q := round (x - y).
Definition mul (x y : Q) : Q := round (x * y).
Definition neg (x : Q) : Q := round (- x).
Definition abs (x : Q) : Q := round (Qabs x).

End Decimal.

Arguments Decimal.round : simpl never.
Arguments Decimal.add : simpl never.
Arguments Decimal.sub : simpl never.
Arguments Decimal.mul : simpl never.
Arguments Decimal.neg : simpl never.
Arguments Decimal.abs : simpl never.

(** ** [app/types.py] *)

Definition TripType : list string :=
  ["urban"; "intercity"; "shared"; "economy"]%string.

Definition TripStatus : list string :=
  ["pending"; "completed"; "canceled"; "started"; "waiting"; "failed"]%string.

Definition PaymentType : list string := ["cash"; "electronic"]%string.

Definition PaymentStatus : list string :=
  ["pending"; "completed"; "failed"; "canceled"]%string.

Definition TransactionType : list string :=
  ["deposit"; "withdraw"; "trip_payment"; "refund"; "adjustment"]%string.

(** ** Tables *)

Module User.
Record row := {
  id : Z;
  name : string;
  phone : string;
  email : option string;
  registration_date : Z;
  wallet_balance : Q;
  status : option string;
  created_at : Z;
  updated_at : Z;
  deleted_at : option Z }.

Definition set_wallet (b : Q) (now : Z) (u : row) : row :=
  {| id := id u; name := name u; phone := phone u; email := email u;
     registration_date := registration_date u; wallet_balance := b;
     status := status u; created_at := created_at u; updated_at := now;
     deleted_at := deleted_at u |}.
End User.

(** [car_info] is a JSON document, kept as its text. *)
Module Driver.
Record row := {
  user_id : Z;
  license_number : option string;
  car_info : option string;
  approval_status : string;
  created_at : Z;
  updated_at : Z;
  deleted_at : option Z }.
End Driver.

Module Tariff.
Record row := {
  trip_type : option string;
  price_per_km : Q;
  created_at : Z }.
End Tariff.

Module Trip.
Record row := {
  id : Z;
  passenger_id : Z;
  driver_id : option Z;
  route_id : option Z;
  start_time : option Z;
  end_time : option Z;
  trip_status : string;
  trip_type : option string;
  payment_id : option Z;
  discount_code_id : option Z;
  start_location : option Coordinate;
  end_location : option Coordinate;
  created_at : Z;
  updated_at : Z;
  deleted_at : option Z }.

Definition set_driver_id (d : option Z) (t : row) : row :=
  {| id := id t; passenger_id := passenger_id t; driver_id := d;
     route_id := route_id t; start_time := start_time t;
     end_time := end_time t; trip_status := trip_status t;
     trip_type := trip_type t; payment_id := payment_id t;
     discount_code_id := discount_code_id t;
     start_location := start_location t; end_location := end_location t;
     created_at := created_at t; updated_at := updated_at t;
     deleted_at := deleted_at t |}.

Definition set_trip_status (s : string) (t : row) : row :=
  {| id := id t; passenger_id := passenger_id t; driver_id := driver_id t;
     route_id := route_id t; start_time := start_time t;
     end_time := end_time t; trip_status := s;
     trip_type := trip_type t; payment_id := payment_id t;
     discount_code_id := discount_code_id t;
     start_location := start_location t; end_location := end_location t;
     created_at := created_at t; updated_at := updated_at t;
     deleted_at := deleted_at t |}.

Definition set_start_time (s : option Z) (t : row) : row :=
  {| id := id t; passenger_id := passenger_id t; driver_id := driver_id t;
     route_id := route_id t; start_time := s;
     end_time := end_time t; trip_status := trip_status t;
     trip_type := trip_type t; payment_id := payment_id t;
     discount_code_id := discount_code_id t;
     start_location := start_location t; end_location := end_location t;
     created_at := created_at t; updated_at := updated_at t;
     deleted_at := deleted_at t |}.

Definition set_end_time (e : option Z) (t : row) : row :=
  {| id := id t; passenger_id := passenger_id t; driver_id := driver_id t;
     route_id := route_id t; start_time := start_time t;
     end_time := e; trip_status := trip_status t;
     trip_type := trip_type t; payment_id := payment_id t;
     discount_code_id := discount_code_id t;
     start_location := start_location t; end_location := end_location t;
     created_at := created_at t; updated_at := updated_at t;
     deleted_at := deleted_at t |}.

Definition set_payment_id (p : option Z) (t : row) : row :=
  {| id := id t; passenger_id := passenger_id t; driver_id := driver_id t;
     route_id := route_id t; start_time := start_time t;
     end_time := end_time t; trip_status := trip_status t;
     trip_type := trip_type t; payment_id := p;
     discount_code_id := discount_code_id t;
     start_location := start_location t; end_location := end_location t;
     created_at := created_at t; updated_at := updated_at t;
     deleted_at := deleted_at t |}.

Definition set_updated_at (now : Z) (t : row) : row :=
  {| id := id t; passenger_id := passenger_id t; driver_id := driver_id t;
     route_id := route_id t; start_time := start_time t;
     end_time := end_time t; trip_status := trip_status t;
     trip_type := trip_type t; payment_id := payment_id t;
     discount_code_id := discount_code_id t;
     start_location := start_location t; end_location := end_location t;
     created_at := created_at t; updated_at := now;
     deleted_at := deleted_at t |}.
End Trip.

Module Payment.
Record row := {
  id : Z;
  amount : Q;
  payment_type : option string;
  payment_date : Z;
  status : string;
  created_at : Z;
  updated_at : Z;
  deleted_at : option Z }.

Definition set_status (s : string) (now : Z) (p : row) : row :=
  {| id := id p; amount := amount p; payment_type := payment_type p;
     payment_date := payment_date p; status := s;
     created_at := created_at p; updated_at := now;
     deleted_at := deleted_at p |}.
End Payment.

Module Transaction.
Record row := {
  id : Z;
  user_id : Z;
  amount : Q;
  type : string;
  date : Z;
  payment_id : option Z;
  created_at : Z;
  updated_at : Z }.
End Transaction.

(** Modelled from the spec: the schema file [base.sql] that declares the
    tables is not among the sources.  The store holds the tables of the
    spec's persistent store that the core reads and writes, each with the
    columns its queries name; [id] columns are numbered by a sequence per
    table, a column that an [INSERT] leaves out is [NULL], and the
    timestamp columns of a new row take the time of the [INSERT]. *)
Record DB := {
  users : list User.row;
  drivers : list Driver.row;
  tariffs : list Tariff.row;
  trips : list Trip.row;
  payments : list Payment.row;
  transactions : list Transaction.row;
  trips_id_seq : Z;
  payments_id_seq : Z;
  transactions_id_seq : Z }.

Definition set_users (f : list User.row -> list User.row) (db : DB) : DB :=
  {| users := f (users db); drivers := drivers db; tariffs := tariffs db;
   trips := trips db; payments := payments db;
   transactions := transactions db; trips_id_seq := trips_id_seq db;
   payments_id_seq := payments_id_seq db;
   transactions_id_seq := transactions_id_seq db |}.

Definition set_trips (f : list Trip.row -> list Trip.row) (db : DB) : DB :=
  {| users := users db; drivers := drivers db; tariffs := tariffs db;
   trips := f (trips db); payments := payments db;
   transactions := transactions db; trips_id_seq := trips_id_seq db;
   payments_id_seq := payments_id_seq db;
   transactions_id_seq := transactions_id_seq db |}.

Definition set_payments (f : list Payment.row -> list Payment.row) (db : DB)
  : DB :=
  {| users := users db; drivers := drivers db; tariffs := tariffs db;
   trips := trips db; payments := f (payments db);
   transactions := transactions db; trips_id_seq := trips_id_seq db;
   payments_id_seq := payments_id_seq db;
   transactions_id_seq := transactions_id_seq db |}.

(** ** SQL statements on a table *)

Section Sql.
Context {R : Type}.

Definition fetchone (result : list R) : option R := hd_error result.

(** [UPDATE t SET ... WHERE p]: the table afterwards. *)
Definition update_where (p : R -> bool) (f : R -> R) (t : list R) : list R :=
  map (fun r => if p r then f r else r) t.

(** [UPDATE t SET ... WHERE p RETURNING ...]: the new versions of the rows
    that matched. *)
Definition returning (p : R -> bool) (f : R -> R) (t : list R) : list R :=
  map f (filter p t).

(** [cursor.rowcount] after an [UPDATE]. *)
Definition rowcount (p : R -> bool) (t : list R) : Z :=
  Z.of_nat (length (filter p t)).

(** [ORDER BY]: [leb a b] says that [a] may come before [b].  Rows that the
    order does not tell apart keep the order of the table. *)
Fixpoint insert_by (leb : R -> R -> bool) (x : R) (t : list R) : list R :=
  match t with
  | [] => [x]
  | y :: rest => if leb x y then x :: t else y :: insert_by leb x rest
  end.

Definition order_by (leb : R -> R -> bool) (t : list R) : list R :=
  fold_right (insert_by leb) [] t.

(** [LIMIT limit OFFSET skip], for the non-negative values the endpoints
    let through. *)
Definition limit_offset (limit skip : Z) (t : list R) : list R :=
  firstn (Z.to_nat limit) (skipn (Z.to_nat skip) t).
End Sql.

(** ** Connections *)

Record Conn := { committed : DB; working : DB }.

(** The exceptions of the endpoints and services: FastAPI's
    [HTTPException], pydantic's [ValidationError] with the field it is
    about, FastAPI's [RequestValidationError] (the 422 answer to request
    parameters that break their declaration) with the parameters, Python's
    [KeyError] with the key, and psycopg's [DataError] for a query
    parameter that is no value of its column's type. *)
Inductive exception :=
| HTTPException (status_code : Z) (detail : string)
| ValidationError (loc : string)
| RequestValidationError (locs : list string)
| KeyError (key : string)
| DataError (parameter : string).

Inductive outcome (A : Type) :=
| Return (a : A)
| Raise (e : exception).
Arguments Return {A} a.
Arguments Raise {A} e.

(** A service call: it runs on a connection, returns or raises, and leaves
    the connection in a new state either way. *)
Definition M (A : Type) : Type := Conn -> outcome A * Conn.

Definition ret {A} (a : A) : M A := fun c => (Return a, c).

Definition raise {A} (e : exception) : M A := fun c => (Raise e, c).

Definition bind {A B} (m : M A) (k : A -> M B) : M B :=
  fun c =>
    match m c with
    | (Return a, c') => k a c'
    | (Raise e, c') => (Raise e, c')
    end.

(** [try: m except Exception as e: h e]. *)
Definition try_except {A} (m : M A) (h : exception -> M A) : M A :=
  fun c =>
    match m c with
    | (Return a, c') => (Return a, c')
    | (Raise e, c') => h e c'
    end.

Declare Scope conn_scope.
Delimit Scope conn_scope with conn.
Notation "x <- m ;; k" := (bind m (fun x => k))
  (at level 61, m at next level, right associativity) : conn_scope.
Notation "m ;; k" := (bind m (fun _ => k))
  (at level 61, right associativity) : conn_scope.

(** A read of the store the open transaction sees. *)
Definition query {A} (q : DB -> A) : M A :=
  fun c => (Return (q (working c)), c).

(** A write inside the open transaction. *)
Definition execute (f : DB -> DB) : M unit :=
  fun c => (Return tt, {| committed := committed c; working := f (working c) |}).

(** [cur.execute("BEGIN")]: psycopg has already opened the transaction. *)
Definition BEGIN : M unit := ret tt.

(** [db.commit()] and [cur.execute("COMMIT")]. *)
Definition COMMIT : M unit :=
  fun c => (Return tt, {| committed := working c; working := working c |}).

(** [cur.execute("ROLLBACK")]. *)
Definition ROLLBACK : M unit :=
  fun c => (Return tt, {| committed := committed c; working := committed c |}).

Local Open Scope conn_scope.

(** [UPDATE trips SET ... WHERE p RETURNING ...]: the rows written, in table
    order. *)
Definition update_trips_returning (p : Trip.row -> bool)
  (f : Trip.row -> Trip.row) : M (list Trip.row) :=
  fun c =>
    (Return (returning p f (trips (working c))),
     {| committed := committed c;
        working := set_trips (update_where p f) (working c) |}).

(** ** Records read by key

    A service returns a result row as a [dict] from column names to
    values.  Where a caller reads such a record by key, the record is the
    list of its items, in the order of the dict literal that builds it. *)

#[warnings="-register-all"]
Inductive value :=
| VInt (z : Z)
| VStr (s : string)
| VDecimal (q : Q)
| VDatetime (t : Z)
| VNone
| VDict (items : list (string * value)).

Definition dict : Type := list (string * value).

Fixpoint lookup (d : dict) (key : string) : option value :=
  match d with
  | [] => None
  | (k, v) :: rest => if String.eqb k key then Some v else lookup rest key
  end.

(** [d.get(key)]. *)
Definition get (d : dict) (key : string) : value :=
  match lookup d key with Some v => v | None => VNone end.

(** [d[key]]. *)
Definition getitem (d : dict) (key : string) : M value :=
  match lookup d key with
  | Some v => ret v
  | None => raise (KeyError key)
  end.

(** [v == s] for a string literal [s]. *)
Definition is_str (v : value) (s : string) : bool :=
  match v with VStr s' => String.eqb s' s | _ => false end.

Definition of_optional_str (o : option string) : value :=
  match o with Some s => VStr s | None => VNone end.

(** A value handed to a query as the parameter [name] that an [INTEGER]
    column is compared with.  The records read here carry integers under
    the keys that hold ids; for any other value the comparison is left to
    the database, which refuses what is no integer. *)
Definition int_parameter (name : string) (v : value) : M Z :=
  match v with
  | VInt z => ret z
  | _ => raise (DataError name)
  end.

(** ** [app/schemas/trip.py] *)

Module TripCreate.
Record t := {
  passenger_id : Z;
  driver_id : option Z;
  route_id : option Z;
  trip_type : option string;
  discount_code_id : option Z;
  start_location : option Coordinate;
  end_location : option Coordinate }.
End TripCreate.

Module TripUpdate.
Record t := {
  driver_id : option Z;
  trip_status : option string;
  start_time : option Z;
  end_time : option Z;
  payment_id : option Z }.
End TripUpdate.

(** [TripResponse] built from a trip record: pydantic checks the
    literal-typed fields; [trip_status] is an optional [TripStatus] and
    [trip_type] an optional [TripType], and every stored trip has a
    status. *)
Definition TripResponse (trip : Trip.row) : outcome Trip.row :=
  if negb (str_in (Trip.trip_status trip) TripStatus) then
    Raise (ValidationError "trip_status")
  else
    match Trip.trip_type trip with
    | None => Return trip
    | Some ty =>
        if str_in ty TripType then Return trip
        else Raise (ValidationError "trip_type")
    end.

Record TripEstimate := {
  estimated_distance_km : Q;
  estimated_price : Q;
  estimated_duration_minutes : Z;
  available_drivers : Z }.

(** ** [app/services/trip_service.py] *)

Module TripService.

Definition by_id (trip_id : Z) (t : Trip.row) : bool :=
  (Trip.id t =? trip_id) && is_none (Trip.deleted_at t).

(** [INSERT INTO trips ... VALUES (..., 'pending', ...) RETURNING ...]. *)
Definition insert_trip (now : Z) (trip_data : TripCreate.t) : M Trip.row :=
  fun c =>
    let db := working c in
    let new :=
      {| Trip.id := trips_id_seq db;
         Trip.passenger_id := TripCreate.passenger_id trip_data;
         Trip.driver_id := TripCreate.driver_id trip_data;
         Trip.route_id := TripCreate.route_id trip_data;
         Trip.start_time := None;
         Trip.end_time := None;
         Trip.trip_status := "pending";
         Trip.trip_type := TripCreate.trip_type trip_data;
         Trip.payment_id := None;
         Trip.discount_code_id := TripCreate.discount_code_id trip_data;
         Trip.start_location := TripCreate.start_location trip_data;
         Trip.end_location := TripCreate.end_location trip_data;
         Trip.created_at := now;
         Trip.updated_at := now;
         Trip.deleted_at := None |} in
    (Return new,
     {| committed := committed c;
        working :=
          {| users := users db; drivers := drivers db; tariffs := tariffs db;
             trips := trips db ++ [new]; payments := payments db;
             transactions := transactions db;
             trips_id_seq := trips_id_seq db + 1;
             payments_id_seq := payments_id_seq db;
             transactions_id_seq := transactions_id_seq db |} |}).

(** The record [create_trip] builds from the twelve columns of its
    [RETURNING] clause.  The locations are not among them, so the record
    has no [start_location] and no [end_location] key, as the records of
    the reading functions have none for a location that is [NULL]. *)
Definition created_record (result : Trip.row) : Trip.row :=
  {| Trip.id := Trip.id result;
     Trip.passenger_id := Trip.passenger_id result;
     Trip.driver_id := Trip.driver_id result;
     Trip.route_id := Trip.route_id result;
     Trip.start_time := Trip.start_time result;
     Trip.end_time := Trip.end_time result;
     Trip.trip_status := Trip.trip_status result;
     Trip.trip_type := Trip.trip_type result;
     Trip.payment_id := Trip.payment_id result;
     Trip.discount_code_id := Trip.discount_code_id result;
     Trip.start_location := None;
     Trip.end_location := None;
     Trip.created_at := Trip.created_at result;
     Trip.updated_at := Trip.updated_at result;
     Trip.deleted_at := Trip.deleted_at result |}.

Definition create_trip (now : Z) (trip_data : TripCreate.t) : M Trip.row :=
  passenger <- query (fun db =>
    fetchone (filter
      (fun u => User.id u =? TripCreate.passenger_id trip_data) (users db))) ;;
  match passenger with
  | None => raise (HTTPException 404 "Passenger not found")
  | Some _ =>
      result <- insert_trip now trip_data ;;
      COMMIT ;;
      ret (created_record result)
  end.

Definition get_trip_by_id (trip_id : Z) : M (option Trip.row) :=
  query (fun db => fetchone (filter (by_id trip_id) (trips db))).

(** The [SET] clause [update_trip] assembles: one assignment per field of
    [trip_data] that is not [None]. *)
Definition update_fields (trip_data : TripUpdate.t)
  : list (Trip.row -> Trip.row) :=
  (match TripUpdate.driver_id trip_data with
   | Some d => [Trip.set_driver_id (Some d)] | None => [] end) ++
  (match TripUpdate.trip_status trip_data with
   | Some s => [Trip.set_trip_status s] | None => [] end) ++
  (match TripUpdate.start_time trip_data with
   | Some s => [Trip.set_start_time (Some s)] | None => [] end) ++
  (match TripUpdate.end_time trip_data with
   | Some e => [Trip.set_end_time (Some e)] | None => [] end) ++
  (match TripUpdate.payment_id trip_data with
   | Some p => [Trip.set_payment_id (Some p)] | None => [] end).

Definition apply_fields (fs : list (Trip.row -> Trip.row)) (t : Trip.row)
  : Trip.row :=
  fold_left (fun r f => f r) fs t.

Definition update_trip (now : Z) (trip_id : Z) (trip_data : TripUpdate.t)
  : M (option Trip.row) :=
  match update_fields trip_data with
  | [] => get_trip_by_id trip_id
  | fs =>
      n <- query (fun db => rowcount (by_id trip_id) (trips db)) ;;
      execute (set_trips (update_where (by_id trip_id)
        (apply_fields (fs ++ [Trip.set_updated_at now])))) ;;
      COMMIT ;;
      if n =? 0 then ret None else get_trip_by_id trip_id
  end.

(** [ORDER BY created_at DESC LIMIT 1]: among equally recent rows the first
    of the table is taken. *)
Definition most_recent (t : list Tariff.row) : option Tariff.row :=
  fold_left
    (fun best r =>
       match best with
       | None => Some r
       | Some b =>
           if Tariff.created_at b <? Tariff.created_at r then Some r
           else Some b
       end)
    t None.

(** The subquery of [estimate_trip]: is [user_id] the driver of a trip
    whose status is one of the three listed. *)
Definition on_a_trip (db : DB) (user_id : Z) : bool :=
  existsb
    (fun t =>
       str_in (Trip.trip_status t) ["pending"; "started"; "waiting"]%string
       && opt_eqb (Trip.driver_id t) user_id)
    (trips db).

(** [SELECT COUNT( * ) FROM drivers d WHERE ...] of [estimate_trip]. *)
Definition count_available_drivers (db : DB) : Z :=
  Z.of_nat (length (filter
    (fun d =>
       String.eqb (Driver.approval_status d) "approved"
       && is_none (Driver.deleted_at d)
       && negb (on_a_trip db (Driver.user_id d)))
    (drivers db))).

(** [estimate_trip], from the distance that [_calculate_distance] (a
    floating-point computation) returned for the two coordinates.  That
    distance is a float rounded to two decimals, so it has at most 17
    significant digits and doubling it never rounds; the stored rate may
    have any number of digits. *)
Definition estimate_trip (distance_km : Q) (trip_type : string)
  : M TripEstimate :=
  result <- query (fun db =>
    most_recent (filter
      (fun r => match Tariff.trip_type r with
                | Some ty => String.eqb ty trip_type
                | None => false
                end)
      (tariffs db))) ;;
  let price_per_km :=
    match result with
    | Some r => Tariff.price_per_km r
    | None => 10 # 1
    end in
  available <- query count_available_drivers ;;
  ret {| estimated_distance_km := distance_km;
         estimated_price := Decimal.mul distance_km price_per_km;
         estimated_duration_minutes := Qtrunc (distance_km * (2 # 1));
         available_drivers := available |}.

Definition assign_driver_to_trip (now : Z) (trip_id driver_id : Z) : M bool :=
  driver <- query (fun db =>
    fetchone (filter
      (fun d =>
         (Driver.user_id d =? driver_id)
         && String.eqb (Driver.approval_status d) "approved"
         && is_none (Driver.deleted_at d))
      (drivers db))) ;;
  match driver with
  | None => raise (HTTPException 400 "Driver not available")
  | Some _ =>
      active <- query (fun db =>
        fetchone (filter
          (fun t =>
             opt_eqb (Trip.driver_id t) driver_id
             && str_in (Trip.trip_status t)
                  ["pending"; "started"; "waiting"]%string
             && is_none (Trip.deleted_at t))
          (trips db))) ;;
      match active with
      | Some _ => raise (HTTPException 400 "Driver is already on another trip")
      | None =>
          let guard t :=
            by_id trip_id t && String.eqb (Trip.trip_status t) "pending" in
          n <- query (fun db => rowcount guard (trips db)) ;;
          execute (set_trips (update_where guard
            (fun t => Trip.set_updated_at now
                        (Trip.set_driver_id (Some driver_id) t)))) ;;
          COMMIT ;;
          ret (0 <? n)
      end
  end.

(** First statement of [accept_trip]:
    [SELECT id, trip_status, driver_id FROM trips WHERE id = %s AND
    deleted_at IS NULL], then [fetchone]. *)
Definition accept_select (trip_id : Z) : M (option Trip.row) :=
  query (fun db => fetchone (filter (by_id trip_id) (trips db))).

(** The test between the two statements:
    [trip[1] != "pending" or trip[2] is not None]. *)
Definition not_available (trip : Trip.row) : bool :=
  negb (String.eqb (Trip.trip_status trip) "pending")
  || is_some (Trip.driver_id trip).

(** Second statement of [accept_trip]: [UPDATE trips SET driver_id = %s,
    trip_status = 'accepted', updated_at = CURRENT_TIMESTAMP WHERE id = %s
    RETURNING ...], [fetchone], [db.commit()]. *)
Definition accept_update (now : Z) (trip_id driver_id : Z)
  : M (option Trip.row) :=
  result <- update_trips_returning
    (fun t => Trip.id t =? trip_id)
    (fun t => Trip.set_updated_at now
                (Trip.set_trip_status "accepted"
                   (Trip.set_driver_id (Some driver_id) t))) ;;
  COMMIT ;;
  ret (fetchone result).

Definition accept_trip (now : Z) (trip_id driver_id : Z)
  : M (option Trip.row) :=
  trip <- accept_select trip_id ;;
  match trip with
  | None => ret None
  | Some row =>
      if not_available row then ret None
      else accept_update now trip_id driver_id
  end.

(** The shape shared by [start_trip], [complete_trip] and [cancel_trip]:
    one conditional [UPDATE ... RETURNING], committed when a row came
    back. *)
Definition transition (guard : Trip.row -> bool) (set : Trip.row -> Trip.row)
  : M (option Trip.row) :=
  result <- update_trips_returning guard set ;;
  match fetchone result with
  | Some row => COMMIT ;; ret (Some row)
  | None => ret None
  end.

Definition start_trip (now : Z) (trip_id driver_id : Z)
  : M (option Trip.row) :=
  transition
    (fun t => (Trip.id t =? trip_id)
              && opt_eqb (Trip.driver_id t) driver_id
              && String.eqb (Trip.trip_status t) "accepted")
    (fun t => Trip.set_updated_at now
                (Trip.set_start_time (Some now)
                   (Trip.set_trip_status "in_progress" t))).

Definition complete_trip (now : Z) (trip_id driver_id : Z)
  : M (option Trip.row) :=
  transition
    (fun t => (Trip.id t =? trip_id)
              && opt_eqb (Trip.driver_id t) driver_id
              && String.eqb (Trip.trip_status t) "in_progress")
    (fun t => Trip.set_updated_at now
                (Trip.set_end_time (Some now)
                   (Trip.set_trip_status "completed" t))).

Definition cancel_trip (now : Z) (trip_id driver_id : Z)
  : M (option Trip.row) :=
  transition
    (fun t => (Trip.id t =? trip_id)
              && opt_eqb (Trip.driver_id t) driver_id
              && str_in (Trip.trip_status t)
                   ["accepted"; "in_progress"]%string)
    (fun t => Trip.set_updated_at now (Trip.set_trip_status "cancelled" t)).

(** [ORDER BY created_at DESC] and [ORDER BY created_at ASC]. *)
Definition newest_first (a b : Trip.row) : bool :=
  Trip.created_at b <=? Trip.created_at a.

Definition oldest_first (a b : Trip.row) : bool :=
  Trip.created_at a <=? Trip.created_at b.

Definition get_trips_by_user (user_id : Z) (is_driver : bool) (skip limit : Z)
  : M (list Trip.row) :=
  query (fun db =>
    limit_offset limit skip
      (order_by newest_first
         (filter
            (fun t =>
               (if is_driver then opt_eqb (Trip.driver_id t) user_id
                else Trip.passenger_id t =? user_id)
               && is_none (Trip.deleted_at t))
            (trips db)))).

(** The condition list of [get_driver_trips]: [if status:] adds the status
    test for a status that is neither [None] nor the empty string. *)
Definition driver_trips_where (driver_id : Z) (status : option string)
  (t : Trip.row) : bool :=
  opt_eqb (Trip.driver_id t) driver_id
  && is_none (Trip.deleted_at t)
  && match status with
     | Some (String a rest) => String.eqb (Trip.trip_status t) (String a rest)
     | Some EmptyString => true
     | None => true
     end.

Definition get_driver_trips (driver_id : Z) (status : option string)
  (skip limit : Z) : M (list Trip.row) :=
  query (fun db =>
    limit_offset limit skip
      (order_by newest_first
         (filter (driver_trips_where driver_id status) (trips db)))).

Definition available (t : Trip.row) : bool :=
  String.eqb (Trip.trip_status t) "pending"
  && is_none (Trip.driver_id t)
  && is_none (Trip.deleted_at t).

Definition get_available_trips (skip limit : Z) : M (list Trip.row) :=
  query (fun db =>
    limit_offset limit skip
      (order_by oldest_first (filter available (trips db)))).

End TripService.

(** ** [app/schemas/payment.py] *)

Module PaymentCreate.
Record t := { amount : Q; payment_type : option string }.

(** The constructor call [PaymentCreate(amount=..., payment_type=...)]:
    [amount] carries [ge=0] and [payment_type] is an optional
    [PaymentType]. *)
Definition make (amount : Q) (payment_type : option string) : M t :=
  if Qltb amount 0 then raise (ValidationError "amount")
  else if match payment_type with
          | Some ty => str_in ty PaymentType
          | None => true
          end
  then ret {| amount := amount; payment_type := payment_type |}
  else raise (ValidationError "payment_type").
End PaymentCreate.

Module TransactionCreate.
Record t := {
  user_id : Z;
  amount : Q;
  type : string;
  payment_id : option Z }.

(** The constructor call [TransactionCreate(...)]: [type] is a
    [TransactionType]; the [ne=0] of [amount] is not a constraint pydantic
    knows, so no amount is refused. *)
Definition make (user_id : Z) (amount : Q) (type : string)
  (payment_id : option Z) : M t :=
  if str_in type TransactionType then
    ret {| user_id := user_id; amount := amount; type := type;
           payment_id := payment_id |}
  else raise (ValidationError "type").
End TransactionCreate.

Module TopUp.
Record t := {
  transaction : Transaction.row;
  payment : Payment.row;
  new_balance : option Q }.
End TopUp.

Record TripPayment := {
  payment : Payment.row;
  passenger_amount : Q;
  driver_amount : Q;
  platform_fee : Q }.

(** ** [app/services/payment_service.py] *)

Module PaymentService.

(** [INSERT INTO payments (amount, payment_type, status) VALUES (%s, %s,
    'pending') RETURNING ...]. *)
Definition insert_payment (now : Z) (payment_data : PaymentCreate.t)
  : M Payment.row :=
  fun c =>
    let db := working c in
    let new :=
      {| Payment.id := payments_id_seq db;
         Payment.amount := PaymentCreate.amount payment_data;
         Payment.payment_type := PaymentCreate.payment_type payment_data;
         Payment.payment_date := now;
         Payment.status := "pending";
         Payment.created_at := now;
         Payment.updated_at := now;
         Payment.deleted_at := None |} in
    (Return new,
     {| committed := committed c;
        working :=
          {| users := users db; drivers := drivers db; tariffs := tariffs db;
             trips := trips db; payments := payments db ++ [new];
             transactions := transactions db;
             trips_id_seq := trips_id_seq db;
             payments_id_seq := payments_id_seq db + 1;
             transactions_id_seq := transactions_id_seq db |} |}).

Definition create_payment (now : Z) (payment_data : PaymentCreate.t)
  : M Payment.row :=
  result <- insert_payment now payment_data ;;
  COMMIT ;;
  ret result.

Definition update_payment_status (now : Z) (payment_id : Z) (status : string)
  : M (option Payment.row) :=
  let guard p := (Payment.id p =? payment_id) && is_none (Payment.deleted_at p) in
  result <- query (fun db =>
    fetchone (returning guard (Payment.set_status status now) (payments db))) ;;
  execute (set_payments (update_where guard (Payment.set_status status now))) ;;
  COMMIT ;;
  ret result.

Definition get_payment_by_id (payment_id : Z) : M (option Payment.row) :=
  query (fun db =>
    fetchone (filter
      (fun p => (Payment.id p =? payment_id) && is_none (Payment.deleted_at p))
      (payments db))).

End PaymentService.

Module TransactionService.

(** [INSERT INTO transactions (user_id, amount, type, payment_id) VALUES
    (...) RETURNING ...]. *)
Definition new_transaction (now : Z) (transaction_data : TransactionCreate.t)
  (db : DB) : Transaction.row :=
  {| Transaction.id := transactions_id_seq db;
     Transaction.user_id := TransactionCreate.user_id transaction_data;
     Transaction.amount := TransactionCreate.amount transaction_data;
     Transaction.type := TransactionCreate.type transaction_data;
     Transaction.date := now;
     Transaction.payment_id := TransactionCreate.payment_id transaction_data;
     Transaction.created_at := now;
     Transaction.updated_at := now |}.

Definition insert_transaction (now : Z) (transaction_data : TransactionCreate.t)
  : M Transaction.row :=
  fun c =>
    let db := working c in
    let new := new_transaction now transaction_data db in
    (Return new,
     {| committed := committed c;
        working :=
          {| users := users db; drivers := drivers db; tariffs := tariffs db;
             trips := trips db; payments := payments db;
             transactions := transactions db ++ [new];
             trips_id_seq := trips_id_seq db;
             payments_id_seq := payments_id_seq db;
             transactions_id_seq := transactions_id_seq db + 1 |} |}).

Definition create_transaction (now : Z) (transaction_data : TransactionCreate.t)
  : M Transaction.row :=
  let user_id := TransactionCreate.user_id transaction_data in
  let amount := TransactionCreate.amount transaction_data in
  BEGIN ;;
  try_except
    (result <- query (fun db =>
       fetchone (filter (fun u => User.id u =? user_id) (users db))) ;;
     match result with
     | None => raise (HTTPException 404 "User not found")
     | Some user =>
         let current_balance := User.wallet_balance user in
         if str_in (TransactionCreate.type transaction_data)
              ["withdraw"; "trip_payment"]%string
            && Qltb current_balance (Decimal.abs amount)
         then raise (HTTPException 400 "Insufficient wallet balance")
         else
           transaction_result <- insert_transaction now transaction_data ;;
           let new_balance := Decimal.add current_balance amount in
           execute (set_users (update_where
             (fun u => User.id u =? user_id)
             (User.set_wallet new_balance now))) ;;
           COMMIT ;;
           ret transaction_result
     end)
    (fun e => ROLLBACK ;; raise e).

Definition get_wallet_balance (user_id : Z) : M (option Q) :=
  query (fun db =>
    match fetchone (filter
            (fun u => (User.id u =? user_id) && is_none (User.deleted_at u))
            (users db)) with
    | Some user => Some (User.wallet_balance user)
    | None => None
    end).

Definition top_up_wallet (now : Z) (user_id : Z) (amount : Q)
  (payment_type : string) : M TopUp.t :=
  payment_data <- PaymentCreate.make amount (Some payment_type) ;;
  payment <- PaymentService.create_payment now payment_data ;;
  transaction_data <-
    TransactionCreate.make user_id amount "deposit"
      (Some (Payment.id payment)) ;;
  transaction <- create_transaction now transaction_data ;;
  PaymentService.update_payment_status now (Payment.id payment) "completed" ;;
  new_balance <- get_wallet_balance user_id ;;
  ret {| TopUp.transaction := transaction;
         TopUp.payment := payment;
         TopUp.new_balance := new_balance |}.

Definition process_trip_payment (now : Z) (trip_id : Z) (amount : Q)
  : M TripPayment :=
  trip_result <- query (fun db =>
    fetchone (filter (TripService.by_id trip_id) (trips db))) ;;
  match trip_result with
  | None => raise (HTTPException 404 "Trip not found")
  | Some trip =>
      let passenger_id := Trip.passenger_id trip in
      let driver_id := Trip.driver_id trip in
      BEGIN ;;
      try_except
        (payment_data <- PaymentCreate.make amount (Some "electronic"%string) ;;
         payment <- PaymentService.create_payment now payment_data ;;
         passenger_transaction <-
           TransactionCreate.make passenger_id (Decimal.neg amount)
             "trip_payment"
             (Some (Payment.id payment)) ;;
         create_transaction now passenger_transaction ;;
         let driver_amount := Decimal.mul amount (85 # 100) in
         (match driver_id with
          | Some driver =>
              if truthy driver_id then
                driver_transaction <-
                  TransactionCreate.make driver driver_amount "trip_payment"
                    (Some (Payment.id payment)) ;;
                create_transaction now driver_transaction ;;
                ret tt
              else ret tt
          | None => ret tt
          end) ;;
         execute (set_trips (update_where
           (fun t => Trip.id t =? trip_id)
           (fun t => Trip.set_updated_at now
                       (Trip.set_payment_id (Some (Payment.id payment)) t)))) ;;
         PaymentService.update_payment_status now (Payment.id payment)
           "completed" ;;
         COMMIT ;;
         ret {| payment := payment;
                passenger_amount := Decimal.neg amount;
                driver_amount :=
                  if truthy driver_id then driver_amount else 0%Q;
                platform_fee :=
                  if truthy driver_id then Decimal.sub amount driver_amount
                  else amount |})
        (fun e => ROLLBACK ;; raise e)
  end.

End TransactionService.

(** ** [app/services/user_service.py] *)

Module UserService.

Definition user_record (u : User.row) : dict :=
  [("id", VInt (User.id u));
   ("name", VStr (User.name u));
   ("phone", VStr (User.phone u));
   ("email", of_optional_str (User.email u));
   ("registration_date", VDatetime (User.registration_date u));
   ("wallet_balance", VDecimal (User.wallet_balance u));
   ("status", of_optional_str (User.status u));
   ("created_at", VDatetime (User.created_at u));
   ("updated_at", VDatetime (User.updated_at u))]%string.

Definition get_user_by_id (user_id : Z) : M (option dict) :=
  query (fun db =>
    option_map user_record
      (fetchone (filter
         (fun u => (User.id u =? user_id) && is_none (User.deleted_at u))
         (users db)))).

End UserService.

Module DriverService.

(** The record of a driver: the driver's columns, and the user's columns
    as a record of their own under [user]. *)
Definition driver_record (d : Driver.row) (u : User.row) : dict :=
  [("user_id", VInt (Driver.user_id d));
   ("license_number", of_optional_str (Driver.license_number d));
   ("car_info", of_optional_str (Driver.car_info d));
   ("approval_status", VStr (Driver.approval_status d));
   ("created_at", VDatetime (Driver.created_at d));
   ("updated_at", VDatetime (Driver.updated_at d));
   ("user", VDict (UserService.user_record u))]%string.

(** [FROM drivers d JOIN users u ON d.user_id = u.id]. *)
Definition drivers_join_users (db : DB) : list (Driver.row * User.row) :=
  flat_map
    (fun d =>
       map (pair d)
         (filter (fun u => Driver.user_id d =? User.id u) (users db)))
    (drivers db).

Definition get_driver_by_user_id (user_id : Z) : M (option dict) :=
  query (fun db =>
    option_map (fun du => driver_record (fst du) (snd du))
      (fetchone (filter
         (fun du =>
            (Driver.user_id (fst du) =? user_id)
            && is_none (Driver.deleted_at (fst du))
            && is_none (User.deleted_at (snd du)))
         (drivers_join_users db)))).

End DriverService.

(** ** [app/dependencies.py] *)

Module Dependencies.

(** [get_current_user], from the user id that the token carries: decoding
    the token is outside this development. *)
Definition get_current_user (user_id : Z) : M dict :=
  user <- UserService.get_user_by_id user_id ;;
  match user with
  | None => raise (HTTPException 401 "User not found")
  | Some user =>
      if negb (is_str (get user "status") "active") then
        raise (HTTPException 401 "User account is not active")
      else ret user
  end.

Definition get_current_driver (current_user : dict) : M dict :=
  id <- getitem current_user "id" ;;
  user_id <- int_parameter "user_id" id ;;
  driver <- DriverService.get_driver_by_user_id user_id ;;
  match driver with
  | None => raise (HTTPException 403 "User is not a driver")
  | Some driver =>
      if negb (is_str (get driver "approval_status") "approved") then
        raise (HTTPException 403 "Driver is not approved")
      else ret driver
  end.

End Dependencies.

(** ** [app/routers/driver/api.py]

    The trip endpoints of a driver.  FastAPI first resolves
    [Depends(get_current_driver)], then checks the query parameters
    against the bounds their [Query] declares and answers 422 with the
    parameters that break them, and only then runs the body of the
    endpoint with the record the dependency returned as
    [current_driver]. *)

Module DriverApi.

Definition response (trip : Trip.row) : M Trip.row :=
  match TripResponse trip with
  | Return r => ret r
  | Raise e => raise e
  end.

(** [[TripResponse(...) for trip in trips]]. *)
Fixpoint responses (trips : list Trip.row) : M (list Trip.row) :=
  match trips with
  | [] => ret []
  | trip :: rest =>
      r <- response trip ;;
      rs <- responses rest ;;
      ret (r :: rs)
  end.

(** [current_driver: dict = Depends(get_current_driver)], itself behind
    [Depends(get_current_user)], for the user id of the token. *)
Definition current_driver (user_id : Z) : M dict :=
  current_user <- Dependencies.get_current_user user_id ;;
  Dependencies.get_current_driver current_user.

(** A request of the user [user_id] to an endpoint that depends on
    [get_current_driver]. *)
Definition as_driver {A} (user_id : Z) (endpoint : dict -> M A) : M A :=
  driver <- current_driver user_id ;;
  endpoint driver.

(** The request parameters that break their declaration; none lets the
    body run. *)
Definition validate (checks : list (string * bool)) : M unit :=
  match map fst (filter (fun check => negb (snd check)) checks) with
  | [] => ret tt
  | errors => raise (RequestValidationError errors)
  end.

(** [Query(default, ge=ge)] and [Query(default, ge=ge, le=le)]. *)
Definition at_least (ge : Z) (v : Z) : bool := ge <=? v.

Definition between (ge le : Z) (v : Z) : bool := (ge <=? v) && (v <=? le).

(** [Optional[TripStatus] = Query(None)]. *)
Definition optional_status (status : option string) : bool :=
  match status with
  | Some s => str_in s TripStatus
  | None => true
  end.

Definition get_driver_trips (status : option string) (skip limit : Z)
  (current_driver : dict) : M (list Trip.row) :=
  validate [("status", optional_status status);
            ("skip", at_least 0 skip);
            ("limit", between 1 1000 limit)]%string ;;
  id <- getitem current_driver "id" ;;
  driver_id <- int_parameter "driver_id" id ;;
  trips <- TripService.get_driver_trips driver_id status skip limit ;;
  responses trips.

Definition get_available_trips (skip limit : Z) (current_driver : dict)
  : M (list Trip.row) :=
  validate [("skip", at_least 0 skip);
            ("limit", between 1 1000 limit)]%string ;;
  trips <- TripService.get_available_trips skip limit ;;
  responses trips.

Definition accept_trip (now trip_id : Z) (current_driver : dict)
  : M Trip.row :=
  id <- getitem current_driver "id" ;;
  driver_id <- int_parameter "driver_id" id ;;
  trip <- TripService.accept_trip now trip_id driver_id ;;
  match trip with
  | None => raise (HTTPException 404 "Trip not found or already accepted")
  | Some t => response t
  end.

Definition start_trip (now trip_id : Z) (current_driver : dict)
  : M Trip.row :=
  id <- getitem current_driver "id" ;;
  driver_id <- int_parameter "driver_id" id ;;
  trip <- TripService.start_trip now trip_id driver_id ;;
  match trip with
  | None => raise (HTTPException 404 "Trip not found or not authorized")
  | Some t => response t
  end.

Definition complete_trip (now trip_id : Z) (current_driver : dict)
  : M Trip.row :=
  id <- getitem current_driver "id" ;;
  driver_id <- int_parameter "driver_id" id ;;
  trip <- TripService.complete_trip now trip_id driver_id ;;
  match trip with
  | None => raise (HTTPException 404 "Trip not found or not authorized")
  | Some t => response t
  end.

Definition cancel_trip (now trip_id : Z) (current_driver : dict)
  : M Trip.row :=
  id <- getitem current_driver "id" ;;
  driver_id <- int_parameter "driver_id" id ;;
  trip <- TripService.cancel_trip now trip_id driver_id ;;
  match trip with
  | None => raise (HTTPException 404 "Trip not found or not authorized")
  | Some t => response t
  end.

End DriverApi.

(** ** Two drivers accepting at once

    Each request runs [accept_trip] on a connection of its own against the
    same server.  A request is at its [SELECT], at its [UPDATE] (which it
    commits at once), or finished; a schedule says whose statement the
    server executes next.  Every statement sees what has been committed
    before it (read committed). *)

Module Concurrent.

Inductive pc :=
| AtSelect
| AtUpdate
| Finished (result : option Trip.row).

Record session := { now : Z; trip_id : Z; driver_id : Z; at_pc : pc }.

Definition request (now trip_id driver_id : Z) : session :=
  {| now := now; trip_id := trip_id; driver_id := driver_id;
     at_pc := AtSelect |}.

Definition goto (s : session) (p : pc) : session :=
  {| now := now s; trip_id := trip_id s; driver_id := driver_id s;
     at_pc := p |}.

(** One statement of a request, run against the server's committed store. *)
Definition on_server {A} (m : M A) (server : DB) : outcome A * DB :=
  let '(r, c) := m {| committed := server; working := server |} in
  (r, committed c).

Definition step (server : DB) (s : session) : DB * session :=
  match at_pc s with
  | AtSelect =>
      match on_server (TripService.accept_select (trip_id s)) server with
      | (Return (Some row), server') =>
          if TripService.not_available row then (server', goto s (Finished None))
          else (server', goto s AtUpdate)
      | (_, server') => (server', goto s (Finished None))
      end
  | AtUpdate =>
      match on_server
              (TripService.accept_update (now s) (trip_id s) (driver_id s))
              server with
      | (Return result, server') => (server', goto s (Finished result))
      | (Raise _, server') => (server', goto s (Finished None))
      end
  | Finished _ => (server, s)
  end.

Inductive turn := First | Second.

Fixpoint run (schedule : list turn) (server : DB) (a b : session)
  : DB * session * session :=
  match schedule with
  | [] => (server, a, b)
  | First :: rest =>
      let '(server', a') := step server a in run rest server' a' b
  | Second :: rest =>
      let '(server', b') := step server b in run rest server' a b'
  end.

End Concurrent.

(** ** Sequences of calls *)

(** The lifecycle operations that act on trips one request at a time. *)
Inductive lifecycle_op :=
| Create (now : Z) (trip_data : TripCreate.t)
| Accept (now trip_id driver_id : Z)
| Start (now trip_id driver_id : Z)
| Complete (now trip_id driver_id : Z)
| Cancel (now trip_id driver_id : Z).

Definition run_op (c : Conn) (op : lifecycle_op) : Conn :=
  match op with
  | Create now trip_data => snd (TripService.create_trip now trip_data c)
  | Accept now t d => snd (TripService.accept_trip now t d c)
  | Start now t d => snd (TripService.start_trip now t d c)
  | Complete now t d => snd (TripService.complete_trip now t d c)
  | Cancel now t d => snd (TripService.cancel_trip now t d c)
  end.

Definition run_ops (ops : list lifecycle_op) (c : Conn) : Conn :=
  fold_left run_op ops c.

(** A sequence of [create_transaction] calls, each at its own time; a call
    that raises is followed by the next one. *)
Definition post_all (calls : list (Z * TransactionCreate.t)) (c : Conn) : Conn :=
  fold_left
    (fun c call =>
       snd (TransactionService.create_transaction (fst call) (snd call) c))
    calls c.

(** Sum of the amounts of the transaction rows of a user. *)
Definition ledger_sum (db : DB) (user_id : Z) : Q :=
  fold_right Qplus 0%Q
    (map Transaction.amount
       (filter (fun tx => Transaction.user_id tx =? user_id) (transactions db))).

(** Every user row carries the sum of that user's transaction rows. *)
Definition ledger_consistent (db : DB) : Prop :=
  forall u, In u (users db) ->
    (User.wallet_balance u == ledger_sum db (User.id u))%Q.

(** ** Stores used in the examples *)

Module Scenario.

(** An active user, and a driver without licence or car on file. *)
Definition user (id : Z) (balance : Q) : User.row :=
  {| User.id := id; User.name := "user"; User.phone := "0000000000";
     User.email := None; User.registration_date := 0;
     User.wallet_balance := balance; User.status := Some "active"%string;
     User.created_at := 0; User.updated_at := 0;
     User.deleted_at := None |}.

Definition driver (user_id : Z) (approval_status : string) : Driver.row :=
  {| Driver.user_id := user_id; Driver.license_number := None;
     Driver.car_info := None; Driver.approval_status := approval_status;
     Driver.created_at := 0; Driver.updated_at := 0;
     Driver.deleted_at := None |}.

Definition trip (id passenger_id : Z) (driver_id : option Z)
  (trip_status : string) : Trip.row :=
  {| Trip.id := id; Trip.passenger_id := passenger_id;
     Trip.driver_id := driver_id; Trip.route_id := None;
     Trip.start_time := None; Trip.end_time := None;
     Trip.trip_status := trip_status; Trip.trip_type := Some "urban"%string;
     Trip.payment_id := None; Trip.discount_code_id := None;
     Trip.start_location := Some {| lat := 0; lng := 0 |};
     Trip.end_location := Some {| lat := 0; lng := 1 |};
     Trip.created_at := 0; Trip.updated_at := 0; Trip.deleted_at := None |}.

Definition store (us : list User.row) (ds : list Driver.row)
  (ts : list Trip.row) : DB :=
  {| users := us; drivers := ds; tariffs := []; trips := ts;
     payments := []; transactions := [];
     trips_id_seq := 1 + Z.of_nat (length ts);
     payments_id_seq := 1; transactions_id_seq := 1 |}.

Definition connect (db : DB) : Conn := {| committed := db; working := db |}.

(** Passenger 1 rides with driver 5; the passenger's wallet holds
    [passenger_balance], the driver's [driver_balance]. *)
Definition riding (passenger_balance driver_balance : Q) : DB :=
  store [user 1 passenger_balance; user 5 driver_balance]
        [driver 5 "approved"]
        [trip 1 1 (Some 5) "in_progress"].

(** Trip 1 of passenger 1 waits for a driver; drivers 5 and 6 are
    approved. *)
Definition waiting_for_driver : DB :=
  store [user 1 (1000 # 1); user 5 0; user 6 0]
        [driver 5 "approved"; driver 6 "approved"]
        [trip 1 1 None "pending"].

(** Driver 5 has accepted trip 1; trip 2 of passenger 2 is still open. *)
Definition busy_driver : DB :=
  store [user 1 0; user 2 0; user 5 0]
        [driver 5 "approved"]
        [trip 1 1 (Some 5) "accepted"; trip 2 2 None "pending"].

End Scenario.

(** ** Notions used in the statements *)

(** The trip a lookup by id reads: [get_trip_by_id]. *)
Definition trip_of (db : DB) (trip_id : Z) : option Trip.row :=
  fetchone (filter (TripService.by_id trip_id) (trips db)).

(** The connection after [ROLLBACK]. *)
Definition rolled_back (c : Conn) : Conn :=
  {| committed := committed c; working := committed c |}.

(** The test [create_transaction] applies before it inserts: the type is
    [withdraw] or [trip_payment] and the balance is below the absolute
    amount. *)
Definition debit_check (d : TransactionCreate.t) (balance : Q) : bool :=
  str_in (TransactionCreate.type d) ["withdraw"; "trip_payment"]%string
  && Qltb balance (Decimal.abs (TransactionCreate.amount d)).

(** The store after the insert and the balance update of a successful
    [create_transaction]. *)
Definition posted (now : Z) (d : TransactionCreate.t) (balance : Q) (db : DB)
  : DB :=
  set_users
    (update_where (fun u => User.id u =? TransactionCreate.user_id d)
       (User.set_wallet
          (Decimal.add balance (TransactionCreate.amount d)) now))
    (working
       (snd (TransactionService.insert_transaction now d
               {| committed := db; working := db |}))).

(** The edges of the trip lifecycle as the service writes them. *)
Inductive lifecycle_edge : string -> string -> Prop :=
| edge_accept : lifecycle_edge "pending" "accepted"
| edge_start : lifecycle_edge "accepted" "in_progress"
| edge_complete : lifecycle_edge "in_progress" "completed"
| edge_cancel_accepted : lifecycle_edge "accepted" "cancelled"
| edge_cancel_started : lifecycle_edge "in_progress" "cancelled".

(** Zero or more edges. *)
Inductive lifecycle_path : string -> string -> Prop :=
| path_stay s : lifecycle_path s s
| path_step s1 s2 s3 :
    lifecycle_edge s1 s2 -> lifecycle_path s2 s3 -> lifecycle_path s1 s3.

(** [id] is the primary key of [trips]. *)
Definition trips_keyed (db : DB) : Prop := NoDup (map Trip.id (trips db)).

(** [SELECT wallet_balance FROM users WHERE id = %s], the read that
    [create_transaction] starts with. *)
Definition wallet_of (db : DB) (user_id : Z) : option Q :=
  option_map User.wallet_balance
    (fetchone (filter (fun u => User.id u =? user_id) (users db))).

(** The sum [create_transaction] computes for a wallet that holds
    [balance] has no more digits than the context keeps. *)
Definition adds_exactly (balance amount : Q) : Prop :=
  (Decimal.add balance amount == balance + amount)%Q.

(** The post [d] finds a wallet whose new balance comes out exact. *)
Definition post_exact (d : TransactionCreate.t) (db : DB) : Prop :=
  forall balance,
    wallet_of db (TransactionCreate.user_id d) = Some balance ->
    adds_exactly balance (TransactionCreate.amount d).

(** Every post of a sequence does, each on the store the posts before it
    left. *)
Fixpoint posts_exact (calls : list (Z * TransactionCreate.t)) (c : Conn)
  : Prop :=
  match calls with
  | [] => True
  | call :: rest =>
      post_exact (snd call) (working c)
      /\ posts_exact rest
           (snd (TransactionService.create_transaction
                   (fst call) (snd call) c))
  end.

(** The sums a settlement of [g] for [trip] computes on the store [db]
    come out exact: the passenger's debit, and the driver's credit on what
    the wallet holds by then, which is what the debit has left when the
    driver is the passenger. *)
Definition settles_exactly (g : Q) (trip : Trip.row) (db : DB) : Prop :=
  (forall bp,
     wallet_of db (Trip.passenger_id trip) = Some bp ->
     adds_exactly bp (Decimal.neg g))
  /\ (forall d bd,
        Trip.driver_id trip = Some d ->
        wallet_of db d = Some bd ->
        adds_exactly
          (if d =? Trip.passenger_id trip
           then Decimal.add bd (Decimal.neg g) else bd)
          (Decimal.mul g (85 # 100))).

(** Both stores of a connection have every balance equal to the sum of
    the user's transaction rows. *)
Definition ledger_kept (c : Conn) : Prop :=
  ledger_consistent (committed c) /\ ledger_consistent (working c).

(** A call that keeps a property of the connection, whether it returns or
    raises. *)
Definition keeps {A} (P : Conn -> Prop) (m : M A) : Prop :=
  forall c, P c -> P (snd (m c)).

(** The row that [create_payment] inserts and returns, and the store
    after the insert. *)
Definition new_payment (now : Z) (payment_data : PaymentCreate.t) (db : DB)
  : Payment.row :=
  {| Payment.id := payments_id_seq db;
     Payment.amount := PaymentCreate.amount payment_data;
     Payment.payment_type := PaymentCreate.payment_type payment_data;
     Payment.payment_date := now;
     Payment.status := "pending";
     Payment.created_at := now;
     Payment.updated_at := now;
     Payment.deleted_at := None |}.

Definition with_payment (now : Z) (payment_data : PaymentCreate.t) (db : DB)
  : DB :=
  working
    (snd (PaymentService.insert_payment now payment_data
            {| committed := db; working := db |})).

(** The store after [update_payment_status]. *)
Definition with_status (now : Z) (payment_id : Z) (status : string) (db : DB)
  : DB :=
  set_payments
    (update_where
       (fun p => (Payment.id p =? payment_id) && is_none (Payment.deleted_at p))
       (Payment.set_status status now))
    db.

(** The exceptions of the two dependencies. *)
Definition refusals : list exception :=
  [HTTPException 401 "User not found";
   HTTPException 401 "User account is not active";
   HTTPException 403 "User is not a driver";
   HTTPException 403 "Driver is not approved"].

(** How a request to an endpoint that starts with [current_driver["id"]]
    ends: with the refusal of a dependency, or with [KeyError]. *)
Definition id_error (user_id : Z) (c : Conn) : exception :=
  match DriverApi.current_driver user_id c with
  | (Return _, _) => KeyError "id"
  | (Raise e, _) => e
  end.

(** A field of an update request: the new value, or the stored one when
    the request leaves the field [None]. *)
Definition or_keep {A} (new : option A) (old : option A) : option A :=
  match new with Some x => Some x | None => old end.

(** ** Two posts at once

    Each request runs [create_transaction] on a connection of its own
    against the same server.  A request is at its [SELECT] of the balance,
    at its writes (the [INSERT], the [UPDATE] of the balance and the
    [COMMIT] that publishes both), or finished.  Every statement sees what
    has been committed before it (read committed); the balance a request
    has read stays in its variable [current_balance]. *)

Module ConcurrentPosts.

Inductive pc :=
| AtSelect
| AtInsert (current_balance : Q)
| Finished (result : outcome Transaction.row).

Record session := {
  now : Z;
  transaction_data : TransactionCreate.t;
  at_pc : pc }.

Definition request (now : Z) (transaction_data : TransactionCreate.t)
  : session :=
  {| now := now; transaction_data := transaction_data; at_pc := AtSelect |}.

Definition goto (s : session) (p : pc) : session :=
  {| now := now s; transaction_data := transaction_data s; at_pc := p |}.

(** [SELECT wallet_balance FROM users WHERE id = %s], [fetchone]. *)
Definition select_balance (transaction_data : TransactionCreate.t)
  : M (option User.row) :=
  query (fun db =>
    fetchone (filter
      (fun u => User.id u =? TransactionCreate.user_id transaction_data)
      (users db))).

(** The [INSERT], the [UPDATE] with [current_balance + amount], and the
    [COMMIT]. *)
Definition insert_and_update (now : Z)
  (transaction_data : TransactionCreate.t) (current_balance : Q)
  : M Transaction.row :=
  transaction_result <-
    TransactionService.insert_transaction now transaction_data ;;
  execute (set_users (update_where
    (fun u => User.id u =? TransactionCreate.user_id transaction_data)
    (User.set_wallet
       (Decimal.add current_balance
          (TransactionCreate.amount transaction_data)) now))) ;;
  COMMIT ;;
  ret transaction_result.

Definition step (server : DB) (s : session) : DB * session :=
  match at_pc s with
  | AtSelect =>
      match Concurrent.on_server (select_balance (transaction_data s))
              server with
      | (Return (Some user), server') =>
          if debit_check (transaction_data s) (User.wallet_balance user)
          then
            (server',
             goto s (Finished
               (Raise (HTTPException 400 "Insufficient wallet balance"))))
          else (server', goto s (AtInsert (User.wallet_balance user)))
      | (Return None, server') =>
          (server',
           goto s (Finished (Raise (HTTPException 404 "User not found"))))
      | (Raise e, server') => (server', goto s (Finished (Raise e)))
      end
  | AtInsert current_balance =>
      match Concurrent.on_server
              (insert_and_update (now s) (transaction_data s)
                 current_balance)
              server with
      | (result, server') => (server', goto s (Finished result))
      end
  | Finished _ => (server, s)
  end.

Fixpoint run (schedule : list Concurrent.turn) (server : DB) (a b : session)
  : DB * session * session :=
  match schedule with
  | [] => (server, a, b)
  | Concurrent.First :: rest =>
      let '(server', a') := step server a in run rest server' a' b
  | Concurrent.Second :: rest =>
      let '(server', b') := step server b in run rest server' a b'
  end.

End ConcurrentPosts.

(** * Properties *)

(** ** Statements on tables *)

Section SqlFacts.
Context {R : Type}.
Implicit Types (p : R -> bool) (f : R -> R) (t : list R).

Lemma filter_has_head p t x :
  In x t -> p x = true -> exists y ys, filter p t = y :: ys.
Proof.
  intros Hin Hp.
  assert (Hx : In x (filter p t)) by (apply filter_In; auto).
  destruct (filter p t) as [|y ys]; [destruct Hx | eauto].
Qed.

Lemma fetchone_filter_sound p t x :
  fetchone (filter p t) = Some x -> In x t /\ p x = true.
Proof.
  unfold fetchone. intros H.
  apply filter_In. destruct (filter p t); simpl in H; inversion H.
  left; reflexivity.
Qed.

Lemma update_where_In p f t x :
  In x t -> p x = true -> In (f x) (update_where p f t).
Proof.
  intros Hin Hp. unfold update_where.
  apply in_map_iff. exists x. rewrite Hp. auto.
Qed.

Lemma update_where_none p f t :
  filter p t = [] -> update_where p f t = t.
Proof.
  unfold update_where. induction t as [|r t IH]; simpl; intros H; auto.
  destruct (p r); [discriminate|]. f_equal. auto.
Qed.

Lemma update_where_column {C} (col : R -> C) p f t :
  (forall r, col (f r) = col r) ->
  map col (update_where p f t) = map col t.
Proof.
  intros Hcol. unfold update_where. rewrite map_map.
  apply map_ext. intros r. destruct (p r); auto.
Qed.

Lemma fetchone_filter_app p t x extra :
  fetchone (filter p t) = Some x ->
  fetchone (filter p (t ++ extra)) = Some x.
Proof.
  rewrite filter_app. destruct (filter p t); simpl; auto. discriminate.
Qed.

(** If the update keeps the columns the selection looks at, the first
    selected row afterwards is the updated first selected row. *)
Lemma fetchone_filter_update (sel : R -> bool) p f t :
  (forall r, sel (f r) = sel r) ->
  fetchone (filter sel (update_where p f t)) =
  option_map (fun r => if p r then f r else r) (fetchone (filter sel t)).
Proof.
  intros Hsel. unfold update_where.
  induction t as [|r t IH]; simpl; auto.
  assert (Hr : sel (if p r then f r else r) = sel r)
    by (destruct (p r); auto).
  rewrite Hr. destruct (sel r); simpl; auto.
Qed.

End SqlFacts.

Lemma Qltb_lt (x y : Q) : Qltb x y = true <-> (x < y)%Q.
Proof. unfold Qltb, Qlt. apply Z.ltb_lt. Qed.

(** ** Decimal rounding *)

(** A value of at most 28 digits is kept; a longer one is rounded, a tie
    to the even digit; the sign plays no part. *)
Example round_keeps_short_values :
  Decimal.round (1234567 # 100) = (1234567 # 100)%Q
  /\ Decimal.round (- (1234567 # 100)) = (- (1234567 # 100))%Q
  /\ Decimal.round (9999999999999999999999999999 # 1)
     = (9999999999999999999999999999 # 1)%Q.
Proof. vm_compute. repeat split. Qed.

Example round_drops_long_tails :
  (Decimal.round (10000000000000000000000000000 + (1 # 100))
   == 10000000000000000000000000000 # 1)%Q
  /\ (Decimal.round (12345678901234567890123456785 # 1)
      == 12345678901234567890123456780 # 1)%Q
  /\ (Decimal.round (12345678901234567890123456775 # 1)
      == 12345678901234567890123456780 # 1)%Q
  /\ (Decimal.round (12345678901234567890123456786 # 1000)
      == 12345678901234567890123456790 # 1000)%Q
  /\ (Decimal.round (- (12345678901234567890123456786 # 1000))
      == - (12345678901234567890123456790 # 1000))%Q
  /\ (Decimal.round (1 # 3) == 3333333333333333333333333333 # 10 ^ 28)%Q.
Proof. vm_compute. repeat split. Qed.

Lemma round_half_even_nonneg n d :
  0 <= n -> 0 < d -> 0 <= Decimal.round_half_even n d.
Proof.
  intros Hn Hd. unfold Decimal.round_half_even.
  assert (Hq : 0 <= n / d) by (apply Z.div_pos; assumption).
  destruct (2 * (n mod d) ?= d); [destruct (Z.even (n / d))| |]; lia.
Qed.

Lemma round_pos_nonneg n d : (0 <= Decimal.round_pos n d)%Q.
Proof.
  unfold Decimal.round_pos.
  destruct (0 <=? Decimal.adjusted n d - (Decimal.prec - 1)) eqn:He.
  - apply Z.leb_le in He.
    assert (Hp : 0 < 10 ^ (Decimal.adjusted n d - (Decimal.prec - 1)))
      by (apply Z.pow_pos_nonneg; lia).
    unfold Qle. cbn [Qnum Qden inject_Z].
    assert (0 <= Decimal.round_half_even (Z.pos n)
                   (Z.pos d * 10 ^ (Decimal.adjusted n d - (Decimal.prec - 1))))
      by (apply round_half_even_nonneg; lia).
    nia.
  - apply Z.leb_gt in He.
    assert (Hp : 0 < 10 ^ (- (Decimal.adjusted n d - (Decimal.prec - 1))))
      by (apply Z.pow_pos_nonneg; lia).
    unfold Qle. cbn [Qnum Qden].
    assert (0 <= Decimal.round_half_even
                   (Z.pos n * 10 ^ (- (Decimal.adjusted n d - (Decimal.prec - 1))))
                   (Z.pos d))
      by (apply round_half_even_nonneg; lia).
    lia.
Qed.

(** Rounding never turns a value that is not negative into a negative
    one. *)
Lemma round_nonneg x : (0 <= x)%Q -> (0 <= Decimal.round x)%Q.
Proof.
  intros Hx. unfold Decimal.round.
  destruct (Qeq_bool (Decimal.quantize x) x); [exact Hx|].
  unfold Decimal.quantize. destruct x as [[|n|n] d]; cbn [Qnum Qden].
  - exact Hx.
  - apply round_pos_nonneg.
  - unfold Qle in Hx. cbn in Hx. lia.
Qed.

Lemma digits_upto_spec fuel : forall n,
  0 < n -> n < 2 ^ (Z.of_nat fuel + 1) ->
  1 <= Decimal.digits_upto fuel n
  /\ 10 ^ (Decimal.digits_upto fuel n - 1) <= n
     < 10 ^ Decimal.digits_upto fuel n.
Proof.
  induction fuel as [|fuel IH]; intros n Hpos Hlt.
  - cbn in *. lia.
  - cbn [Decimal.digits_upto].
    destruct (Z.ltb_spec n 10) as [Hs|Hb].
    + cbn. lia.
    + assert (Hq : 0 < n / 10) by (apply Z.div_str_pos; lia).
      assert (Hq2 : n / 10 < 2 ^ (Z.of_nat fuel + 1)).
      { replace (Z.of_nat (S fuel) + 1) with (Z.succ (Z.of_nat fuel + 1))
          in Hlt by lia.
        rewrite Z.pow_succ_r in Hlt by lia.
        apply Z.div_lt_upper_bound; lia. }
      destruct (IH (n / 10) Hq Hq2) as (H1 & Hlo & Hhi).
      set (k := Decimal.digits_upto fuel (n / 10)) in *.
      split; [lia|].
      replace (1 + k - 1) with (Z.succ (k - 1)) by lia.
      replace (1 + k) with (Z.succ k) by lia.
      rewrite !Z.pow_succ_r by lia.
      pose proof (Z.div_mod n 10 ltac:(lia)) as Hdm.
      pose proof (Z.mod_pos_bound n 10 ltac:(lia)) as Hm.
      lia.
Qed.

Lemma digits_spec n :
  1 <= Decimal.digits n
  /\ 10 ^ (Decimal.digits n - 1) <= Zpos n < 10 ^ Decimal.digits n.
Proof.
  unfold Decimal.digits. apply digits_upto_spec; [lia|].
  rewrite Z2Nat.id by apply Z.log2_nonneg.
  pose proof (Z.log2_spec (Zpos n) ltac:(lia)) as H.
  replace (Z.log2 (Z.pos n) + 1) with (Z.succ (Z.log2 (Z.pos n))) by lia.
  lia.
Qed.

(** The lower bound of the leading exponent. *)
Lemma adjusted_lower n d :
  let a := Decimal.adjusted n d in
  (0 <= a -> Zpos d * 10 ^ a <= Zpos n)
  /\ (a < 0 -> Zpos d <= Zpos n * 10 ^ (- a)).
Proof.
  unfold Decimal.adjusted.
  destruct (digits_spec n) as (Hn1 & Hnlo & Hnhi).
  destruct (digits_spec d) as (Hd1 & Hdlo & Hdhi).
  set (dn := Decimal.digits n) in *. set (dd := Decimal.digits d) in *.
  set (k := dn - dd).
  destruct (Z.leb_spec 0 k) as [Hk|Hk].
  - destruct (Z.leb_spec (Zpos d * 10 ^ k) (Zpos n)) as [Ht|Ht].
    + cbv zeta. split; [auto|lia].
    + cbv zeta. split.
      * intros Hk1.
        assert (H : Zpos d * 10 ^ (k - 1) < 10 ^ dd * 10 ^ (k - 1)).
        { apply Z.mul_lt_mono_pos_r; [apply Z.pow_pos_nonneg; lia|lia]. }
        rewrite <- Z.pow_add_r in H by lia.
        replace (dd + (k - 1)) with (dn - 1) in H by lia. lia.
      * intros Hk1. assert (Hk0 : k = 0) by lia.
        replace (- (k - 1)) with 1 by lia.
        assert (Hdd : dn = dd) by lia.
        assert (H : 10 ^ dd = 10 ^ (dn - 1) * 10).
        { replace dd with (Z.succ (dn - 1)) by lia.
          rewrite Z.pow_succ_r by lia. lia. }
        rewrite Z.pow_1_r. lia.
  - destruct (Z.leb_spec (Zpos d) (Zpos n * 10 ^ (- k))) as [Ht|Ht].
    + cbv zeta. split; [lia|auto].
    + cbv zeta. split; [lia|].
      intros _.
      assert (H : 10 ^ (dn - 1) * 10 ^ (- (k - 1))
                  <= Zpos n * 10 ^ (- (k - 1))).
      { apply Z.mul_le_mono_nonneg_r; [apply Z.pow_nonneg; lia|lia]. }
      rewrite <- Z.pow_add_r in H by lia.
      replace (dn - 1 + - (k - 1)) with dd in H by lia. lia.
Qed.

Lemma round_half_even_exact n d :
  0 < d -> (d | n) -> Decimal.round_half_even n d = n / d.
Proof.
  intros Hd Hdiv. unfold Decimal.round_half_even.
  apply Z.mod_divide in Hdiv; [|lia]. rewrite Hdiv. cbn [Z.mul].
  destruct (Z.compare_spec 0 d); [lia|reflexivity|lia].
Qed.

Lemma pow10_lt_inv a b : 0 <= a -> 0 <= b -> 10 ^ a < 10 ^ b -> a < b.
Proof. intros Ha Hb H. apply (Z.pow_lt_mono_r_iff 10); lia. Qed.

(** A positive value [m / 10 ^ s] whose coefficient [m] has at most 28
    digits is its own rounding. *)
Lemma round_pos_exact n d m s :
  0 <= s -> 0 < m < 10 ^ Decimal.prec ->
  Zpos n * 10 ^ s = m * Zpos d ->
  (Decimal.round_pos n d == Zpos n # d)%Q.
Proof.
  intros Hs Hm Heq. unfold Decimal.round_pos.
  destruct (adjusted_lower n d) as [Hnn Hneg].
  set (a := Decimal.adjusted n d) in *.
  assert (Hps : 0 < 10 ^ s) by (apply Z.pow_pos_nonneg; lia).
  unfold Decimal.prec in *.
  assert (Has : a + s < 28).
  { destruct (Z.le_gt_cases 0 a) as [Ha|Ha].
    - specialize (Hnn Ha).
      assert (H1 : Zpos d * 10 ^ (a + s) <= m * Zpos d).
      { rewrite Z.pow_add_r by lia. rewrite <- Heq. nia. }
      assert (H2 : 10 ^ (a + s) <= m) by nia.
      apply pow10_lt_inv; lia.
    - specialize (Hneg Ha).
      destruct (Z.le_gt_cases 0 (a + s)) as [Hpos|]; [|lia].
      assert (H1 : Zpos d * 10 ^ s <= Zpos n * 10 ^ (- a) * 10 ^ s).
      { apply Z.mul_le_mono_nonneg_r; lia. }
      assert (H2 : Zpos n * 10 ^ (- a) * 10 ^ s = m * Zpos d * 10 ^ (- a))
        by nia.
      assert (H3 : 10 ^ s <= m * 10 ^ (- a)) by nia.
      assert (H4 : 10 ^ s = 10 ^ (a + s) * 10 ^ (- a)).
      { rewrite <- Z.pow_add_r by lia. f_equal. lia. }
      assert (Hpa : 0 < 10 ^ (- a)) by (apply Z.pow_pos_nonneg; lia).
      assert (H5 : 10 ^ (a + s) <= m) by nia.
      apply pow10_lt_inv; lia. }
  destruct (Z.leb_spec 0 (a - (28 - 1))) as [He|He].
  - assert (a = 27) by lia. assert (s = 0) by lia. subst s.
    replace (a - (28 - 1)) with 0 by lia.
    rewrite Z.pow_0_r, !Z.mul_1_r in *.
    rewrite round_half_even_exact; [|lia|exists m; lia].
    rewrite Heq, Z.div_mul by lia.
    unfold Qeq. cbn. lia.
  - set (k := - (a - (28 - 1))).
    assert (Hk : s <= k) by (unfold k; lia).
    assert (Hpk : 0 < 10 ^ k) by (apply Z.pow_pos_nonneg; lia).
    assert (Hsplit : 10 ^ k = 10 ^ (k - s) * 10 ^ s).
    { rewrite <- Z.pow_add_r by lia. f_equal. lia. }
    assert (Hnum : Zpos n * 10 ^ k = m * 10 ^ (k - s) * Zpos d) by nia.
    rewrite round_half_even_exact; [|lia|exists (m * 10 ^ (k - s)); lia].
    rewrite Hnum, Z.div_mul by lia.
    unfold Qeq. cbn [Qnum Qden]. rewrite Z2Pos.id by lia. nia.
Qed.

(** A decimal of at most 28 digits is left as it is: [x] is
    [m / 10 ^ s] for a coefficient [m] below [10 ^ 28] in absolute
    value. *)
Lemma round_exact x m s :
  0 <= s -> Z.abs m < 10 ^ Decimal.prec ->
  (x == m # Z.to_pos (10 ^ s))%Q ->
  (Decimal.round x == x)%Q.
Proof.
  intros Hs Hm Hx. unfold Decimal.round.
  destruct (Qeq_bool (Decimal.quantize x) x) eqn:Hb; [reflexivity|].
  exfalso. apply Qeq_bool_neq in Hb. apply Hb. clear Hb.
  assert (Hps : 0 < 10 ^ s) by (apply Z.pow_pos_nonneg; lia).
  unfold Decimal.quantize. destruct x as [[|n|n] d]; cbn [Qnum Qden].
  - reflexivity.
  - unfold Qeq in Hx. cbn [Qnum Qden] in Hx. rewrite Z2Pos.id in Hx by lia.
    apply (round_pos_exact n d m s); [lia| |exact Hx].
    split; [|lia]. nia.
  - unfold Qeq in Hx. cbn [Qnum Qden] in Hx. rewrite Z2Pos.id in Hx by lia.
    assert (H : (Decimal.round_pos n d == Zpos n # d)%Q).
    { apply (round_pos_exact n d (- m) s); [lia| |lia].
      split; [|lia]. nia. }
    rewrite H. reflexivity.
Qed.

(** The operations on decimals of at most 28 digits. *)
Lemma neg_exact x m s :
  0 <= s -> Z.abs m < 10 ^ Decimal.prec ->
  (x == m # Z.to_pos (10 ^ s))%Q ->
  (Decimal.neg x == - x)%Q.
Proof.
  intros Hs Hm Hx. unfold Decimal.neg.
  apply (round_exact _ (- m) s); [exact Hs|lia|].
  rewrite Hx. reflexivity.
Qed.

Lemma abs_exact x m s :
  0 <= s -> Z.abs m < 10 ^ Decimal.prec ->
  (x == m # Z.to_pos (10 ^ s))%Q ->
  (Decimal.abs x == Qabs x)%Q.
Proof.
  intros Hs Hm Hx. unfold Decimal.abs.
  apply (round_exact _ (Z.abs m) s); [exact Hs|lia|].
  rewrite Hx. reflexivity.
Qed.

(** Amounts in hundredths: the sum of two, and the driver's share of
    one. *)
Lemma add_exact_hundredths a b :
  Z.abs (a + b) < 10 ^ Decimal.prec ->
  (Decimal.add (a # 100) (b # 100) == (a # 100) + (b # 100))%Q.
Proof.
  intros H. unfold Decimal.add.
  apply (round_exact _ (a + b) 2); [lia|exact H|].
  unfold Qeq, Qplus. cbn. lia.
Qed.

Lemma share_exact_hundredths n :
  Z.abs n < 10 ^ 26 ->
  (Decimal.mul (n # 100) (85 # 100) == (n # 100) * (85 # 100))%Q.
Proof.
  intros H. unfold Decimal.mul.
  apply (round_exact _ (85 * n) 4); [lia| |].
  { unfold Decimal.prec.
    replace (10 ^ 28) with (100 * 10 ^ 26) by reflexivity. lia. }
  change (Z.to_pos (10 ^ 4)) with 10000%positive.
  unfold Qeq, Qmult. cbn [Qnum Qden]. lia.
Qed.

(** Unfolds the monad so that a service call becomes a function of the
    connection. *)
Ltac run_conn :=
  unfold bind, ret, raise, try_except, query, execute, BEGIN, COMMIT,
    ROLLBACK, update_trips_returning in *;
  simpl in *.

(** ** Lifecycle transitions *)

Lemma transition_run guard set c :
  TripService.transition guard set c =
  match fetchone (returning guard set (trips (working c))) with
  | Some row =>
      (Return (Some row),
       {| committed := set_trips (update_where guard set) (working c);
          working := set_trips (update_where guard set) (working c) |})
  | None => (Return None, c)
  end.
Proof.
  unfold TripService.transition. run_conn.
  unfold returning, fetchone.
  destruct (filter guard (trips (working c))) as [|r rs] eqn:Hf; simpl; auto.
  f_equal. destruct c as [cm wk]; simpl in *. f_equal.
  unfold set_trips. rewrite (update_where_none _ _ _ Hf).
  destruct wk; reflexivity.
Qed.

(** What a transition returns is the new version of a row that passed the
    guard. *)
Lemma transition_returns guard set c row c' :
  TripService.transition guard set c = (Return (Some row), c') ->
  exists old,
    In old (trips (working c)) /\ guard old = true /\ row = set old.
Proof.
  rewrite transition_run. unfold returning, fetchone.
  destruct (filter guard (trips (working c))) as [|r rs] eqn:Hf; simpl;
    intros H; inversion H; subst.
  assert (Hr : In r (filter guard (trips (working c))))
    by (rewrite Hf; left; reflexivity).
  apply filter_In in Hr. exists r. tauto.
Qed.

(** C1, as the code has it: when the assigned driver completes a trip that
    is in progress, the trip becomes [completed] with its [end_time] set
    and the change is committed, and no settlement takes place: no payment
    row and no transaction row is created, every wallet balance stays as
    it was and no trip's [payment_id] is touched. *)
Theorem complete_trip_moves_no_money :
  forall (now : Z) (c : Conn) (t : Trip.row) (d : Z),
    In t (trips (working c)) ->
    Trip.trip_status t = "in_progress"%string ->
    Trip.driver_id t = Some d ->
    exists row c',
      TripService.complete_trip now (Trip.id t) d c = (Return (Some row), c')
      /\ Trip.trip_status row = "completed"%string
      /\ Trip.end_time row = Some now
      /\ committed c' = working c'
      /\ In (Trip.set_updated_at now
               (Trip.set_end_time (Some now)
                  (Trip.set_trip_status "completed" t)))
            (trips (committed c'))
      /\ users (committed c') = users (working c)
      /\ payments (committed c') = payments (working c)
      /\ transactions (committed c') = transactions (working c)
      /\ map Trip.payment_id (trips (committed c')) =
         map Trip.payment_id (trips (working c)).
Proof.
  intros now c t d Hin Hst Hdr.
  unfold TripService.complete_trip. rewrite transition_run.
  match goal with
  | |- context [returning ?g ?f _] => set (guard := g); set (upd := f)
  end.
  assert (Hg : guard t = true).
  { unfold guard. rewrite Hst, Hdr. simpl. rewrite !Z.eqb_refl. reflexivity. }
  destruct (filter_has_head guard _ t Hin Hg) as (y & ys & Hf).
  unfold returning, fetchone. rewrite Hf. simpl.
  eexists; eexists; split; [reflexivity|].
  repeat split; simpl; auto.
  - apply (update_where_In guard upd _ t); auto.
  - apply update_where_column. reflexivity.
Qed.

(** Instance of [complete_trip_moves_no_money]: passenger 1 with 1000 in
    the wallet, driver 5 with nothing. *)
Lemma complete_trip_moves_no_money_witness :
  exists row c',
    TripService.complete_trip 10 1 5
      (Scenario.connect (Scenario.riding (1000 # 1) 0))
    = (Return (Some row), c')
    /\ Trip.trip_status row = "completed"%string
    /\ Trip.end_time row = Some 10
    /\ committed c' = working c'
    /\ In (Trip.set_updated_at 10
             (Trip.set_end_time (Some 10)
                (Trip.set_trip_status "completed"
                   (Scenario.trip 1 1 (Some 5) "in_progress"))))
          (trips (committed c'))
    /\ users (committed c') = [Scenario.user 1 (1000 # 1); Scenario.user 5 0]
    /\ payments (committed c') = []
    /\ transactions (committed c') = []
    /\ map Trip.payment_id (trips (committed c')) = [None].
Proof.
  apply (complete_trip_moves_no_money 10
           (Scenario.connect (Scenario.riding (1000 # 1) 0))
           (Scenario.trip 1 1 (Some 5) "in_progress") 5).
  - simpl. left. reflexivity.
  - reflexivity.
  - reflexivity.
Defined.

(** C1 as stated fails: the trip is committed as [completed] although no
    payment exists, no transaction was posted, the passenger still has
    1000 and the driver 0, and the trip has no [payment_id]. *)
Lemma complete_trip_without_settlement :
  let c := Scenario.connect (Scenario.riding (1000 # 1) 0) in
  let c' := snd (TripService.complete_trip 10 1 5 c) in
  map Trip.trip_status (trips (committed c')) = ["completed"%string]
  /\ map Trip.payment_id (trips (committed c')) = [None]
  /\ payments (committed c') = []
  /\ transactions (committed c') = []
  /\ map User.wallet_balance (users (committed c')) = [1000 # 1; 0]%Q.
Proof. vm_compute. repeat split. Qed.

(** ** The wallet ledger *)

(** [create_transaction] case by case: an unknown user and a refused
    amount roll back; otherwise the row and the new balance are committed
    together. *)
Lemma create_transaction_run now d c :
  TransactionService.create_transaction now d c =
  match fetchone (filter (fun u => User.id u =? TransactionCreate.user_id d)
                    (users (working c))) with
  | None => (Raise (HTTPException 404 "User not found"), rolled_back c)
  | Some u =>
      if debit_check d (User.wallet_balance u) then
        (Raise (HTTPException 400 "Insufficient wallet balance"),
         rolled_back c)
      else
        (Return (TransactionService.new_transaction now d (working c)),
         {| committed := posted now d (User.wallet_balance u) (working c);
            working := posted now d (User.wallet_balance u) (working c) |})
  end.
Proof.
  unfold TransactionService.create_transaction, debit_check, posted.
  run_conn.
  destruct (fetchone _) as [u|]; simpl; auto.
  match goal with
  | |- context [if ?b then _ else _] => destruct b; simpl; auto
  end.
Qed.

(** When [create_transaction] answers 400: the type is [withdraw] or
    [trip_payment] and the balance is below the absolute amount, whatever
    the sign of the amount. *)
Lemma create_transaction_insufficient_iff now d c :
  fst (TransactionService.create_transaction now d c)
    = Raise (HTTPException 400 "Insufficient wallet balance")
  <-> exists u,
        fetchone (filter (fun u => User.id u =? TransactionCreate.user_id d)
                    (users (working c))) = Some u
        /\ str_in (TransactionCreate.type d)
             ["withdraw"; "trip_payment"]%string = true
        /\ (User.wallet_balance u
            < Decimal.abs (TransactionCreate.amount d))%Q.
Proof.
  rewrite create_transaction_run.
  destruct (fetchone _) as [u|].
  - unfold debit_check.
    destruct (str_in _ _) eqn:Hty.
    + destruct (Qltb _ _) eqn:Hlt; cbn [andb fst]; split.
      * intros _. exists u. rewrite <- Qltb_lt. auto.
      * reflexivity.
      * discriminate.
      * intros (u' & Hu & _ & H). inversion Hu; subst.
        apply Qltb_lt in H. congruence.
    + cbn [andb fst]. split; [discriminate|].
      intros (u' & _ & H & _). discriminate.
  - cbn [fst]. split; [discriminate|]. intros (u' & H & _). discriminate.
Qed.

(** C7 at a credit: driver 5 has an empty wallet and is credited 425 with
    type [trip_payment]; the call answers 400 [Insufficient wallet balance],
    no transaction row is created and the balance stays 0. *)
Theorem trip_payment_credit_refused :
  let c := Scenario.connect (Scenario.riding (1000 # 1) 0) in
  let credit :=
    {| TransactionCreate.user_id := 5;
       TransactionCreate.amount := 425 # 1;
       TransactionCreate.type := "trip_payment";
       TransactionCreate.payment_id := None |} in
  (0 < TransactionCreate.amount credit)%Q
  /\ TransactionService.create_transaction 10 credit c
     = (Raise (HTTPException 400 "Insufficient wallet balance"), c).
Proof. split; reflexivity. Qed.

(** ** Settlement *)

(** C2 at a passenger who cannot pay: the wallet holds 100 and the fare is
    500.  The call raises, and the payment row it created stays committed
    with status [pending]. *)
Theorem process_trip_payment_leaves_pending_payment :
  let c := Scenario.connect (Scenario.riding (100 # 1) 0) in
  let r := TransactionService.process_trip_payment 10 1 (500 # 1) c in
  fst r = Raise (HTTPException 400 "Insufficient wallet balance")
  /\ map (fun p => (Payment.id p, Payment.amount p, Payment.status p))
       (payments (committed (snd r))) = [(1, 500 # 1, "pending"%string)]
  /\ payments (committed c) = []
  /\ transactions (committed (snd r)) = []
  /\ users (committed (snd r)) = users (committed c)
  /\ trips (committed (snd r)) = trips (committed c).
Proof. vm_compute. repeat split. Qed.

(** The same call when the passenger can pay and the driver's wallet holds
    less than the driver's share: the passenger's debit is committed, the
    driver's credit is refused, the payment stays [pending] and the trip
    gets no [payment_id]. *)
Lemma process_trip_payment_half_applied :
  let c := Scenario.connect (Scenario.riding (1000 # 1) 0) in
  let r := TransactionService.process_trip_payment 10 1 (500 # 1) c in
  fst r = Raise (HTTPException 400 "Insufficient wallet balance")
  /\ map (fun p => (Payment.id p, Payment.status p))
       (payments (committed (snd r))) = [(1, "pending"%string)]
  /\ map (fun tx => (Transaction.user_id tx, Transaction.amount tx))
       (transactions (committed (snd r))) = [(1, (- (500 # 1))%Q)]
  /\ map User.wallet_balance (users (committed (snd r)))
     = [(1000 # 1) + - (500 # 1); 0]%Q
  /\ map Trip.payment_id (trips (committed (snd r))) = [None].
Proof. vm_compute. repeat split. Qed.

(** ** Fare estimate *)

(** C9 at a driver who is riding: driver 5 is the driver of trip 1, which
    is [in_progress], and the estimate counts that driver as available. *)
Theorem estimate_counts_riding_driver :
  let db := Scenario.riding (1000 # 1) 0 in
  map (fun t => (Trip.driver_id t, Trip.trip_status t)) (trips db)
    = [(Some 5, "in_progress"%string)]
  /\ map Driver.user_id (drivers db) = [5]
  /\ option_map available_drivers
       (match TripService.estimate_trip (11119 # 100) "urban"
                (Scenario.connect db) with
        | (Return e, _) => Some e
        | (Raise _, _) => None
        end) = Some 1.
Proof. vm_compute. repeat split. Qed.

(** ** Response validation *)

Lemma TripResponse_rejects trip :
  str_in (Trip.trip_status trip) TripStatus = false ->
  TripResponse trip = Raise (ValidationError "trip_status").
Proof. unfold TripResponse. intros ->. reflexivity. Qed.

Lemma accept_trip_status now trip_id driver_id c row c' :
  TripService.accept_trip now trip_id driver_id c = (Return (Some row), c') ->
  Trip.trip_status row = "accepted"%string.
Proof.
  unfold TripService.accept_trip, TripService.accept_select,
    TripService.accept_update.
  run_conn.
  destruct (fetchone (filter _ _)) as [t|]; simpl; [|discriminate].
  destruct (TripService.not_available t); simpl; [discriminate|].
  unfold returning, fetchone.
  destruct (filter _ _) as [|r rs]; simpl; intros H; inversion H; subst.
  reflexivity.
Qed.

Lemma start_trip_status now trip_id driver_id c row c' :
  TripService.start_trip now trip_id driver_id c = (Return (Some row), c') ->
  Trip.trip_status row = "in_progress"%string.
Proof.
  intros H. apply transition_returns in H.
  destruct H as (old & _ & _ & ->). reflexivity.
Qed.

Lemma cancel_trip_status now trip_id driver_id c row c' :
  TripService.cancel_trip now trip_id driver_id c = (Return (Some row), c') ->
  Trip.trip_status row = "cancelled"%string.
Proof.
  intros H. apply transition_returns in H.
  destruct H as (old & _ & _ & ->). reflexivity.
Qed.

(** C10 on one trip: driver 5 accepts trip 1, starts it and cancels it.
    The three returned records carry the statuses [accepted],
    [in_progress] and [cancelled]; none is a [TripStatus], and building the
    response fails on each. *)
Theorem lifecycle_records_fail_validation :
  let c0 := Scenario.connect Scenario.waiting_for_driver in
  exists r1 c1 r2 c2 r3 c3,
    TripService.accept_trip 10 1 5 c0 = (Return (Some r1), c1)
    /\ Trip.trip_status r1 = "accepted"%string
    /\ TripResponse r1 = Raise (ValidationError "trip_status")
    /\ TripService.start_trip 20 1 5 c1 = (Return (Some r2), c2)
    /\ Trip.trip_status r2 = "in_progress"%string
    /\ TripResponse r2 = Raise (ValidationError "trip_status")
    /\ TripService.cancel_trip 30 1 5 c2 = (Return (Some r3), c3)
    /\ Trip.trip_status r3 = "cancelled"%string
    /\ TripResponse r3 = Raise (ValidationError "trip_status").
Proof.
  do 6 eexists.
  split; [vm_compute; reflexivity|].
  split; [reflexivity|]. split; [reflexivity|].
  split; [vm_compute; reflexivity|].
  split; [reflexivity|]. split; [reflexivity|].
  split; [vm_compute; reflexivity|].
  split; reflexivity.
Qed.

(** ** Driver assignment *)

Lemma by_id_id trip_id t :
  TripService.by_id trip_id t = true -> Trip.id t = trip_id.
Proof.
  unfold TripService.by_id. intros H.
  apply andb_true_iff in H. destruct H as [H _]. apply Z.eqb_eq. exact H.
Qed.

(** [accept_trip] returns a record exactly when the trip it reads is
    pending and has no driver; nothing about the driver is consulted. *)
Lemma accept_trip_succeeds_iff now trip_id driver_id c :
  (exists row c',
     TripService.accept_trip now trip_id driver_id c = (Return (Some row), c'))
  <-> exists t,
        fetchone (filter (TripService.by_id trip_id) (trips (working c)))
          = Some t
        /\ Trip.trip_status t = "pending"%string
        /\ Trip.driver_id t = None.
Proof.
  unfold TripService.accept_trip, TripService.accept_select,
    TripService.accept_update.
  run_conn.
  destruct (fetchone (filter (TripService.by_id trip_id) _)) as [t|] eqn:Hsel.
  - unfold TripService.not_available.
    destruct (String.eqb_spec (Trip.trip_status t) "pending") as [Hst|Hst];
      simpl.
    + destruct (Trip.driver_id t) as [d|] eqn:Hd; simpl.
      * split.
        -- intros (row & c' & H). discriminate.
        -- intros (t' & Ht & _ & H). inversion Ht; subst. congruence.
      * split.
        -- intros _. exists t. auto.
        -- intros _.
           apply fetchone_filter_sound in Hsel. destruct Hsel as [Hin Hid].
           apply by_id_id in Hid.
           destruct (filter_has_head (fun r => Trip.id r =? trip_id) _ t Hin)
             as (y & ys & Hf); [apply Z.eqb_eq; exact Hid|].
           unfold returning, fetchone. rewrite Hf. simpl. eauto.
    + split.
      * intros (row & c' & H). discriminate.
      * intros (t' & Ht & H & _). inversion Ht; subst. contradiction.
  - simpl. split.
    + intros (row & c' & H). discriminate.
    + intros (t' & Ht & _). discriminate.
Qed.

(** C3, as the code has it.  [assign_driver_to_trip] returns [True] only
    for a driver whose row is approved and not soft-deleted; it raises and
    leaves the store as it was when that driver is already the driver of a
    trip that is not soft-deleted and whose status is [pending],
    [started] or [waiting].  [accept_trip] looks at the trip only: it succeeds exactly
    when the trip it reads is pending and has no driver. *)
Theorem assignment_preconditions :
  forall (now trip_id driver_id : Z) (c : Conn),
    (forall c',
        TripService.assign_driver_to_trip now trip_id driver_id c
          = (Return true, c') ->
        exists d,
          In d (drivers (working c))
          /\ Driver.user_id d = driver_id
          /\ Driver.approval_status d = "approved"%string
          /\ Driver.deleted_at d = None)
    /\ (forall held,
          In held (trips (working c)) ->
          Trip.driver_id held = Some driver_id ->
          Trip.deleted_at held = None ->
          Trip.trip_status held = "pending"%string
          \/ Trip.trip_status held = "started"%string
          \/ Trip.trip_status held = "waiting"%string ->
          exists e,
            TripService.assign_driver_to_trip now trip_id driver_id c
              = (Raise e, c))
    /\ ((exists row c',
           TripService.accept_trip now trip_id driver_id c
             = (Return (Some row), c'))
        <-> exists t,
              fetchone (filter (TripService.by_id trip_id) (trips (working c)))
                = Some t
              /\ Trip.trip_status t = "pending"%string
              /\ Trip.driver_id t = None).
Proof.
  intros now trip_id driver_id c.
  split; [|split; [|apply accept_trip_succeeds_iff]].
  - intros c'. unfold TripService.assign_driver_to_trip. run_conn.
    destruct (fetchone (filter _ (drivers (working c)))) as [d|] eqn:Hd;
      [|discriminate].
    intros _. apply fetchone_filter_sound in Hd. destruct Hd as [Hin Hp].
    apply andb_true_iff in Hp. destruct Hp as [Hp Hdel].
    apply andb_true_iff in Hp. destruct Hp as [Hid Happ].
    exists d. repeat split; auto.
    + apply Z.eqb_eq; auto.
    + apply String.eqb_eq; auto.
    + destruct (Driver.deleted_at d); [discriminate|reflexivity].
  - intros held Hin Hdrv Hdel Hst.
    unfold TripService.assign_driver_to_trip. run_conn.
    destruct (fetchone (filter _ (drivers (working c)))) as [d|]; eauto.
    match goal with
    | |- context [filter ?p (trips (working c))] =>
        destruct (filter_has_head p (trips (working c)) held Hin) as (y & ys & Hf)
    end.
    { rewrite Hdrv, Hdel. simpl. rewrite Z.eqb_refl.
      destruct Hst as [-> | [-> | ->]]; reflexivity. }
    unfold fetchone. rewrite Hf. simpl. eauto.
Qed.

(** Instance of [assignment_preconditions]: driver 5 already has a pending
    trip, so the assignment to trip 2 raises and changes nothing; the
    assignment of driver 6 to trip 2 succeeds, and driver 6 is approved. *)
Lemma assignment_preconditions_witness :
  let db :=
    Scenario.store [Scenario.user 1 0; Scenario.user 2 0]
      [Scenario.driver 5 "approved"; Scenario.driver 6 "approved"]
      [Scenario.trip 1 1 (Some 5) "pending"; Scenario.trip 2 2 None "pending"]
  in
  (exists e,
     TripService.assign_driver_to_trip 10 2 5 (Scenario.connect db)
       = (Raise e, Scenario.connect db))
  /\ (exists d,
        In d (drivers db) /\ Driver.user_id d = 6
        /\ Driver.approval_status d = "approved"%string
        /\ Driver.deleted_at d = None).
Proof.
  intros db. split.
  - apply (proj1 (proj2 (assignment_preconditions 10 2 5 (Scenario.connect db)))
             (Scenario.trip 1 1 (Some 5) "pending")).
    + simpl. left. reflexivity.
    + reflexivity.
    + reflexivity.
    + left. reflexivity.
  - apply (proj1 (assignment_preconditions 10 2 6 (Scenario.connect db))
             (snd (TripService.assign_driver_to_trip 10 2 6
                     (Scenario.connect db)))).
    vm_compute. reflexivity.
Defined.

(** C3 as stated fails: driver 5 already holds trip 1, whose status is
    [accepted], and still accepts trip 2; afterwards both trips are
    [accepted] with driver 5. *)
Lemma accept_trip_ignores_held_trip :
  let c := Scenario.connect Scenario.busy_driver in
  map (fun t => (Trip.id t, Trip.driver_id t, Trip.trip_status t))
    (trips (working c))
    = [(1, Some 5, "accepted"%string); (2, None, "pending"%string)]
  /\ (exists row c',
        TripService.accept_trip 10 2 5 c = (Return (Some row), c')
        /\ Trip.id row = 2
        /\ Trip.driver_id row = Some 5
        /\ map (fun t => (Trip.id t, Trip.driver_id t, Trip.trip_status t))
             (trips (committed c'))
           = [(1, Some 5, "accepted"%string); (2, Some 5, "accepted"%string)]).
Proof.
  split; [reflexivity|].
  do 2 eexists. split; [vm_compute; reflexivity|]. repeat split.
Qed.

(** The same for [assign_driver_to_trip] and a driver whose trip is
    [in_progress]: the check for another trip does not see it. *)
Lemma assign_ignores_trip_in_progress :
  let db :=
    Scenario.store [Scenario.user 1 0; Scenario.user 2 0]
      [Scenario.driver 5 "approved"]
      [Scenario.trip 1 1 (Some 5) "in_progress";
       Scenario.trip 2 2 None "pending"] in
  let r := TripService.assign_driver_to_trip 10 2 5 (Scenario.connect db) in
  fst r = Return true
  /\ map (fun t => (Trip.id t, Trip.driver_id t, Trip.trip_status t))
       (trips (committed (snd r)))
     = [(1, Some 5, "in_progress"%string); (2, Some 5, "pending"%string)].
Proof. vm_compute. split; reflexivity. Qed.

(** ** Concurrent acceptance *)

(** A request that runs its two statements back to back is [accept_trip]. *)
Lemma accept_trip_is_two_steps now trip_id driver_id db :
  let s0 := Concurrent.request now trip_id driver_id in
  let '(db1, s1) := Concurrent.step db s0 in
  let '(db2, s2) := Concurrent.step db1 s1 in
  exists result,
    Concurrent.at_pc s2 = Concurrent.Finished result
    /\ TripService.accept_trip now trip_id driver_id
         {| committed := db; working := db |}
       = (Return result, {| committed := db2; working := db2 |}).
Proof.
  unfold Concurrent.step, Concurrent.on_server, Concurrent.request,
    TripService.accept_trip, TripService.accept_select,
    TripService.accept_update.
  run_conn.
  destruct (fetchone (filter (TripService.by_id trip_id) (trips db)))
    as [t|]; simpl.
  - destruct (TripService.not_available t); simpl; eauto.
  - eauto.
Qed.

(** C4 under the schedule select, select, update, update: drivers 5 and 6
    both read trip 1 as pending and driverless, both updates go through,
    both requests return the trip, and the trip ends with driver 6 although
    driver 5 was told the trip was theirs. *)
Theorem concurrent_accepts_both_succeed :
  let '(server, a, b) :=
    Concurrent.run
      [Concurrent.First; Concurrent.Second; Concurrent.First; Concurrent.Second]
      Scenario.waiting_for_driver
      (Concurrent.request 10 1 5) (Concurrent.request 11 1 6) in
  exists ra rb,
    Concurrent.at_pc a = Concurrent.Finished (Some ra)
    /\ Concurrent.at_pc b = Concurrent.Finished (Some rb)
    /\ Trip.driver_id ra = Some 5
    /\ Trip.driver_id rb = Some 6
    /\ map (fun t => (Trip.id t, Trip.driver_id t, Trip.trip_status t))
         (trips server) = [(1, Some 6, "accepted"%string)].
Proof. vm_compute. do 2 eexists. repeat split. Qed.

(** One request after the other: the second finds the trip taken. *)
Lemma serial_accepts_one_succeeds :
  let '(server, a, b) :=
    Concurrent.run
      [Concurrent.First; Concurrent.First; Concurrent.Second; Concurrent.Second]
      Scenario.waiting_for_driver
      (Concurrent.request 10 1 5) (Concurrent.request 11 1 6) in
  (exists ra, Concurrent.at_pc a = Concurrent.Finished (Some ra))
  /\ Concurrent.at_pc b = Concurrent.Finished None
  /\ map (fun t => (Trip.id t, Trip.driver_id t, Trip.trip_status t))
       (trips server) = [(1, Some 5, "accepted"%string)].
Proof. vm_compute. split; [eexists; reflexivity|split; reflexivity]. Qed.

(** ** The driver of a trip *)

Lemma get_trip_by_id_trip_of trip_id c :
  TripService.get_trip_by_id trip_id c = (Return (trip_of (working c) trip_id), c).
Proof. reflexivity. Qed.

(** An update that writes neither [id] nor [deleted_at], and that keeps
    the driver of the trip looked up if it writes that trip at all, keeps
    the driver of that trip. *)
Lemma update_keeps_driver guard set db trip_id row d :
  (forall t, Trip.id (set t) = Trip.id t) ->
  (forall t, Trip.deleted_at (set t) = Trip.deleted_at t) ->
  (guard row = true -> Trip.driver_id (set row) = Some d) ->
  trip_of db trip_id = Some row ->
  Trip.driver_id row = Some d ->
  exists row',
    trip_of (set_trips (update_where guard set) db) trip_id = Some row'
    /\ Trip.driver_id row' = Some d.
Proof.
  intros Hid Hdel Hdrv Hrow Hd. unfold trip_of in *.
  unfold set_trips. cbn [trips].
  rewrite fetchone_filter_update.
  - rewrite Hrow. simpl. eexists; split; [reflexivity|].
    destruct (guard row); auto.
  - intros t. unfold TripService.by_id. rewrite Hid, Hdel. reflexivity.
Qed.

Lemma transition_keeps_driver guard set c trip_id row d :
  (forall t, Trip.id (set t) = Trip.id t) ->
  (forall t, Trip.deleted_at (set t) = Trip.deleted_at t) ->
  (forall t, Trip.driver_id (set t) = Trip.driver_id t) ->
  trip_of (working c) trip_id = Some row ->
  Trip.driver_id row = Some d ->
  exists row',
    trip_of (working (snd (TripService.transition guard set c))) trip_id
      = Some row'
    /\ Trip.driver_id row' = Some d.
Proof.
  intros Hid Hdel Hdrv Hrow Hd. rewrite transition_run.
  destruct (fetchone _); cbn [snd working].
  - apply update_keeps_driver with (row := row); auto.
    intros _. rewrite Hdrv. exact Hd.
  - eauto.
Qed.

(** [accept_trip] case by case. *)
Lemma accept_trip_run now trip_id driver_id c :
  let guard := fun t => Trip.id t =? trip_id in
  let set := fun t =>
    Trip.set_updated_at now
      (Trip.set_trip_status "accepted"
         (Trip.set_driver_id (Some driver_id) t)) in
  TripService.accept_trip now trip_id driver_id c =
  match trip_of (working c) trip_id with
  | None => (Return None, c)
  | Some row =>
      if TripService.not_available row then (Return None, c)
      else
        (Return (fetchone (returning guard set (trips (working c)))),
         {| committed := set_trips (update_where guard set) (working c);
            working := set_trips (update_where guard set) (working c) |})
  end.
Proof.
  unfold TripService.accept_trip, TripService.accept_select,
    TripService.accept_update, trip_of.
  run_conn.
  destruct (fetchone (filter (TripService.by_id trip_id) _)) as [t|];
    [|reflexivity].
  destruct (TripService.not_available t); reflexivity.
Qed.

Lemma accept_keeps_driver now target driver_id c trip_id row d :
  trip_of (working c) trip_id = Some row ->
  Trip.driver_id row = Some d ->
  exists row',
    trip_of (working (snd (TripService.accept_trip now target driver_id c)))
      trip_id = Some row'
    /\ Trip.driver_id row' = Some d.
Proof.
  intros Hrow Hd. rewrite accept_trip_run. cbv zeta.
  destruct (trip_of (working c) target) as [t|] eqn:Ht; [|eauto].
  destruct (TripService.not_available t) eqn:Hav; [eauto|].
  cbn [snd working].
  apply update_keeps_driver with (row := row); auto.
  intros Hg. apply Z.eqb_eq in Hg.
  assert (Hid : Trip.id row = trip_id).
  { unfold trip_of in Hrow. apply fetchone_filter_sound in Hrow.
    apply by_id_id. tauto. }
  rewrite Hid in Hg. rewrite <- Hg in Ht.
  rewrite Hrow in Ht. inversion Ht; subst t.
  unfold TripService.not_available in Hav. rewrite Hd in Hav.
  rewrite orb_true_r in Hav. discriminate.
Qed.

Lemma create_keeps_driver now trip_data c trip_id row d :
  trip_of (working c) trip_id = Some row ->
  Trip.driver_id row = Some d ->
  exists row',
    trip_of (working (snd (TripService.create_trip now trip_data c))) trip_id
      = Some row'
    /\ Trip.driver_id row' = Some d.
Proof.
  intros Hrow Hd. unfold TripService.create_trip, TripService.insert_trip.
  run_conn.
  destruct (fetchone (filter _ (users (working c)))); simpl; [|eauto].
  exists row. split; [|exact Hd].
  unfold trip_of in *. simpl. apply fetchone_filter_app. exact Hrow.
Qed.

Lemma run_op_keeps_driver op c trip_id row d :
  trip_of (working c) trip_id = Some row ->
  Trip.driver_id row = Some d ->
  exists row',
    trip_of (working (run_op c op)) trip_id = Some row'
    /\ Trip.driver_id row' = Some d.
Proof.
  intros Hrow Hd. destruct op; simpl.
  - apply create_keeps_driver with (row := row); auto.
  - apply accept_keeps_driver with (row := row); auto.
  - apply transition_keeps_driver with (row := row); auto.
  - apply transition_keeps_driver with (row := row); auto.
  - apply transition_keeps_driver with (row := row); auto.
Qed.

(** C5, as the code has it: over any sequence of create, accept, start,
    complete and cancel calls, a trip that has a driver keeps that driver;
    none of these operations replaces or clears a [driver_id] that is
    set. *)
Theorem driver_id_written_once :
  forall (ops : list lifecycle_op) (c : Conn) (trip_id : Z)
         (row : Trip.row) (d : Z),
    trip_of (working c) trip_id = Some row ->
    Trip.driver_id row = Some d ->
    exists row',
      trip_of (working (run_ops ops c)) trip_id = Some row'
      /\ Trip.driver_id row' = Some d.
Proof.
  induction ops as [|op ops IH]; intros c trip_id row d Hrow Hd.
  - simpl. eauto.
  - simpl.
    destruct (run_op_keeps_driver op c trip_id row d Hrow Hd)
      as (row1 & Hrow1 & Hd1).
    apply (IH (run_op c op) trip_id row1 d Hrow1 Hd1).
Qed.

(** Instance of [driver_id_written_once]: trip 1 is held by driver 5;
    driver 6 tries to accept it, driver 5 starts it, driver 6 tries to
    cancel it, a new trip is created and driver 5 completes trip 1. *)
Lemma driver_id_written_once_witness :
  exists row',
    trip_of
      (working
         (run_ops
            [Accept 10 1 6; Start 11 1 5; Cancel 12 1 6;
             Create 13
               {| TripCreate.passenger_id := 2; TripCreate.driver_id := None;
                  TripCreate.route_id := None;
                  TripCreate.trip_type := Some "urban"%string;
                  TripCreate.discount_code_id := None;
                  TripCreate.start_location := None;
                  TripCreate.end_location := None |};
             Complete 14 1 5]
            (Scenario.connect Scenario.busy_driver)))
      1 = Some row'
    /\ Trip.driver_id row' = Some 5.
Proof.
  apply (driver_id_written_once _ (Scenario.connect Scenario.busy_driver) 1
           (Scenario.trip 1 1 (Some 5) "accepted") 5).
  - reflexivity.
  - reflexivity.
Defined.

(** C5 as stated fails: driver 5 accepts trip 1, then [update_trip] with
    [driver_id = 6] replaces the driver. *)
Lemma update_trip_replaces_driver :
  let c0 := Scenario.connect Scenario.waiting_for_driver in
  let c1 := snd (TripService.accept_trip 10 1 5 c0) in
  let c2 :=
    snd (TripService.update_trip 11 1
           {| TripUpdate.driver_id := Some 6; TripUpdate.trip_status := None;
              TripUpdate.start_time := None; TripUpdate.end_time := None;
              TripUpdate.payment_id := None |} c1) in
  option_map Trip.driver_id (trip_of (committed c0) 1) = Some None
  /\ option_map Trip.driver_id (trip_of (committed c1) 1) = Some (Some 5)
  /\ option_map Trip.driver_id (trip_of (committed c2) 1) = Some (Some 6).
Proof. vm_compute. repeat split. Qed.

(** [assign_driver_to_trip] replaces a driver as well while the trip is
    still pending: its update is guarded by the status alone. *)
Lemma assign_replaces_driver :
  let c0 := Scenario.connect Scenario.waiting_for_driver in
  let c1 := snd (TripService.assign_driver_to_trip 10 1 5 c0) in
  let c2 := snd (TripService.assign_driver_to_trip 11 1 6 c1) in
  option_map Trip.driver_id (trip_of (committed c1) 1) = Some (Some 5)
  /\ option_map Trip.driver_id (trip_of (committed c2) 1) = Some (Some 6).
Proof. vm_compute. repeat split. Qed.

(** ** Balance and ledger *)

Lemma sum_app (l1 l2 : list Q) :
  (fold_right Qplus 0 (l1 ++ l2)
   == fold_right Qplus 0 l1 + fold_right Qplus 0 l2)%Q.
Proof.
  induction l1 as [|x l1 IH]; simpl.
  - rewrite Qplus_0_l. reflexivity.
  - rewrite IH. rewrite Qplus_assoc. reflexivity.
Qed.

Lemma posted_transactions now d balance db :
  transactions (posted now d balance db)
  = transactions db ++ [TransactionService.new_transaction now d db].
Proof. reflexivity. Qed.

Lemma posted_users now d balance db :
  users (posted now d balance db)
  = update_where (fun u => User.id u =? TransactionCreate.user_id d)
      (User.set_wallet (Decimal.add balance (TransactionCreate.amount d)) now)
      (users db).
Proof. reflexivity. Qed.

Lemma ledger_sum_posted now d balance db user_id :
  (ledger_sum (posted now d balance db) user_id
   == if TransactionCreate.user_id d =? user_id
      then ledger_sum db user_id + TransactionCreate.amount d
      else ledger_sum db user_id)%Q.
Proof.
  unfold ledger_sum. rewrite posted_transactions.
  rewrite filter_app, map_app, sum_app. simpl.
  destruct (TransactionCreate.user_id d =? user_id); simpl.
  - rewrite Qplus_0_r. reflexivity.
  - rewrite Qplus_0_r. reflexivity.
Qed.

(** A post whose sum is exact keeps every balance equal to the sum of the
    rows. *)
Lemma posted_consistent now d db u :
  ledger_consistent db ->
  fetchone (filter (fun u => User.id u =? TransactionCreate.user_id d)
              (users db)) = Some u ->
  adds_exactly (User.wallet_balance u) (TransactionCreate.amount d) ->
  ledger_consistent (posted now d (User.wallet_balance u) db).
Proof.
  intros Hdb Hu Hex v Hv.
  apply fetchone_filter_sound in Hu. destruct Hu as [Hin Hid].
  apply Z.eqb_eq in Hid.
  rewrite posted_users in Hv. unfold update_where in Hv.
  apply in_map_iff in Hv. destruct Hv as (w & Hw & Hwin).
  rewrite ledger_sum_posted.
  destruct (Z.eqb_spec (User.id w) (TransactionCreate.user_id d)) as [He|Hne];
    subst v.
  - cbn [User.set_wallet User.id User.wallet_balance].
    rewrite He, Z.eqb_refl. unfold adds_exactly in Hex. rewrite Hex.
    rewrite (Hdb u Hin), Hid. reflexivity.
  - destruct (Z.eqb_spec (TransactionCreate.user_id d) (User.id w));
      [congruence|].
    apply Hdb. exact Hwin.
Qed.

Lemma create_transaction_consistent now d c :
  ledger_consistent (committed c) ->
  ledger_consistent (working c) ->
  post_exact d (working c) ->
  ledger_consistent
    (committed (snd (TransactionService.create_transaction now d c)))
  /\ ledger_consistent
       (working (snd (TransactionService.create_transaction now d c))).
Proof.
  intros Hc Hw Hex. rewrite create_transaction_run.
  destruct (fetchone _) as [u|] eqn:Hu; [|split; exact Hc].
  destruct (debit_check d (User.wallet_balance u)); [split; exact Hc|].
  cbn [snd committed working].
  assert (Hu' : adds_exactly (User.wallet_balance u)
                  (TransactionCreate.amount d)).
  { apply Hex. unfold wallet_of. rewrite Hu. reflexivity. }
  split; apply posted_consistent; auto.
Qed.

(** One call publishes either nothing or the row and the balance at
    once. *)
Lemma create_transaction_commits_together now d c :
  let c' := snd (TransactionService.create_transaction now d c) in
  committed c' = committed c
  \/ exists u,
       In u (users (working c))
       /\ transactions (committed c')
          = transactions (working c)
              ++ [TransactionService.new_transaction now d (working c)]
       /\ users (committed c')
          = update_where (fun v => User.id v =? TransactionCreate.user_id d)
              (User.set_wallet
                 (Decimal.add (User.wallet_balance u)
                    (TransactionCreate.amount d)) now)
              (users (working c)).
Proof.
  cbv zeta. rewrite create_transaction_run.
  destruct (fetchone _) as [u|] eqn:Hu; [|left; reflexivity].
  destruct (debit_check d (User.wallet_balance u)); [left; reflexivity|].
  right. exists u. apply fetchone_filter_sound in Hu.
  split; [tauto|]. split; reflexivity.
Qed.

Lemma create_transaction_leaves_nothing_open now d c :
  committed (snd (TransactionService.create_transaction now d c))
  = working (snd (TransactionService.create_transaction now d c)).
Proof.
  rewrite create_transaction_run.
  destruct (fetchone _) as [u|]; [|reflexivity].
  destruct (debit_check d (User.wallet_balance u)); reflexivity.
Qed.

Lemma post_all_consistent calls :
  forall c,
    committed c = working c ->
    ledger_consistent (committed c) ->
    posts_exact calls c ->
    committed (post_all calls c) = working (post_all calls c)
    /\ ledger_consistent (committed (post_all calls c)).
Proof.
  induction calls as [|[now d] calls IH]; intros c Hclean Hc Hex.
  - split; assumption.
  - destruct Hex as [Hex Hrest]. cbn [fst snd] in Hex, Hrest.
    simpl. apply IH.
    + apply create_transaction_leaves_nothing_open.
    + apply create_transaction_consistent; [|rewrite <- Hclean|]; auto.
    + exact Hrest.
Qed.

(** X29: calls of [create_transaction] that run one after the other on a
    connection with nothing uncommitted, and whose sums all come out exact
    under the decimal context, keep every committed balance equal to the
    sum of the user's committed transaction rows; [get_wallet_balance]
    returns that sum, and a further call publishes either nothing or the
    new row together with the new balance. *)
Theorem serial_posts_keep_the_ledger :
  forall (calls : list (Z * TransactionCreate.t)) (c : Conn),
    committed c = working c ->
    ledger_consistent (committed c) ->
    posts_exact calls c ->
    let c' := post_all calls c in
    committed c' = working c'
    /\ ledger_consistent (committed c')
    /\ (forall user_id balance,
          fst (TransactionService.get_wallet_balance user_id c')
            = Return (Some balance) ->
          (balance == ledger_sum (committed c') user_id)%Q)
    /\ (forall now d,
          let c'' := snd (TransactionService.create_transaction now d c') in
          committed c'' = committed c'
          \/ exists u,
               In u (users (committed c'))
               /\ transactions (committed c'')
                  = transactions (committed c')
                      ++ [TransactionService.new_transaction now d
                            (committed c')]
               /\ users (committed c'')
                  = update_where
                      (fun v => User.id v =? TransactionCreate.user_id d)
                      (User.set_wallet
                         (Decimal.add (User.wallet_balance u)
                            (TransactionCreate.amount d))
                         now)
                      (users (committed c'))).
Proof.
  intros calls c Hclean Hc Hex.
  destruct (post_all_consistent calls c Hclean Hc Hex) as [Hclean' Hc'].
  cbv zeta.
  split; [exact Hclean'|]. split; [exact Hc'|]. split.
  - intros user_id balance.
    unfold TransactionService.get_wallet_balance, query. cbn [fst].
    rewrite <- Hclean'.
    destruct (fetchone _) as [u|] eqn:Hu; [|discriminate].
    intros H. inversion H; subst balance.
    apply fetchone_filter_sound in Hu. destruct Hu as [Hin Hp].
    apply andb_true_iff in Hp. destruct Hp as [Hid _].
    apply Z.eqb_eq in Hid. rewrite <- Hid. apply Hc'. exact Hin.
  - intros now d.
    pose proof (create_transaction_commits_together now d (post_all calls c))
      as H.
    cbv zeta in H. rewrite <- Hclean' in H. exact H.
Qed.

(** Instance of [serial_posts_keep_the_ledger]: user 1 starts with an
    empty wallet and no transaction, deposits 100, withdraws 30 and is
    refused a trip payment of 500; the balance read afterwards is 70. *)
Lemma serial_posts_keep_the_ledger_witness :
  let c := Scenario.connect (Scenario.store [Scenario.user 1 0] [] []) in
  let call ty amount :=
    {| TransactionCreate.user_id := 1; TransactionCreate.amount := amount;
       TransactionCreate.type := ty; TransactionCreate.payment_id := None |} in
  let calls :=
    [(1, call "deposit"%string (100 # 1));
     (2, call "withdraw"%string (- (30 # 1))%Q);
     (3, call "trip_payment"%string (- (500 # 1))%Q)] in
  ledger_consistent (committed c)
  /\ posts_exact calls c
  /\ ledger_consistent (committed (post_all calls c))
  /\ fst (TransactionService.get_wallet_balance 1 (post_all calls c))
     = Return (Some (0 + (100 # 1) + - (30 # 1))%Q)
  /\ (0 + (100 # 1) + - (30 # 1)
      == ledger_sum (committed (post_all calls c)) 1)%Q.
Proof.
  intros c call calls.
  assert (H0 : ledger_consistent (committed c)).
  { intros u [<-|[]]. reflexivity. }
  assert (Hex : posts_exact calls c).
  { repeat split; intros balance Hb; vm_compute in Hb;
      inversion Hb; subst balance; vm_compute; reflexivity. }
  split; [exact H0|]. split; [exact Hex|].
  destruct (serial_posts_keep_the_ledger calls c eq_refl H0 Hex)
    as (_ & H1 & H2 & _).
  split; [exact H1|].
  split; [reflexivity|]. apply H2. reflexivity.
Defined.

(** ** Posts that run at once *)

(** A request that runs its two steps back to back is
    [create_transaction]. *)
Lemma create_transaction_is_two_steps now d db :
  let s0 := ConcurrentPosts.request now d in
  let '(db1, s1) := ConcurrentPosts.step db s0 in
  let '(db2, s2) := ConcurrentPosts.step db1 s1 in
  exists result,
    ConcurrentPosts.at_pc s2 = ConcurrentPosts.Finished result
    /\ TransactionService.create_transaction now d
         {| committed := db; working := db |}
       = (result, {| committed := db2; working := db2 |}).
Proof.
  rewrite create_transaction_run.
  unfold ConcurrentPosts.step, Concurrent.on_server, ConcurrentPosts.request,
    ConcurrentPosts.select_balance, ConcurrentPosts.insert_and_update,
    rolled_back, posted.
  run_conn.
  destruct (fetchone _) as [u|]; simpl.
  - destruct (debit_check d (User.wallet_balance u)); simpl; eauto.
  - eauto.
Qed.

(** C6 under the schedule select, select, write, write: user 1 holds 0 and
    has no transaction row; two deposits of 100 run at once.  Both read the
    balance 0, both insert their row and write the balance 100, and both
    return their row.  Two rows that sum to 200 are committed, and the
    balance [get_wallet_balance] returns is 100. *)
Theorem concurrent_posts_lose_an_update :
  let db := Scenario.store [Scenario.user 1 0] [] [] in
  let deposit :=
    {| TransactionCreate.user_id := 1; TransactionCreate.amount := 100 # 1;
       TransactionCreate.type := "deposit";
       TransactionCreate.payment_id := None |} in
  let '(server, a, b) :=
    ConcurrentPosts.run
      [Concurrent.First; Concurrent.Second; Concurrent.First; Concurrent.Second]
      db (ConcurrentPosts.request 10 deposit)
      (ConcurrentPosts.request 11 deposit) in
  ledger_consistent db
  /\ (exists ra rb,
        ConcurrentPosts.at_pc a = ConcurrentPosts.Finished (Return ra)
        /\ ConcurrentPosts.at_pc b = ConcurrentPosts.Finished (Return rb))
  /\ map (fun tx => (Transaction.user_id tx, Transaction.amount tx))
       (transactions server) = [(1, 100 # 1); (1, 100 # 1)]
  /\ (ledger_sum server 1 == 200 # 1)%Q
  /\ fst (TransactionService.get_wallet_balance 1 (Scenario.connect server))
     = Return (Some (100 # 1))
  /\ ~ ledger_consistent server.
Proof.
  vm_compute ConcurrentPosts.run. cbv zeta.
  split; [intros u [<-|[]]; reflexivity|].
  split; [do 2 eexists; split; reflexivity|].
  split; [reflexivity|]. split; [reflexivity|]. split; [reflexivity|].
  intros H.
  specialize (H _ (or_introl eq_refl)). vm_compute in H. discriminate.
Qed.

(** One request after the other: the second reads the balance the first
    committed. *)
Lemma serial_posts_add_up :
  let db := Scenario.store [Scenario.user 1 0] [] [] in
  let deposit :=
    {| TransactionCreate.user_id := 1; TransactionCreate.amount := 100 # 1;
       TransactionCreate.type := "deposit";
       TransactionCreate.payment_id := None |} in
  let '(server, a, b) :=
    ConcurrentPosts.run
      [Concurrent.First; Concurrent.First; Concurrent.Second; Concurrent.Second]
      db (ConcurrentPosts.request 10 deposit)
      (ConcurrentPosts.request 11 deposit) in
  (ledger_sum server 1 == 200 # 1)%Q
  /\ (forall balance,
        fst (TransactionService.get_wallet_balance 1 (Scenario.connect server))
          = Return (Some balance) -> (balance == 200 # 1)%Q).
Proof.
  vm_compute ConcurrentPosts.run. cbv zeta.
  split; [reflexivity|].
  intros balance H. vm_compute in H. inversion H. reflexivity.
Qed.

(** A single call is enough once a sum has more digits than the context
    keeps: user 1 holds [10 ^ 28], backed by one row of that amount, and
    deposits 0.01.  The row of 0.01 is committed and the balance stays
    [10 ^ 28]. *)
Lemma post_beyond_precision_drifts :
  let big := (10 ^ 28 # 1)%Q in
  let before :=
    {| users := [Scenario.user 1 big]; drivers := []; tariffs := [];
       trips := []; payments := [];
       transactions :=
         [{| Transaction.id := 1; Transaction.user_id := 1;
             Transaction.amount := big; Transaction.type := "deposit";
             Transaction.date := 0; Transaction.payment_id := None;
             Transaction.created_at := 0; Transaction.updated_at := 0 |}];
       trips_id_seq := 1; payments_id_seq := 1; transactions_id_seq := 2 |} in
  let deposit :=
    {| TransactionCreate.user_id := 1; TransactionCreate.amount := 1 # 100;
       TransactionCreate.type := "deposit";
       TransactionCreate.payment_id := None |} in
  let r :=
    TransactionService.create_transaction 10 deposit
      (Scenario.connect before) in
  ledger_consistent before
  /\ (exists tx, fst r = Return tx)
  /\ map User.wallet_balance (users (committed (snd r))) = [big]
  /\ (ledger_sum (committed (snd r)) 1 == big + (1 # 100))%Q
  /\ ~ ledger_consistent (committed (snd r)).
Proof.
  intros big before deposit r.
  split; [intros u [<-|[]]; vm_compute; reflexivity|].
  split; [eexists; vm_compute; reflexivity|].
  split; [vm_compute; reflexivity|].
  split; [vm_compute; reflexivity|].
  intros H.
  refine (_ (H (User.set_wallet big 10 (Scenario.user 1 big)) _)).
  - vm_compute. discriminate.
  - vm_compute. left. reflexivity.
Qed.

(** ** What a settlement posts *)

Lemma bind_returns {A B} (m : M A) (k : A -> M B) c b c' :
  bind m k c = (Return b, c') ->
  exists a c1, m c = (Return a, c1) /\ k a c1 = (Return b, c').
Proof.
  unfold bind. destruct (m c) as [[a|e] c1]; [eauto|discriminate].
Qed.

Lemma try_except_rollback_returns {A} (m : M A) c a c' :
  try_except m (fun e => ROLLBACK ;; raise e) c = (Return a, c') ->
  m c = (Return a, c').
Proof.
  unfold try_except. destruct (m c) as [[x|e] c1]; [auto|].
  run_conn. discriminate.
Qed.

Lemma PaymentCreate_make_returns amount ty c pd c1 :
  PaymentCreate.make amount ty c = (Return pd, c1) ->
  c1 = c /\ PaymentCreate.amount pd = amount.
Proof.
  unfold PaymentCreate.make.
  destruct (Qltb amount 0); [discriminate|].
  match goal with
  | |- context [if ?b then _ else _] => destruct b; [|discriminate]
  end.
  unfold ret. intros H. inversion H; subst. auto.
Qed.

Lemma TransactionCreate_make_returns user_id amount ty pid c d c1 :
  TransactionCreate.make user_id amount ty pid c = (Return d, c1) ->
  c1 = c
  /\ d = {| TransactionCreate.user_id := user_id;
            TransactionCreate.amount := amount;
            TransactionCreate.type := ty;
            TransactionCreate.payment_id := pid |}.
Proof.
  unfold TransactionCreate.make.
  destruct (str_in ty TransactionType); [|discriminate].
  unfold ret. intros H. inversion H; subst. auto.
Qed.

Lemma create_payment_returns now pd c p c1 :
  PaymentService.create_payment now pd c = (Return p, c1) ->
  transactions (working c1) = transactions (working c).
Proof.
  unfold PaymentService.create_payment, PaymentService.insert_payment.
  run_conn. intros H. inversion H; subst. reflexivity.
Qed.

Lemma update_payment_status_returns now pid status c r c1 :
  PaymentService.update_payment_status now pid status c = (Return r, c1) ->
  transactions (working c1) = transactions (working c)
  /\ committed c1 = working c1.
Proof.
  unfold PaymentService.update_payment_status.
  run_conn. intros H. inversion H; subst. auto.
Qed.

Lemma create_transaction_returns now d c tx c1 :
  TransactionService.create_transaction now d c = (Return tx, c1) ->
  tx = TransactionService.new_transaction now d (working c)
  /\ transactions (working c1) = transactions (working c) ++ [tx].
Proof.
  rewrite create_transaction_run.
  destruct (fetchone _) as [u|]; [|discriminate].
  destruct (debit_check d (User.wallet_balance u)); [discriminate|].
  intros H. inversion H; subst. auto.
Qed.

(** C8, as the code has it: a settlement that succeeds for a trip whose
    [driver_id] is [d], a user id other than 0, appends exactly two
    transaction rows, both of type [trip_payment] and both referring to
    the payment it created: the passenger's with amount [-g] and the
    driver's with amount [g * Decimal("0.85")], each as the decimal
    context rounds it, which is exactly [-g] and [0.85 * g] for a fare in
    hundredths of at most 26 digits.  The fee is part of the returned
    summary only. *)
Theorem settlement_posts_two_rows :
  forall (now trip_id : Z) (g : Q) (c c' : Conn) (r : TripPayment)
         (trip : Trip.row) (d : Z),
    trip_of (working c) trip_id = Some trip ->
    Trip.driver_id trip = Some d ->
    d <> 0 ->
    TransactionService.process_trip_payment now trip_id g c = (Return r, c') ->
    exists tx1 tx2,
      transactions (committed c') = transactions (working c) ++ [tx1; tx2]
      /\ Transaction.user_id tx1 = Trip.passenger_id trip
      /\ Transaction.amount tx1 = Decimal.neg g
      /\ Transaction.type tx1 = "trip_payment"%string
      /\ Transaction.payment_id tx1 = Some (Payment.id (payment r))
      /\ Transaction.user_id tx2 = d
      /\ Transaction.amount tx2 = Decimal.mul g (85 # 100)
      /\ Transaction.type tx2 = "trip_payment"%string
      /\ Transaction.payment_id tx2 = Some (Payment.id (payment r))
      /\ platform_fee r = Decimal.sub g (Decimal.mul g (85 # 100))
      /\ (forall n : Z,
            Z.abs n < 10 ^ 26 ->
            (g == n # 100)%Q ->
            (Transaction.amount tx1 == - g)%Q
            /\ (Transaction.amount tx2 == g * (85 # 100))%Q).
Proof.
  intros now trip_id g c c' r trip d Htrip Hd Hnz H.
  unfold TransactionService.process_trip_payment in H.
  apply bind_returns in H. destruct H as (tr & c0 & Hq & H).
  unfold query in Hq. fold (trip_of (working c) trip_id) in Hq.
  rewrite Htrip in Hq. inversion Hq; subst tr c0. clear Hq.
  apply bind_returns in H. destruct H as ([] & c0 & Hb & H).
  inversion Hb; subst c0. clear Hb.
  apply try_except_rollback_returns in H.
  apply bind_returns in H. destruct H as (pd & c1 & Hpd & H).
  apply PaymentCreate_make_returns in Hpd. destruct Hpd as [-> _].
  apply bind_returns in H. destruct H as (p & c2 & Hp & H).
  apply create_payment_returns in Hp.
  apply bind_returns in H. destruct H as (ptx & c3 & Hptx & H).
  apply TransactionCreate_make_returns in Hptx. destruct Hptx as [-> ->].
  apply bind_returns in H. destruct H as (tx1 & c4 & Htx1 & H).
  apply create_transaction_returns in Htx1. destruct Htx1 as [Htx1 Hc4].
  apply bind_returns in H. destruct H as ([] & c5 & Hdrv & H).
  rewrite Hd in Hdrv. unfold truthy in Hdrv.
  destruct (Z.eqb_spec d 0) as [|_]; [contradiction|]. cbn [negb] in Hdrv.
  apply bind_returns in Hdrv. destruct Hdrv as (dtx & c6 & Hdtx & Hdrv).
  apply TransactionCreate_make_returns in Hdtx. destruct Hdtx as [-> ->].
  apply bind_returns in Hdrv. destruct Hdrv as (tx2 & c7 & Htx2 & Hdrv).
  apply create_transaction_returns in Htx2. destruct Htx2 as [Htx2 Hc7].
  inversion Hdrv; subst c7. clear Hdrv.
  apply bind_returns in H. destruct H as ([] & c8 & Hex & H).
  unfold execute in Hex. inversion Hex; subst c8. clear Hex.
  apply bind_returns in H. destruct H as (st & c9 & Hst & H).
  apply update_payment_status_returns in Hst. cbn [working] in Hst.
  destruct Hst as [Hst Hcm]. cbn [transactions set_trips] in Hst.
  apply bind_returns in H. destruct H as ([] & c10 & Hco & H).
  unfold COMMIT in Hco. inversion Hco; subst c10. clear Hco.
  unfold ret in H. inversion H; subst r c'. clear H.
  exists tx1, tx2. cbn [committed payment platform_fee].
  rewrite Hst, Hc7, Hc4, Hp, <- app_assoc.
  split; [reflexivity|].
  rewrite Htx1, Htx2.
  cbn [TransactionService.new_transaction Transaction.user_id
       Transaction.amount Transaction.type Transaction.payment_id
       TransactionCreate.user_id TransactionCreate.amount
       TransactionCreate.type TransactionCreate.payment_id].
  rewrite Hd. unfold truthy.
  destruct (Z.eqb_spec d 0) as [|_]; [contradiction|]. cbn [negb].
  repeat (split; [reflexivity|]).
  intros n Hn Hg. split.
  - apply (neg_exact g n 2); [lia| |exact Hg].
    unfold Decimal.prec.
    replace (10 ^ 28) with (100 * 10 ^ 26) by reflexivity. lia.
  - unfold Decimal.mul. apply (round_exact _ (85 * n) 4); [lia| |].
    + unfold Decimal.prec.
      replace (10 ^ 28) with (100 * 10 ^ 26) by reflexivity. lia.
    + rewrite Hg. change (Z.to_pos (10 ^ 4)) with 10000%positive.
      unfold Qeq, Qmult. cbn [Qnum Qden]. lia.
Qed.

(** Instance of [settlement_posts_two_rows]: fare 500, passenger 1 and
    driver 5 both hold 1000; the rows are of -500 and 425. *)
Lemma settlement_posts_two_rows_witness :
  let c := Scenario.connect (Scenario.riding (1000 # 1) (1000 # 1)) in
  let result := TransactionService.process_trip_payment 10 1 (500 # 1) c in
  exists r tx1 tx2,
    fst result = Return r
    /\ transactions (committed (snd result)) = [tx1; tx2]
    /\ Transaction.user_id tx1 = 1
    /\ (Transaction.amount tx1 == - (500 # 1))%Q
    /\ Transaction.user_id tx2 = 5
    /\ (Transaction.amount tx2 == (500 # 1) * (85 # 100))%Q
    /\ platform_fee r
       = Decimal.sub (500 # 1) (Decimal.mul (500 # 1) (85 # 100))
    /\ (platform_fee r == 75 # 1)%Q.
Proof.
  intros c result.
  destruct result as [[r|e] c'] eqn:Hres; [|vm_compute in Hres; discriminate].
  destruct (settlement_posts_two_rows 10 1 (500 # 1) c c' r
              (Scenario.trip 1 1 (Some 5) "in_progress") 5)
    as (tx1 & tx2 & Htx & Hu1 & _ & _ & _ & Hu2 & _ & _ & _ & Hfee & Hex).
  - reflexivity.
  - reflexivity.
  - discriminate.
  - exact Hres.
  - destruct (Hex 50000) as [Ha1 Ha2]; [reflexivity|reflexivity|].
    exists r, tx1, tx2. cbn [fst snd].
    repeat split; auto.
    rewrite Hfee. vm_compute. reflexivity.
Defined.

(** C8 as stated fails in two places.  A trip whose [driver_id] is 0 has
    a driver assigned, but [if driver_id:] takes 0 for no driver: the
    settlement of 500 returns and only the passenger's row is posted.
    And for the fare [10 ^ 27 + 1], which passenger 1 and driver 5 can
    both cover, the driver's row is not of 0.85 times the fare: the
    product has 29 digits and is stored rounded to 28. *)
Lemma settlement_rows_differ_from_claim :
  (let db :=
     Scenario.store [Scenario.user 0 0; Scenario.user 1 (1000 # 1)]
       [Scenario.driver 0 "approved"]
       [Scenario.trip 1 1 (Some 0) "in_progress"] in
   let r :=
     TransactionService.process_trip_payment 10 1 (500 # 1)
       (Scenario.connect db) in
   (exists summary, fst r = Return summary)
   /\ map (fun tx => (Transaction.user_id tx, Transaction.amount tx))
        (transactions (committed (snd r))) = [(1, (- (500 # 1))%Q)])
  /\ (let g := (10 ^ 27 + 1 # 1)%Q in
      let r :=
        TransactionService.process_trip_payment 10 1 g
          (Scenario.connect (Scenario.riding (10 ^ 28 # 1) (10 ^ 28 # 1))) in
      (exists summary, fst r = Return summary)
      /\ exists tx1 tx2,
           transactions (committed (snd r)) = [tx1; tx2]
           /\ Transaction.user_id tx1 = 1
           /\ (Transaction.amount tx1 == - g)%Q
           /\ Transaction.user_id tx2 = 5
           /\ ~ (Transaction.amount tx2 == g * (85 # 100))%Q
           /\ (g * (85 # 100) - Transaction.amount tx2 == 5 # 100)%Q).
Proof.
  split.
  - cbv zeta. split; [eexists; vm_compute; reflexivity|].
    vm_compute. reflexivity.
  - cbv zeta. split; [eexists; vm_compute; reflexivity|].
    vm_compute. do 2 eexists. split; [reflexivity|].
    split; [reflexivity|]. split; [reflexivity|]. split; [reflexivity|].
    split; [discriminate|reflexivity].
Qed.

(** * Further properties of the services *)

(** ** The lifecycle as a state machine *)

Lemma trip_of_update_where guard set db trip_id :
  (forall t, Trip.id (set t) = Trip.id t) ->
  (forall t, Trip.deleted_at (set t) = Trip.deleted_at t) ->
  trip_of (set_trips (update_where guard set) db) trip_id
  = option_map (fun r => if guard r then set r else r) (trip_of db trip_id).
Proof.
  intros Hid Hdel. unfold trip_of, set_trips. cbn [trips].
  apply fetchone_filter_update.
  intros t. unfold TripService.by_id. rewrite Hid, Hdel. reflexivity.
Qed.

Lemma trip_of_id db trip_id row :
  trip_of db trip_id = Some row -> Trip.id row = trip_id.
Proof.
  unfold trip_of. intros H. apply fetchone_filter_sound in H.
  apply by_id_id. tauto.
Qed.

Lemma trip_of_In db trip_id row :
  trip_of db trip_id = Some row -> In row (trips db).
Proof.
  unfold trip_of. intros H. apply fetchone_filter_sound in H. tauto.
Qed.

(** What a transition does to the trip a lookup reads. *)
Lemma transition_trip_of guard set c trip_id :
  (forall t, Trip.id (set t) = Trip.id t) ->
  (forall t, Trip.deleted_at (set t) = Trip.deleted_at t) ->
  trip_of (working (snd (TripService.transition guard set c))) trip_id
  = option_map (fun r => if guard r then set r else r)
      (trip_of (working c) trip_id).
Proof.
  intros Hid Hdel. rewrite transition_run.
  destruct (fetchone _) as [r|] eqn:Hr; cbn [snd working].
  - apply trip_of_update_where; auto.
  - destruct (trip_of (working c) trip_id) as [row|] eqn:Hrow; [|reflexivity].
    cbn [option_map].
    destruct (guard row) eqn:Hg; [|reflexivity].
    exfalso. unfold returning, fetchone in Hr.
    destruct (filter_has_head guard _ row (trip_of_In _ _ _ Hrow) Hg)
      as (y & ys & Hf).
    rewrite Hf in Hr. discriminate.
Qed.

(** What [accept_trip] does to the trip a lookup reads. *)
Lemma accept_trip_of now target driver_id c trip_id row :
  trip_of (working c) trip_id = Some row ->
  trip_of (working (snd (TripService.accept_trip now target driver_id c)))
    trip_id
  = Some
      (if (target =? trip_id)
          && negb (TripService.not_available row)
       then Trip.set_updated_at now
              (Trip.set_trip_status "accepted"
                 (Trip.set_driver_id (Some driver_id) row))
       else row).
Proof.
  intros Hrow. rewrite accept_trip_run. cbv zeta.
  destruct (Z.eqb_spec target trip_id) as [->|Hne]; cbn [andb].
  - rewrite Hrow.
    destruct (TripService.not_available row); cbn [negb snd working];
      [exact Hrow|].
    rewrite trip_of_update_where by reflexivity. rewrite Hrow.
    cbn [option_map]. rewrite (trip_of_id _ _ _ Hrow), Z.eqb_refl.
    reflexivity.
  - assert (Hkeep :
      trip_of
        (set_trips
           (update_where (fun t => Trip.id t =? target)
              (fun t => Trip.set_updated_at now
                          (Trip.set_trip_status "accepted"
                             (Trip.set_driver_id (Some driver_id) t))))
           (working c)) trip_id = Some row).
    { rewrite trip_of_update_where by reflexivity. rewrite Hrow.
      cbn [option_map]. rewrite (trip_of_id _ _ _ Hrow).
      destruct (Z.eqb_spec trip_id target); [congruence|reflexivity]. }
    destruct (trip_of (working c) target) as [t|]; [|exact Hrow].
    destruct (TripService.not_available t); [exact Hrow|exact Hkeep].
Qed.

Lemma create_trip_of now trip_data c trip_id row :
  trip_of (working c) trip_id = Some row ->
  trip_of (working (snd (TripService.create_trip now trip_data c))) trip_id
  = Some row.
Proof.
  intros Hrow. unfold TripService.create_trip, TripService.insert_trip.
  run_conn.
  destruct (fetchone (filter _ (users (working c)))); simpl; [|exact Hrow].
  unfold trip_of in *. simpl. apply fetchone_filter_app. exact Hrow.
Qed.

(** One lifecycle call moves the status of a trip along at most one
    edge. *)
Lemma run_op_edge op c trip_id row :
  trip_of (working c) trip_id = Some row ->
  exists row',
    trip_of (working (run_op c op)) trip_id = Some row'
    /\ (row' = row
        \/ lifecycle_edge (Trip.trip_status row) (Trip.trip_status row')).
Proof.
  intros Hrow. destruct op as [now data|now t d|now t d|now t d|now t d];
    cbn [run_op].
  - exists row. split; [apply create_trip_of; exact Hrow|left; reflexivity].
  - rewrite (accept_trip_of now t d c trip_id row Hrow).
    eexists; split; [reflexivity|].
    destruct (t =? trip_id); cbn [andb]; [|left; reflexivity].
    unfold TripService.not_available.
    destruct (String.eqb_spec (Trip.trip_status row) "pending") as [Hs|Hs];
      cbn [negb orb]; [|left; reflexivity].
    destruct (is_some (Trip.driver_id row)); cbn [negb];
      [left; reflexivity|].
    right. rewrite Hs. constructor.
  - unfold TripService.start_trip.
    rewrite transition_trip_of by reflexivity. rewrite Hrow. cbn [option_map].
    eexists; split; [reflexivity|].
    destruct (String.eqb_spec (Trip.trip_status row) "accepted") as [Hs|Hs];
      [|rewrite andb_false_r; left; reflexivity].
    destruct (_ && _); [|left; reflexivity].
    right. rewrite Hs. constructor.
  - unfold TripService.complete_trip.
    rewrite transition_trip_of by reflexivity. rewrite Hrow. cbn [option_map].
    eexists; split; [reflexivity|].
    destruct (String.eqb_spec (Trip.trip_status row) "in_progress") as [Hs|Hs];
      [|rewrite andb_false_r; left; reflexivity].
    destruct (_ && _); [|left; reflexivity].
    right. rewrite Hs. constructor.
  - unfold TripService.cancel_trip.
    rewrite transition_trip_of by reflexivity. rewrite Hrow. cbn [option_map].
    eexists; split; [reflexivity|].
    match goal with
    | |- context [if ?b then _ else _] => destruct b eqn:Hg
    end; [|left; reflexivity].
    right. apply andb_true_iff in Hg. destruct Hg as [_ Hs].
    unfold str_in in Hs. cbn [existsb] in Hs.
    destruct (String.eqb_spec (Trip.trip_status row) "accepted") as [Ha|_].
    + rewrite Ha. constructor.
    + destruct (String.eqb_spec (Trip.trip_status row) "in_progress")
        as [Hi|_]; [|discriminate].
      rewrite Hi. constructor.
Qed.

Lemma lifecycle_path_trans s1 s2 s3 :
  lifecycle_path s1 s2 -> lifecycle_path s2 s3 -> lifecycle_path s1 s3.
Proof.
  induction 1; intros H23; auto.
  eapply path_step; eauto.
Qed.



Lemma run_op_keeps_finished op c trip_id row :
  trip_of (working c) trip_id = Some row ->
  Trip.trip_status row = "completed"%string
  \/ Trip.trip_status row = "cancelled"%string ->
  trip_of (working (run_op c op)) trip_id = Some row.
Proof.
  intros Hrow Hst.
  destruct (run_op_edge op c trip_id row Hrow) as (r & Hr & [->|Hedge]);
    [exact Hr|].
  exfalso. destruct Hst as [Hs|Hs]; rewrite Hs in Hedge; inversion Hedge.
Qed.

(** X2: completed and cancelled are final for the lifecycle calls: a trip
    read as completed or cancelled is read back unchanged, field by field,
    after any sequence of create, accept, start, complete and cancel
    calls. *)
Theorem finished_trip_is_final :
  forall (ops : list lifecycle_op) (c : Conn) (trip_id : Z) (row : Trip.row),
    trip_of (working c) trip_id = Some row ->
    Trip.trip_status row = "completed"%string
    \/ Trip.trip_status row = "cancelled"%string ->
    trip_of (working (run_ops ops c)) trip_id = Some row.
Proof.
  induction ops as [|op ops IH]; intros c trip_id row Hrow Hst.
  - exact Hrow.
  - cbn [run_ops fold_left]. apply IH; [|exact Hst].
    apply run_op_keeps_finished; assumption.
Qed.

(** Instance of [finished_trip_is_final]: a completed trip of driver 5
    withstands a cancel, a second acceptance and a restart. *)
Lemma finished_trip_is_final_witness :
  trip_of
    (working
       (run_ops [Cancel 10 1 5; Accept 11 1 6; Start 12 1 5; Complete 13 1 5]
          (Scenario.connect
             (Scenario.store [Scenario.user 1 0] [Scenario.driver 5 "approved"]
                [Scenario.trip 1 1 (Some 5) "completed"]))))
    1 = Some (Scenario.trip 1 1 (Some 5) "completed").
Proof.
  apply finished_trip_is_final.
  - reflexivity.
  - left. reflexivity.
Defined.

(** ** Who may move a trip *)

Lemma keyed_same_row (l : list Trip.row) a b :
  NoDup (map Trip.id l) -> In a l -> In b l -> Trip.id a = Trip.id b -> a = b.
Proof.
  induction l as [|x l IH]; simpl; intros Hnd Ha Hb Hid; [contradiction|].
  inversion Hnd as [|? ? Hnotin Hnd']; subst.
  destruct Ha as [->|Ha], Hb as [->|Hb]; auto.
  - exfalso. apply Hnotin. rewrite Hid. apply in_map. exact Hb.
  - exfalso. apply Hnotin. rewrite <- Hid. apply in_map. exact Ha.
Qed.

(** A guard that asks for the trip's id and for something the stored trip
    does not satisfy matches no row of a keyed table. *)
Lemma keyed_guard_matches_nothing db row (guard : Trip.row -> bool) :
  trips_keyed db ->
  In row (trips db) ->
  (forall r, guard r = true -> Trip.id r = Trip.id row) ->
  guard row = false ->
  filter guard (trips db) = [].
Proof.
  intros Hkey Hin Hid Hrow.
  destruct (filter guard (trips db)) as [|y ys] eqn:Hf; [reflexivity|].
  exfalso.
  assert (Hy : In y (filter guard (trips db))) by (rewrite Hf; left; auto).
  apply filter_In in Hy. destruct Hy as [Hyin Hg].
  assert (y = row) by (apply (keyed_same_row _ _ _ Hkey Hyin Hin); auto).
  subst y. congruence.
Qed.

Lemma transition_no_match guard set c :
  filter guard (trips (working c)) = [] ->
  TripService.transition guard set c = (Return None, c).
Proof.
  intros Hf. rewrite transition_run. unfold returning, fetchone.
  rewrite Hf. reflexivity.
Qed.

(** X3: on a table keyed by id, a driver who is not the driver stored on
    a trip can neither start, nor complete, nor cancel it: each call
    returns nothing and leaves the connection as it was, whatever the
    status of the trip. *)
Theorem other_driver_is_refused :
  forall (now trip_id d : Z) (c : Conn) (row : Trip.row),
    trips_keyed (working c) ->
    In row (trips (working c)) ->
    Trip.id row = trip_id ->
    Trip.driver_id row <> Some d ->
    TripService.start_trip now trip_id d c = (Return None, c)
    /\ TripService.complete_trip now trip_id d c = (Return None, c)
    /\ TripService.cancel_trip now trip_id d c = (Return None, c).
Proof.
  intros now trip_id d c row Hkey Hin Hid Hdrv.
  assert (Hno : opt_eqb (Trip.driver_id row) d = false).
  { destruct (Trip.driver_id row) as [x|] eqn:Hx; [|reflexivity].
    simpl. destruct (Z.eqb_spec x d); [congruence|reflexivity]. }
  repeat split; apply transition_no_match;
    apply (keyed_guard_matches_nothing _ row); auto.
  - intros r Hg. apply andb_true_iff in Hg. destruct Hg as [Hg _].
    apply andb_true_iff in Hg. destruct Hg as [Hg _].
    apply Z.eqb_eq in Hg. congruence.
  - rewrite Hno, andb_false_r. reflexivity.
  - intros r Hg. apply andb_true_iff in Hg. destruct Hg as [Hg _].
    apply andb_true_iff in Hg. destruct Hg as [Hg _].
    apply Z.eqb_eq in Hg. congruence.
  - rewrite Hno, andb_false_r. reflexivity.
  - intros r Hg. apply andb_true_iff in Hg. destruct Hg as [Hg _].
    apply andb_true_iff in Hg. destruct Hg as [Hg _].
    apply Z.eqb_eq in Hg. congruence.
  - rewrite Hno, andb_false_r. reflexivity.
Qed.

(** Instance of [other_driver_is_refused]: driver 6 on the trip that
    driver 5 has accepted. *)
Lemma other_driver_is_refused_witness :
  let c := Scenario.connect Scenario.busy_driver in
  TripService.start_trip 10 1 6 c = (Return None, c)
  /\ TripService.complete_trip 10 1 6 c = (Return None, c)
  /\ TripService.cancel_trip 10 1 6 c = (Return None, c).
Proof.
  apply (other_driver_is_refused 10 1 6
           (Scenario.connect Scenario.busy_driver)
           (Scenario.trip 1 1 (Some 5) "accepted")).
  - unfold trips_keyed. simpl.
    repeat constructor; simpl; intuition discriminate.
  - simpl. left. reflexivity.
  - reflexivity.
  - discriminate.
Defined.

(** ** From request to completion *)

(** A transition whose guard the looked-up trip passes returns a record,
    commits, and leaves the trip in its new version. *)
Lemma transition_succeeds guard set c trip_id row :
  (forall t, Trip.id (set t) = Trip.id t) ->
  (forall t, Trip.deleted_at (set t) = Trip.deleted_at t) ->
  trip_of (working c) trip_id = Some row ->
  guard row = true ->
  exists r c',
    TripService.transition guard set c = (Return (Some r), c')
    /\ committed c' = working c'
    /\ trip_of (working c') trip_id = Some (set row).
Proof.
  intros Hid Hdel Hrow Hg.
  pose proof (transition_trip_of guard set c trip_id Hid Hdel) as Hafter.
  rewrite Hrow in Hafter. cbn [option_map] in Hafter. rewrite Hg in Hafter.
  rewrite transition_run in *.
  destruct (filter_has_head guard _ row (trip_of_In _ _ _ Hrow) Hg)
    as (y & ys & Hf).
  unfold returning, fetchone in *. rewrite Hf in *. cbn [map hd_error] in *.
  eexists; eexists. split; [reflexivity|]. split; [reflexivity|].
  exact Hafter.
Qed.

Lemma accept_succeeds now trip_id d c row :
  trip_of (working c) trip_id = Some row ->
  Trip.trip_status row = "pending"%string ->
  Trip.driver_id row = None ->
  exists r c',
    TripService.accept_trip now trip_id d c = (Return (Some r), c')
    /\ committed c' = working c'
    /\ trip_of (working c') trip_id
       = Some (Trip.set_updated_at now
                 (Trip.set_trip_status "accepted"
                    (Trip.set_driver_id (Some d) row)))
    /\ Trip.id r = trip_id
    /\ Trip.driver_id r = Some d.
Proof.
  intros Hrow Hst Hdrv.
  assert (Hav : TripService.not_available row = false).
  { unfold TripService.not_available. rewrite Hst, Hdrv. reflexivity. }
  pose proof (accept_trip_of now trip_id d c trip_id row Hrow) as Hafter.
  rewrite Z.eqb_refl, Hav in Hafter. cbn [andb negb] in Hafter.
  rewrite accept_trip_run in *. cbv zeta in *.
  rewrite Hrow, Hav in *. cbn [snd working] in Hafter.
  destruct (filter_has_head (fun t => Trip.id t =? trip_id) _ row
              (trip_of_In _ _ _ Hrow)) as (y & ys & Hf).
  { apply Z.eqb_eq. apply (trip_of_id _ _ _ Hrow). }
  unfold returning, fetchone. rewrite Hf. cbn [map hd_error].
  eexists; eexists. split; [reflexivity|]. split; [reflexivity|].
  split; [exact Hafter|]. split; [|reflexivity].
  assert (Hy : In y (filter (fun t => Trip.id t =? trip_id)
                       (trips (working c)))) by (rewrite Hf; left; auto).
  apply filter_In in Hy. destruct Hy as [_ Hy]. apply Z.eqb_eq in Hy.
  exact Hy.
Qed.

Lemma start_succeeds now trip_id d c row :
  trip_of (working c) trip_id = Some row ->
  Trip.driver_id row = Some d ->
  Trip.trip_status row = "accepted"%string ->
  exists r c',
    TripService.start_trip now trip_id d c = (Return (Some r), c')
    /\ committed c' = working c'
    /\ trip_of (working c') trip_id
       = Some (Trip.set_updated_at now
                 (Trip.set_start_time (Some now)
                    (Trip.set_trip_status "in_progress" row))).
Proof.
  intros Hrow Hdrv Hst. unfold TripService.start_trip.
  apply (transition_succeeds _
           (fun t => Trip.set_updated_at now
                       (Trip.set_start_time (Some now)
                          (Trip.set_trip_status "in_progress" t)))
           c trip_id row); auto.
  rewrite (trip_of_id _ _ _ Hrow), Hdrv, Hst. cbn.
  rewrite !Z.eqb_refl. reflexivity.
Qed.

Lemma complete_succeeds now trip_id d c row :
  trip_of (working c) trip_id = Some row ->
  Trip.driver_id row = Some d ->
  Trip.trip_status row = "in_progress"%string ->
  exists r c',
    TripService.complete_trip now trip_id d c = (Return (Some r), c')
    /\ committed c' = working c'
    /\ trip_of (working c') trip_id
       = Some (Trip.set_updated_at now
                 (Trip.set_end_time (Some now)
                    (Trip.set_trip_status "completed" row))).
Proof.
  intros Hrow Hdrv Hst. unfold TripService.complete_trip.
  apply (transition_succeeds _
           (fun t => Trip.set_updated_at now
                       (Trip.set_end_time (Some now)
                          (Trip.set_trip_status "completed" t)))
           c trip_id row); auto.
  rewrite (trip_of_id _ _ _ Hrow), Hdrv, Hst. cbn.
  rewrite !Z.eqb_refl. reflexivity.
Qed.

(** X4: a pending trip without driver goes through when one driver
    accepts, starts and completes it: each of the three calls returns a
    record, the result is committed, and the trip then reads completed,
    with that driver, with the times of the start and of the completion,
    and with the passenger and payment reference it had. *)
Theorem accept_start_complete :
  forall (now1 now2 now3 trip_id d : Z) (c : Conn) (row : Trip.row),
    trip_of (working c) trip_id = Some row ->
    Trip.trip_status row = "pending"%string ->
    Trip.driver_id row = None ->
    exists r1 c1 r2 c2 r3 c3 final,
      TripService.accept_trip now1 trip_id d c = (Return (Some r1), c1)
      /\ TripService.start_trip now2 trip_id d c1 = (Return (Some r2), c2)
      /\ TripService.complete_trip now3 trip_id d c2 = (Return (Some r3), c3)
      /\ committed c3 = working c3
      /\ trip_of (committed c3) trip_id = Some final
      /\ Trip.trip_status final = "completed"%string
      /\ Trip.driver_id final = Some d
      /\ Trip.start_time final = Some now2
      /\ Trip.end_time final = Some now3
      /\ Trip.passenger_id final = Trip.passenger_id row
      /\ Trip.payment_id final = Trip.payment_id row.
Proof.
  intros now1 now2 now3 trip_id d c row Hrow Hst Hdrv.
  destruct (accept_succeeds now1 trip_id d c row Hrow Hst Hdrv)
    as (r1 & c1 & H1 & _ & Hrow1 & _).
  destruct (start_succeeds now2 trip_id d c1 _ Hrow1 eq_refl eq_refl)
    as (r2 & c2 & H2 & _ & Hrow2).
  destruct (complete_succeeds now3 trip_id d c2 _ Hrow2 eq_refl eq_refl)
    as (r3 & c3 & H3 & Hcm & Hrow3).
  exists r1, c1, r2, c2, r3, c3. eexists.
  split; [exact H1|]. split; [exact H2|]. split; [exact H3|].
  split; [exact Hcm|]. rewrite Hcm. split; [exact Hrow3|].
  repeat split.
Qed.

(** Instance of [accept_start_complete]: driver 5 and the open trip 1. *)
Lemma accept_start_complete_witness :
  exists r1 c1 r2 c2 r3 c3 final,
    TripService.accept_trip 10 1 5
      (Scenario.connect Scenario.waiting_for_driver) = (Return (Some r1), c1)
    /\ TripService.start_trip 20 1 5 c1 = (Return (Some r2), c2)
    /\ TripService.complete_trip 30 1 5 c2 = (Return (Some r3), c3)
    /\ committed c3 = working c3
    /\ trip_of (committed c3) 1 = Some final
    /\ Trip.trip_status final = "completed"%string
    /\ Trip.driver_id final = Some 5
    /\ Trip.start_time final = Some 20
    /\ Trip.end_time final = Some 30
    /\ Trip.passenger_id final = 1
    /\ Trip.payment_id final = None.
Proof.
  apply (accept_start_complete 10 20 30 1 5
           (Scenario.connect Scenario.waiting_for_driver)
           (Scenario.trip 1 1 None "pending")); reflexivity.
Defined.

(** ** Repeating a call *)

Lemma transition_not_twice guard set set' c r c1 :
  (forall t, guard (set t) = false) ->
  TripService.transition guard set c = (Return (Some r), c1) ->
  TripService.transition guard set' c1 = (Return None, c1).
Proof.
  intros Hgs H. rewrite transition_run in H.
  destruct (fetchone _); inversion H; subst. clear H.
  apply transition_no_match. cbn [working set_trips trips].
  unfold update_where.
  induction (trips (working c)) as [|x l IH]; [reflexivity|].
  cbn [map filter]. destruct (guard x) eqn:Hx.
  - rewrite Hgs. exact IH.
  - rewrite Hx. exact IH.
Qed.

(** X5: a start, a completion or a cancellation that went through cannot
    be repeated: the same call made again returns nothing and leaves the
    connection as the first call left it. *)
Theorem transition_is_not_repeatable :
  forall (now now' trip_id d : Z) (c c1 : Conn) (r : Trip.row),
    (TripService.start_trip now trip_id d c = (Return (Some r), c1) ->
     TripService.start_trip now' trip_id d c1 = (Return None, c1))
    /\ (TripService.complete_trip now trip_id d c = (Return (Some r), c1) ->
        TripService.complete_trip now' trip_id d c1 = (Return None, c1))
    /\ (TripService.cancel_trip now trip_id d c = (Return (Some r), c1) ->
        TripService.cancel_trip now' trip_id d c1 = (Return None, c1)).
Proof.
  intros now now' trip_id d c c1 r.
  unfold TripService.start_trip, TripService.complete_trip,
    TripService.cancel_trip.
  repeat split; intros H;
    (eapply transition_not_twice; [|exact H]);
    intros t; cbn; apply andb_false_r.
Qed.

(** Instance of [transition_is_not_repeatable]: driver 5 starts the
    accepted trip 1 and tries again. *)
Lemma transition_is_not_repeatable_witness :
  let c := Scenario.connect Scenario.busy_driver in
  let c1 := snd (TripService.start_trip 10 1 5 c) in
  TripService.start_trip 11 1 5 c1 = (Return None, c1).
Proof.
  intros c c1.
  destruct (TripService.start_trip 10 1 5 c) as [[[r|]|e] c'] eqn:H;
    try (vm_compute in H; discriminate).
  apply (proj1 (transition_is_not_repeatable 10 11 1 5 c c' r)).
  exact H.
Defined.

(** ** Creating a trip *)

Lemma filter_nothing {R} (p : R -> bool) (l : list R) :
  (forall r, In r l -> p r = false) -> filter p l = [].
Proof.
  induction l as [|x l IH]; intros H; [reflexivity|].
  cbn [filter]. rewrite (H x (or_introl eq_refl)).
  apply IH. intros r Hr. apply H. right. exact Hr.
Qed.

(** X6: [create_trip] for a passenger who has a user row (soft-deleted or
    not), on a table in which the next id of the sequence is not taken,
    returns a committed trip that is pending, has the driver the request
    named, no payment and no times; the record it returns has no
    locations, and [get_trip_by_id] reads the trip back with the same
    columns and the locations of the request; the trips that could be read
    before read the same.  Without a user row it raises 404 and leaves the
    connection as it was. *)
Theorem create_trip_then_get :
  forall (now : Z) (trip_data : TripCreate.t) (c : Conn),
    (forall r, In r (trips (working c)) ->
       Trip.id r <> trips_id_seq (working c)) ->
    ((exists u,
        In u (users (working c))
        /\ User.id u = TripCreate.passenger_id trip_data) ->
     exists row c',
       TripService.create_trip now trip_data c = (Return row, c')
       /\ committed c' = working c'
       /\ Trip.trip_status row = "pending"%string
       /\ Trip.passenger_id row = TripCreate.passenger_id trip_data
       /\ Trip.driver_id row = TripCreate.driver_id trip_data
       /\ Trip.payment_id row = None
       /\ Trip.start_time row = None
       /\ Trip.end_time row = None
       /\ Trip.start_location row = None
       /\ Trip.end_location row = None
       /\ (exists stored,
             TripService.get_trip_by_id (Trip.id row) c'
             = (Return (Some stored), c')
             /\ TripService.created_record stored = row
             /\ Trip.start_location stored
                = TripCreate.start_location trip_data
             /\ Trip.end_location stored = TripCreate.end_location trip_data)
       /\ (forall other_id other,
             trip_of (working c) other_id = Some other ->
             trip_of (working c') other_id = Some other))
    /\ ((forall u, In u (users (working c)) ->
           User.id u <> TripCreate.passenger_id trip_data) ->
        TripService.create_trip now trip_data c
        = (Raise (HTTPException 404 "Passenger not found"), c)).
Proof.
  intros now trip_data c Hfresh. split.
  - intros (u & Hu & Hid).
    destruct (filter_has_head
                (fun v => User.id v =? TripCreate.passenger_id trip_data)
                _ u Hu) as (y & ys & Hf); [apply Z.eqb_eq; exact Hid|].
    unfold TripService.create_trip, TripService.insert_trip,
      TripService.get_trip_by_id.
    run_conn. unfold fetchone at 1. rewrite Hf. cbn.
    eexists; eexists. split; [reflexivity|]. cbn.
    repeat split.
    + eexists. split; [|split; [reflexivity|split; reflexivity]].
      rewrite filter_app.
      rewrite (filter_nothing (TripService.by_id (trips_id_seq (working c)))).
      * cbn. unfold TripService.by_id. cbn. rewrite Z.eqb_refl. reflexivity.
      * intros r Hr. unfold TripService.by_id.
        destruct (Z.eqb_spec (Trip.id r) (trips_id_seq (working c)));
          [exfalso; eapply Hfresh; eauto|reflexivity].
    + intros other_id other Hother. unfold trip_of in *. cbn.
      apply fetchone_filter_app. exact Hother.
  - intros Hnone.
    unfold TripService.create_trip. run_conn.
    rewrite filter_nothing; [reflexivity|].
    intros r Hr. apply Z.eqb_neq. apply Hnone. exact Hr.
Qed.

(** Instance of [create_trip_then_get]: passenger 2 asks for a second
    trip, from (0, 0) to (0, 1), while driver 5 is busy with the first. *)
Lemma create_trip_then_get_witness :
  let c := Scenario.connect Scenario.busy_driver in
  let trip_data :=
    {| TripCreate.passenger_id := 2; TripCreate.driver_id := None;
       TripCreate.route_id := None;
       TripCreate.trip_type := Some "urban"%string;
       TripCreate.discount_code_id := None;
       TripCreate.start_location := Some {| lat := 0; lng := 0 |};
       TripCreate.end_location := Some {| lat := 0; lng := 1 |} |} in
  exists row c',
    TripService.create_trip 10 trip_data c = (Return row, c')
    /\ committed c' = working c'
    /\ Trip.trip_status row = "pending"%string
    /\ Trip.passenger_id row = 2
    /\ Trip.driver_id row = None
    /\ Trip.payment_id row = None
    /\ Trip.start_time row = None
    /\ Trip.end_time row = None
    /\ Trip.start_location row = None
    /\ Trip.end_location row = None
    /\ (exists stored,
          TripService.get_trip_by_id (Trip.id row) c'
          = (Return (Some stored), c')
          /\ TripService.created_record stored = row
          /\ Trip.start_location stored = Some {| lat := 0; lng := 0 |}
          /\ Trip.end_location stored = Some {| lat := 0; lng := 1 |})
    /\ (forall other_id other,
          trip_of (working c) other_id = Some other ->
          trip_of (working c') other_id = Some other).
Proof.
  intros c trip_data.
  apply (proj1 (create_trip_then_get 10 trip_data c
                  ltac:(simpl; intros r [<-|[<-|[]]]; discriminate))).
  exists (Scenario.user 2 0). split; [simpl; auto|reflexivity].
Defined.

(** ** Ordering and paging *)

Section SortFacts.
Context {R : Type} (leb : R -> R -> bool).
Hypothesis leb_total : forall a b, leb a b = true \/ leb b a = true.
Hypothesis leb_trans :
  forall a b c, leb a b = true -> leb b c = true -> leb a c = true.

Lemma insert_by_perm x (l : list R) : Permutation (insert_by leb x l) (x :: l).
Proof.
  induction l as [|y l IH]; cbn [insert_by]; [reflexivity|].
  destruct (leb x y); [reflexivity|].
  rewrite IH. apply perm_swap.
Qed.

Lemma order_by_perm (l : list R) : Permutation (order_by leb l) l.
Proof.
  unfold order_by. induction l as [|x l IH]; cbn [fold_right]; [reflexivity|].
  rewrite insert_by_perm. constructor. exact IH.
Qed.

Lemma insert_by_sorted x (l : list R) :
  StronglySorted (fun a b => leb a b = true) l ->
  StronglySorted (fun a b => leb a b = true) (insert_by leb x l).
Proof.
  induction 1 as [|y l Hs IH Hall]; cbn [insert_by].
  - repeat constructor.
  - destruct (leb x y) eqn:Hxy.
    + constructor; [constructor; assumption|].
      constructor; [exact Hxy|].
      eapply Forall_impl; [|exact Hall].
      intros z Hz. eapply leb_trans; eauto.
    + constructor; [exact IH|].
      assert (Hyx : leb y x = true)
        by (destruct (leb_total x y); congruence).
      eapply Permutation_Forall.
      * symmetry. apply insert_by_perm.
      * constructor; assumption.
Qed.

Lemma order_by_sorted (l : list R) :
  StronglySorted (fun a b => leb a b = true) (order_by leb l).
Proof.
  unfold order_by. induction l as [|x l IH]; cbn [fold_right].
  - constructor.
  - apply insert_by_sorted. exact IH.
Qed.

End SortFacts.

Section PageFacts.
Context {R : Type}.

Lemma firstn_member n (l : list R) x : In x (firstn n l) -> In x l.
Proof.
  revert l. induction n as [|n IH]; intros [|y l]; cbn [firstn]; auto.
  - intros [].
  - intros [->|H]; [left; reflexivity|right; apply IH; exact H].
Qed.

Lemma skipn_member n (l : list R) x : In x (skipn n l) -> In x l.
Proof.
  revert l. induction n as [|n IH]; intros [|y l]; cbn [skipn]; auto.
  intros H. right. apply IH. exact H.
Qed.

Lemma limit_offset_incl limit skip (l : list R) x :
  In x (limit_offset limit skip l) -> In x l.
Proof.
  unfold limit_offset. intros H.
  apply firstn_member in H. apply skipn_member in H. exact H.
Qed.

Lemma limit_offset_length limit skip (l : list R) :
  0 <= limit -> Z.of_nat (length (limit_offset limit skip l)) <= limit.
Proof.
  intros Hl. unfold limit_offset.
  pose proof (firstn_le_length (Z.to_nat limit) (skipn (Z.to_nat skip) l)).
  rewrite length_firstn.
  pose proof (Nat.le_min_l (Z.to_nat limit)
                (length (skipn (Z.to_nat skip) l))) as Hmin.
  apply Nat2Z.inj_le in Hmin. rewrite Z2Nat.id in Hmin by exact Hl.
  exact Hmin.
Qed.

Lemma skipn_sorted (rel : R -> R -> Prop) n (l : list R) :
  StronglySorted rel l -> StronglySorted rel (skipn n l).
Proof.
  revert l. induction n as [|n IH]; intros l Hs; [exact Hs|].
  destruct l as [|x l]; [constructor|].
  cbn [skipn]. apply IH. inversion Hs; assumption.
Qed.

Lemma firstn_sorted (rel : R -> R -> Prop) n (l : list R) :
  StronglySorted rel l -> StronglySorted rel (firstn n l).
Proof.
  revert l. induction n as [|n IH]; intros l Hs; [constructor|].
  destruct l as [|x l]; [constructor|].
  cbn [firstn]. inversion Hs as [|? ? Hs' Hall]; subst.
  constructor; [apply IH; exact Hs'|].
  apply Forall_forall. intros y Hy.
  apply firstn_member in Hy. revert y Hy. apply Forall_forall. exact Hall.
Qed.

Lemma limit_offset_sorted (rel : R -> R -> Prop) limit skip (l : list R) :
  StronglySorted rel l -> StronglySorted rel (limit_offset limit skip l).
Proof.
  intros Hs. unfold limit_offset. apply firstn_sorted, skipn_sorted, Hs.
Qed.

Lemma limit_offset_all limit (l : list R) :
  Z.of_nat (length l) <= limit -> limit_offset limit 0 l = l.
Proof.
  intros H. unfold limit_offset. cbn [Z.to_nat skipn].
  apply firstn_all2. apply Nat2Z.inj_le.
  rewrite Z2Nat.id; [exact H|].
  pose proof (Zle_0_nat (length l)). eapply Z.le_trans; eauto.
Qed.

End PageFacts.

Lemma newest_first_total a b :
  TripService.newest_first a b = true \/ TripService.newest_first b a = true.
Proof.
  unfold TripService.newest_first.
  destruct (Z.leb_spec (Trip.created_at b) (Trip.created_at a)); [auto|].
  right. apply Z.leb_le. apply Z.lt_le_incl. assumption.
Qed.

Lemma newest_first_trans a b c :
  TripService.newest_first a b = true ->
  TripService.newest_first b c = true ->
  TripService.newest_first a c = true.
Proof.
  unfold TripService.newest_first. rewrite !Z.leb_le.
  intros H1 H2. eapply Z.le_trans; eauto.
Qed.

Lemma oldest_first_total a b :
  TripService.oldest_first a b = true \/ TripService.oldest_first b a = true.
Proof.
  unfold TripService.oldest_first.
  destruct (Z.leb_spec (Trip.created_at a) (Trip.created_at b)); [auto|].
  right. apply Z.leb_le. apply Z.lt_le_incl. assumption.
Qed.

Lemma oldest_first_trans a b c :
  TripService.oldest_first a b = true ->
  TripService.oldest_first b c = true ->
  TripService.oldest_first a c = true.
Proof.
  unfold TripService.oldest_first. rewrite !Z.leb_le.
  intros H1 H2. eapply Z.le_trans; eauto.
Qed.

Lemma sorted_weaken {R} (rel rel' : R -> R -> Prop) (l : list R) :
  (forall a b, rel a b -> rel' a b) ->
  StronglySorted rel l -> StronglySorted rel' l.
Proof.
  intros Himp. induction 1 as [|x l Hs IH Hall]; constructor; auto.
  eapply Forall_impl; [|exact Hall]. intros; auto.
Qed.

(** What a page of a sorted selection holds. *)
Lemma page_facts {R} (leb : R -> R -> bool) (p : R -> bool) limit skip
  (l : list R) :
  (forall a b, leb a b = true \/ leb b a = true) ->
  (forall a b c, leb a b = true -> leb b c = true -> leb a c = true) ->
  0 <= limit ->
  let page := limit_offset limit skip (order_by leb (filter p l)) in
  (forall x, In x page -> In x l /\ p x = true)
  /\ Z.of_nat (length page) <= limit
  /\ StronglySorted (fun a b => leb a b = true) page
  /\ (skip = 0 -> Z.of_nat (length (filter p l)) <= limit ->
      Permutation page (filter p l)).
Proof.
  intros Htot Htrans Hlimit page. subst page.
  split; [|split; [|split]].
  - intros x Hx. apply limit_offset_incl in Hx.
    apply (Permutation_in _ (order_by_perm leb (filter p l))) in Hx.
    apply filter_In in Hx. exact Hx.
  - apply limit_offset_length. exact Hlimit.
  - apply limit_offset_sorted. apply order_by_sorted; assumption.
  - intros -> Hlen. rewrite limit_offset_all.
    + apply order_by_perm.
    + rewrite (Permutation_length (order_by_perm leb (filter p l))).
      exact Hlen.
Qed.

(** ** Listings *)

(** X7: [get_available_trips] changes nothing and returns only stored
    trips that are pending, without driver and not soft-deleted, at most
    [limit] of them, oldest first; with no offset and a limit that covers
    them it returns every such trip. *)
Theorem available_trips_listing :
  forall (skip limit : Z) (c : Conn),
    0 <= skip -> 0 <= limit ->
    exists page,
      TripService.get_available_trips skip limit c = (Return page, c)
      /\ (forall t, In t page ->
            In t (trips (working c))
            /\ Trip.trip_status t = "pending"%string
            /\ Trip.driver_id t = None
            /\ Trip.deleted_at t = None)
      /\ Z.of_nat (length page) <= limit
      /\ StronglySorted
           (fun a b => Trip.created_at a <= Trip.created_at b) page
      /\ (skip = 0 ->
          Z.of_nat (length (filter TripService.available (trips (working c))))
            <= limit ->
          Permutation page
            (filter TripService.available (trips (working c)))).
Proof.
  intros skip limit c _ Hlimit.
  unfold TripService.get_available_trips, query.
  eexists. split; [reflexivity|].
  destruct (page_facts TripService.oldest_first TripService.available
              limit skip (trips (working c))
              oldest_first_total oldest_first_trans Hlimit)
    as (Hin & Hlen & Hsorted & Hall).
  split; [|split; [exact Hlen|split; [|exact Hall]]].
  - intros t Ht. apply Hin in Ht. destruct Ht as [Ht Hav].
    unfold TripService.available in Hav.
    apply andb_true_iff in Hav. destruct Hav as [Hav Hdel].
    apply andb_true_iff in Hav. destruct Hav as [Hst Hdrv].
    apply String.eqb_eq in Hst.
    destruct (Trip.driver_id t); [discriminate|].
    destruct (Trip.deleted_at t); [discriminate|]. auto.
  - eapply sorted_weaken; [|exact Hsorted].
    intros a b H. apply Z.leb_le. exact H.
Qed.

(** Instance of [available_trips_listing]: the first ten open trips while
    driver 5 is busy. *)
Lemma available_trips_listing_witness :
  exists page,
    TripService.get_available_trips 0 10
      (Scenario.connect Scenario.busy_driver)
    = (Return page, Scenario.connect Scenario.busy_driver)
    /\ (forall t, In t page ->
          In t (trips Scenario.busy_driver)
          /\ Trip.trip_status t = "pending"%string
          /\ Trip.driver_id t = None
          /\ Trip.deleted_at t = None)
    /\ Z.of_nat (length page) <= 10
    /\ StronglySorted (fun a b => Trip.created_at a <= Trip.created_at b) page
    /\ (0 = 0 ->
        Z.of_nat
          (length (filter TripService.available (trips Scenario.busy_driver)))
          <= 10 ->
        Permutation page
          (filter TripService.available (trips Scenario.busy_driver))).
Proof.
  apply (available_trips_listing 0 10 (Scenario.connect Scenario.busy_driver)).
  - discriminate.
  - discriminate.
Defined.

Lemma update_where_member {R} (p : R -> bool) (f : R -> R) (l : list R) x :
  In x (update_where p f l) <->
  exists r, In r l /\ x = (if p r then f r else r).
Proof.
  unfold update_where. rewrite in_map_iff.
  split; intros (r & H1 & H2); exists r; auto.
Qed.

(** X8: once [accept_trip] has returned a trip, no page of
    [get_available_trips] lists a trip with that id, and every stored trip
    with another id is open afterwards exactly if it was open before. *)
Theorem accepted_trip_leaves_the_listing :
  forall (now trip_id d : Z) (c c' : Conn) (r : Trip.row),
    TripService.accept_trip now trip_id d c = (Return (Some r), c') ->
    (forall skip limit page c'',
        TripService.get_available_trips skip limit c' = (Return page, c'') ->
        forall t, In t page -> Trip.id t <> trip_id)
    /\ (forall t,
          Trip.id t <> trip_id ->
          (In t (filter TripService.available (trips (working c')))
           <-> In t (filter TripService.available (trips (working c))))).
Proof.
  intros now trip_id d c c' r H.
  rewrite accept_trip_run in H. cbv zeta in H.
  destruct (trip_of (working c) trip_id) as [row|]; [|discriminate].
  destruct (TripService.not_available row); [discriminate|].
  inversion H; subst c'. clear H.
  cbn [working set_trips trips].
  assert (Hgone : forall t,
    In t (filter TripService.available
            (update_where (fun t => Trip.id t =? trip_id)
               (fun t => Trip.set_updated_at now
                           (Trip.set_trip_status "accepted"
                              (Trip.set_driver_id (Some d) t)))
               (trips (working c)))) ->
    Trip.id t <> trip_id).
  { intros t Ht. apply filter_In in Ht. destruct Ht as [Ht Hav].
    apply update_where_member in Ht. destruct Ht as (x & Hx & ->).
    destruct (Z.eqb_spec (Trip.id x) trip_id); [discriminate|assumption]. }
  split.
  - intros skip limit page c'' Hpage t Ht.
    unfold TripService.get_available_trips, query in Hpage.
    injection Hpage as Hp Hc. subst page c''.
    cbn [working set_trips trips] in Ht.
    apply limit_offset_incl in Ht.
    apply (Permutation_in _ (order_by_perm _ _)) in Ht.
    apply Hgone. exact Ht.
  - intros t Hne. rewrite !filter_In, update_where_member. split.
    + intros [(x & Hx & ->) Hav].
      destruct (Z.eqb_spec (Trip.id x) trip_id); [discriminate|]. auto.
    + intros [Ht Hav]. split; [|exact Hav].
      exists t. split; [exact Ht|].
      destruct (Z.eqb_spec (Trip.id t) trip_id); [contradiction|reflexivity].
Qed.

(** Instance of [accepted_trip_leaves_the_listing]: of two open trips
    driver 5 takes the first; the second is still open. *)
Lemma accepted_trip_leaves_the_listing_witness :
  let c :=
    Scenario.connect
      (Scenario.store [Scenario.user 1 0; Scenario.user 2 0]
         [Scenario.driver 5 "approved"]
         [Scenario.trip 1 1 None "pending"; Scenario.trip 2 2 None "pending"])
  in
  let c' := snd (TripService.accept_trip 10 1 5 c) in
  In (Scenario.trip 2 2 None "pending")
    (filter TripService.available (trips (working c'))).
Proof.
  intros c. cbv zeta.
  destruct (TripService.accept_trip 10 1 5 c) as [[[r|]|e] c1] eqn:H;
    try (vm_compute in H; discriminate).
  cbn [snd].
  apply (proj2 (accepted_trip_leaves_the_listing 10 1 5 c c1 r H)
           (Scenario.trip 2 2 None "pending")).
  - discriminate.
  - simpl. right. left. reflexivity.
Defined.

Lemma keyed_trip_of db t :
  trips_keyed db ->
  In t (trips db) ->
  Trip.deleted_at t = None ->
  trip_of db (Trip.id t) = Some t.
Proof.
  intros Hkey Hin Hdel. unfold trip_of.
  assert (Hby : TripService.by_id (Trip.id t) t = true).
  { unfold TripService.by_id. rewrite Z.eqb_refl, Hdel. reflexivity. }
  destruct (filter_has_head _ _ t Hin Hby) as (y & ys & Hf).
  rewrite Hf. cbn. f_equal.
  assert (Hy : In y (filter (TripService.by_id (Trip.id t)) (trips db)))
    by (rewrite Hf; left; auto).
  apply filter_In in Hy. destruct Hy as [Hyin Hyid].
  apply by_id_id in Hyid.
  apply (keyed_same_row _ _ _ Hkey Hyin Hin Hyid).
Qed.

(** X9: on a table keyed by id, every trip that [get_available_trips]
    lists can be accepted: [accept_trip] on its id, by whichever driver,
    returns that trip as accepted with that driver. *)
Theorem listed_trip_can_be_accepted :
  forall (now d skip limit : Z) (c c0 : Conn) (page : list Trip.row)
         (t : Trip.row),
    trips_keyed (working c) ->
    TripService.get_available_trips skip limit c = (Return page, c0) ->
    In t page ->
    exists r c',
      TripService.accept_trip now (Trip.id t) d c = (Return (Some r), c')
      /\ Trip.id r = Trip.id t
      /\ Trip.driver_id r = Some d
      /\ Trip.trip_status r = "accepted"%string.
Proof.
  intros now d skip limit c c0 page t Hkey Hpage Ht.
  unfold TripService.get_available_trips, query in Hpage.
  injection Hpage as Hp Hc. subst page c0.
  apply limit_offset_incl in Ht.
  apply (Permutation_in _ (order_by_perm _ _)) in Ht.
  apply filter_In in Ht. destruct Ht as [Hin Hav].
  unfold TripService.available in Hav.
  apply andb_true_iff in Hav. destruct Hav as [Hav Hdel].
  apply andb_true_iff in Hav. destruct Hav as [Hst Hdrv].
  apply String.eqb_eq in Hst.
  assert (Hd : Trip.driver_id t = None)
    by (destruct (Trip.driver_id t); [discriminate|reflexivity]).
  assert (Hdl : Trip.deleted_at t = None)
    by (destruct (Trip.deleted_at t); [discriminate|reflexivity]).
  destruct (accept_succeeds now (Trip.id t) d c t
              (keyed_trip_of _ _ Hkey Hin Hdl) Hst Hd)
    as (r & c' & Hacc & _ & _ & Hid & Hdr).
  exists r, c'. split; [exact Hacc|]. split; [exact Hid|].
  split; [exact Hdr|]. eapply accept_trip_status. exact Hacc.
Qed.

(** Instance of [listed_trip_can_be_accepted]: trip 2, the one open trip
    while driver 5 is busy, accepted by driver 6. *)
Lemma listed_trip_can_be_accepted_witness :
  exists r c',
    TripService.accept_trip 10 2 6 (Scenario.connect Scenario.busy_driver)
    = (Return (Some r), c')
    /\ Trip.id r = 2
    /\ Trip.driver_id r = Some 6
    /\ Trip.trip_status r = "accepted"%string.
Proof.
  apply (listed_trip_can_be_accepted 10 6 0 10
           (Scenario.connect Scenario.busy_driver)
           (Scenario.connect Scenario.busy_driver)
           [Scenario.trip 2 2 None "pending"]
           (Scenario.trip 2 2 None "pending")).
  - unfold trips_keyed. simpl.
    repeat constructor; simpl; intuition discriminate.
  - reflexivity.
  - left. reflexivity.
Defined.

(** X10: [get_driver_trips] changes nothing and returns only stored trips
    of that driver that are not soft-deleted and, when a non-empty status
    is given, have that status; at most [limit] of them, newest first; with
    no offset and a limit that covers them it returns all of them. *)
Theorem driver_trips_listing :
  forall (driver_id : Z) (status : option string) (skip limit : Z) (c : Conn),
    0 <= skip -> 0 <= limit ->
    exists page,
      TripService.get_driver_trips driver_id status skip limit c
      = (Return page, c)
      /\ (forall t, In t page ->
            In t (trips (working c))
            /\ Trip.driver_id t = Some driver_id
            /\ Trip.deleted_at t = None
            /\ (forall s, status = Some s -> s <> EmptyString ->
                  Trip.trip_status t = s))
      /\ Z.of_nat (length page) <= limit
      /\ StronglySorted
           (fun a b => Trip.created_at b <= Trip.created_at a) page
      /\ (skip = 0 ->
          Z.of_nat
            (length (filter (TripService.driver_trips_where driver_id status)
                       (trips (working c)))) <= limit ->
          Permutation page
            (filter (TripService.driver_trips_where driver_id status)
               (trips (working c)))).
Proof.
  intros driver_id status skip limit c _ Hlimit.
  unfold TripService.get_driver_trips, query.
  eexists. split; [reflexivity|].
  destruct (page_facts TripService.newest_first
              (TripService.driver_trips_where driver_id status)
              limit skip (trips (working c))
              newest_first_total newest_first_trans Hlimit)
    as (Hin & Hlen & Hsorted & Hall).
  split; [|split; [exact Hlen|split; [|exact Hall]]].
  - intros t Ht. apply Hin in Ht. destruct Ht as [Ht Hw].
    unfold TripService.driver_trips_where in Hw.
    apply andb_true_iff in Hw. destruct Hw as [Hw Hst].
    apply andb_true_iff in Hw. destruct Hw as [Hdrv Hdel].
    split; [exact Ht|]. split; [|split].
    + destruct (Trip.driver_id t) as [x|]; [|discriminate].
      simpl in Hdrv. apply Z.eqb_eq in Hdrv. congruence.
    + destruct (Trip.deleted_at t); [discriminate|reflexivity].
    + intros s -> Hs. destruct s as [|a rest]; [contradiction|].
      apply String.eqb_eq. exact Hst.
  - eapply sorted_weaken; [|exact Hsorted].
    intros a b H. apply Z.leb_le. exact H.
Qed.

(** Instance of [driver_trips_listing]: the accepted trips of driver 5. *)
Lemma driver_trips_listing_witness :
  exists page,
    TripService.get_driver_trips 5 (Some "accepted"%string) 0 10
      (Scenario.connect Scenario.busy_driver)
    = (Return page, Scenario.connect Scenario.busy_driver)
    /\ (forall t, In t page ->
          In t (trips Scenario.busy_driver)
          /\ Trip.driver_id t = Some 5
          /\ Trip.deleted_at t = None
          /\ (forall s, Some "accepted"%string = Some s -> s <> EmptyString ->
                Trip.trip_status t = s))
    /\ Z.of_nat (length page) <= 10
    /\ StronglySorted (fun a b => Trip.created_at b <= Trip.created_at a) page
    /\ (0 = 0 ->
        Z.of_nat
          (length
             (filter
                (TripService.driver_trips_where 5 (Some "accepted"%string))
                (trips Scenario.busy_driver))) <= 10 ->
        Permutation page
          (filter (TripService.driver_trips_where 5 (Some "accepted"%string))
             (trips Scenario.busy_driver))).
Proof.
  apply (driver_trips_listing 5 (Some "accepted"%string) 0 10
           (Scenario.connect Scenario.busy_driver)).
  - discriminate.
  - discriminate.
Defined.

(** X11: a trip that [create_trip] has returned is on the first page of
    its passenger's [get_trips_by_user] listing whenever the limit covers
    the passenger's trips: the page holds a record with the columns of
    the returned one, and with the locations of the request, which the
    returned record lacks; and that page holds only trips of that
    passenger that are not soft-deleted. *)
Theorem created_trip_is_listed :
  forall (now limit : Z) (trip_data : TripCreate.t) (c c' : Conn)
         (row : Trip.row),
    TripService.create_trip now trip_data c = (Return row, c') ->
    Z.of_nat
      (length
         (filter
            (fun t =>
               (Trip.passenger_id t =? TripCreate.passenger_id trip_data)
               && is_none (Trip.deleted_at t))
            (trips (working c')))) <= limit ->
    exists page,
      TripService.get_trips_by_user (TripCreate.passenger_id trip_data)
        false 0 limit c' = (Return page, c')
      /\ (exists listed,
            In listed page
            /\ TripService.created_record listed = row
            /\ Trip.start_location listed
               = TripCreate.start_location trip_data
            /\ Trip.end_location listed = TripCreate.end_location trip_data)
      /\ (forall t, In t page ->
            Trip.passenger_id t = TripCreate.passenger_id trip_data
            /\ Trip.deleted_at t = None).
Proof.
  intros now limit trip_data c c' row Hcreate Hlen.
  unfold TripService.get_trips_by_user, query.
  eexists. split; [reflexivity|].
  assert (Hlimit : 0 <= limit).
  { eapply Z.le_trans; [apply Zle_0_nat|exact Hlen]. }
  match goal with
  | |- context [filter ?p (trips (working c'))] =>
      destruct (page_facts TripService.newest_first p limit 0
                  (trips (working c'))
                  newest_first_total newest_first_trans Hlimit)
        as (Hin & _ & _ & Hall)
  end.
  split.
  - unfold TripService.create_trip, TripService.insert_trip in Hcreate.
    run_conn.
    destruct (fetchone (filter _ (users (working c)))); [|discriminate].
    injection Hcreate as Hrow Hc.
    match type of Hrow with
    | TripService.created_record ?new = _ => exists new
    end.
    split; [|split; [exact Hrow|split; reflexivity]].
    apply (Permutation_in _ (Permutation_sym (Hall eq_refl Hlen))).
    apply filter_In. subst c'. cbn.
    split; [apply in_or_app; right; left; reflexivity|].
    rewrite Z.eqb_refl. reflexivity.
  - intros t Ht. apply Hin in Ht. destruct Ht as [_ Hp].
    apply andb_true_iff in Hp. destruct Hp as [Hp Hdel].
    apply Z.eqb_eq in Hp.
    destruct (Trip.deleted_at t); [discriminate|]. auto.
Qed.

(** Instance of [created_trip_is_listed]: passenger 2 asks for a second
    trip, from (0, 0) to (0, 1). *)
Lemma created_trip_is_listed_witness :
  let trip_data :=
    {| TripCreate.passenger_id := 2; TripCreate.driver_id := None;
       TripCreate.route_id := None;
       TripCreate.trip_type := Some "urban"%string;
       TripCreate.discount_code_id := None;
       TripCreate.start_location := Some {| lat := 0; lng := 0 |};
       TripCreate.end_location := Some {| lat := 0; lng := 1 |} |} in
  let r :=
    TripService.create_trip 10 trip_data
      (Scenario.connect Scenario.busy_driver) in
  exists row page listed,
    fst r = Return row
    /\ TripService.get_trips_by_user 2 false 0 10 (snd r)
       = (Return page, snd r)
    /\ In listed page
    /\ TripService.created_record listed = row
    /\ Trip.start_location row = None
    /\ Trip.start_location listed = Some {| lat := 0; lng := 0 |}.
Proof.
  intros trip_data r.
  destruct r as [[row|e] c'] eqn:Hr; [|vm_compute in Hr; discriminate].
  destruct (created_trip_is_listed 10 10 trip_data
              (Scenario.connect Scenario.busy_driver) c' row Hr)
    as (page & Hpage & (listed & Hin & Hrec & Hstart & _) & _).
  - vm_compute in Hr. injection Hr as _ Hc. subst c'.
    vm_compute. discriminate.
  - exists row, page, listed. cbn [fst snd].
    repeat split; auto.
    rewrite <- Hrec. reflexivity.
Defined.

(** ** Updating a trip *)

Lemma update_fields_keep_key trip_data now t :
  Trip.id (TripService.apply_fields
             (TripService.update_fields trip_data ++ [Trip.set_updated_at now])
             t) = Trip.id t
  /\ Trip.deleted_at
       (TripService.apply_fields
          (TripService.update_fields trip_data ++ [Trip.set_updated_at now])
          t) = Trip.deleted_at t.
Proof.
  destruct trip_data as [[d|] [s|] [st|] [et|] [p|]]; split; reflexivity.
Qed.

Lemma update_trip_run now trip_id trip_data c :
  TripService.update_fields trip_data <> [] ->
  let set :=
    TripService.apply_fields
      (TripService.update_fields trip_data ++ [Trip.set_updated_at now]) in
  let db := set_trips (update_where (TripService.by_id trip_id) set)
              (working c) in
  TripService.update_trip now trip_id trip_data c
  = (Return (if rowcount (TripService.by_id trip_id) (trips (working c)) =? 0
             then None else trip_of db trip_id),
     {| committed := db; working := db |}).
Proof.
  intros Hne set db. unfold TripService.update_trip.
  destruct (TripService.update_fields trip_data) as [|f fs] eqn:Hf;
    [contradiction|].
  subst set db. unfold TripService.get_trip_by_id, trip_of.
  unfold bind, query, execute, COMMIT, ret. cbn [working committed].
  destruct (rowcount _ _ =? 0); reflexivity.
Qed.

(** X12: [update_trip] on an id under which no trip can be read (missing
    or soft-deleted) returns nothing and leaves every stored trip as it
    was.  On a readable trip it returns the trip as it is read afterwards:
    every field of the request that is not [None] has the requested value
    (whatever status the trip was in), every other one of the five fields,
    the id and the passenger are those of the trip before. *)
Theorem update_trip_then_read :
  forall (now trip_id : Z) (trip_data : TripUpdate.t) (c : Conn),
    (trip_of (working c) trip_id = None ->
     exists c',
       TripService.update_trip now trip_id trip_data c = (Return None, c')
       /\ trips (working c') = trips (working c))
    /\ (forall row,
          trip_of (working c) trip_id = Some row ->
          exists row' c',
            TripService.update_trip now trip_id trip_data c
            = (Return (Some row'), c')
            /\ trip_of (working c') trip_id = Some row'
            /\ Trip.id row' = Trip.id row
            /\ Trip.passenger_id row' = Trip.passenger_id row
            /\ Trip.driver_id row'
               = or_keep (TripUpdate.driver_id trip_data) (Trip.driver_id row)
            /\ Trip.trip_status row'
               = match TripUpdate.trip_status trip_data with
                 | Some s => s
                 | None => Trip.trip_status row
                 end
            /\ Trip.start_time row'
               = or_keep (TripUpdate.start_time trip_data)
                   (Trip.start_time row)
            /\ Trip.end_time row'
               = or_keep (TripUpdate.end_time trip_data) (Trip.end_time row)
            /\ Trip.payment_id row'
               = or_keep (TripUpdate.payment_id trip_data)
                   (Trip.payment_id row)).
Proof.
  intros now trip_id trip_data c.
  destruct (TripService.update_fields trip_data) as [|f fs] eqn:Hf.
  - (* nothing to set: a plain read *)
    assert (Hnone : trip_data
                    = {| TripUpdate.driver_id := None;
                         TripUpdate.trip_status := None;
                         TripUpdate.start_time := None;
                         TripUpdate.end_time := None;
                         TripUpdate.payment_id := None |}).
    { destruct trip_data as [[d|] [s|] [st|] [et|] [p|]];
        try discriminate Hf. reflexivity. }
    subst trip_data.
    change (TripService.update_trip now trip_id _ c)
      with (TripService.get_trip_by_id trip_id c).
    rewrite get_trip_by_id_trip_of. split.
    + intros ->. exists c. auto.
    + intros row Hrow. exists row, c. rewrite Hrow. repeat split.
  - assert (Hne : TripService.update_fields trip_data <> [])
      by (rewrite Hf; discriminate).
    rewrite (update_trip_run now trip_id trip_data c Hne). cbv zeta.
    split.
    + intros Hnone. unfold trip_of, fetchone in Hnone.
      destruct (filter (TripService.by_id trip_id) (trips (working c)))
        as [|y ys] eqn:Hfil; [|discriminate].
      unfold rowcount. rewrite Hfil. cbn [length Z.of_nat Z.eqb].
      eexists. split; [reflexivity|].
      cbn [working set_trips trips]. apply update_where_none. exact Hfil.
    + intros row Hrow.
      assert (Hcount :
        (rowcount (TripService.by_id trip_id) (trips (working c)) =? 0)
        = false).
      { unfold rowcount, trip_of, fetchone in *.
        destruct (filter (TripService.by_id trip_id) (trips (working c)));
          [discriminate|reflexivity]. }
      rewrite Hcount.
      rewrite trip_of_update_where;
        try (intros t; apply (update_fields_keep_key trip_data now t)).
      rewrite Hrow. cbn [option_map].
      assert (Hby : TripService.by_id trip_id row = true).
      { unfold trip_of in Hrow. apply fetchone_filter_sound in Hrow. tauto. }
      rewrite Hby.
      eexists; eexists. split; [reflexivity|].
      cbn [working]. rewrite trip_of_update_where;
        try (intros t; apply (update_fields_keep_key trip_data now t)).
      rewrite Hrow. cbn [option_map]. rewrite Hby.
      split; [reflexivity|].
      destruct trip_data as [[d|] [s|] [st|] [et|] [p|]]; repeat split.
Qed.

(** Instance of [update_trip_then_read]: the accepted trip 1 of driver 5
    is marked failed and handed to driver 6 in one update. *)
Lemma update_trip_then_read_witness :
  let trip_data :=
    {| TripUpdate.driver_id := Some 6;
       TripUpdate.trip_status := Some "failed"%string;
       TripUpdate.start_time := None; TripUpdate.end_time := None;
       TripUpdate.payment_id := None |} in
  exists row' c',
    TripService.update_trip 10 1 trip_data
      (Scenario.connect Scenario.busy_driver) = (Return (Some row'), c')
    /\ trip_of (working c') 1 = Some row'
    /\ Trip.id row' = 1
    /\ Trip.passenger_id row' = 1
    /\ Trip.driver_id row' = Some 6
    /\ Trip.trip_status row' = "failed"%string
    /\ Trip.start_time row' = None
    /\ Trip.end_time row' = None
    /\ Trip.payment_id row' = None.
Proof.
  intros trip_data.
  apply (proj2 (update_trip_then_read 10 1 trip_data
                  (Scenario.connect Scenario.busy_driver))
           (Scenario.trip 1 1 (Some 5) "accepted")).
  reflexivity.
Defined.

(** ** Wallets *)

Lemma fetchone_filter_refine {R} (p q : R -> bool) (l : list R) x :
  fetchone (filter p l) = Some x ->
  q x = true ->
  fetchone (filter (fun r => p r && q r) l) = Some x.
Proof.
  induction l as [|y l IH]; cbn [filter]; [discriminate|].
  destruct (p y) eqn:Hp; cbn [andb].
  - cbn. intros H Hq. inversion H; subst. rewrite Hq. reflexivity.
  - exact IH.
Qed.

(** What a successful [create_transaction] leaves behind. *)
Lemma create_transaction_returns_state now d c tx c' :
  TransactionService.create_transaction now d c = (Return tx, c') ->
  exists u,
    fetchone (filter (fun v => User.id v =? TransactionCreate.user_id d)
                (users (working c))) = Some u
    /\ debit_check d (User.wallet_balance u) = false
    /\ tx = TransactionService.new_transaction now d (working c)
    /\ c' = {| committed := posted now d (User.wallet_balance u) (working c);
               working := posted now d (User.wallet_balance u) (working c) |}.
Proof.
  rewrite create_transaction_run.
  destruct (fetchone _) as [u|]; [|discriminate].
  destruct (debit_check d (User.wallet_balance u)) eqn:Hchk; [discriminate|].
  intros H. inversion H; subst. exists u. auto.
Qed.

Lemma wallet_of_posted now d balance db user_id :
  wallet_of (posted now d balance db) user_id
  = if user_id =? TransactionCreate.user_id d
    then option_map
           (fun _ => Decimal.add balance (TransactionCreate.amount d))
           (wallet_of db user_id)
    else wallet_of db user_id.
Proof.
  unfold wallet_of. rewrite posted_users.
  rewrite fetchone_filter_update by reflexivity.
  destruct (fetchone (filter (fun u => User.id u =? user_id) (users db)))
    as [u|] eqn:Hu; cbn [option_map].
  - apply fetchone_filter_sound in Hu. destruct Hu as [_ Hid].
    apply Z.eqb_eq in Hid. rewrite Hid.
    destruct (user_id =? TransactionCreate.user_id d); reflexivity.
  - destruct (user_id =? TransactionCreate.user_id d); reflexivity.
Qed.

(** X13: a [create_transaction] that returns has appended exactly its row
    and committed; the wallet of its user then reads the decimal sum
    [current_balance + amount] of the balance before and the amount, and
    every other wallet reads as before. *)
Theorem post_changes_one_wallet :
  forall (now : Z) (d : TransactionCreate.t) (c c' : Conn)
         (tx : Transaction.row),
    TransactionService.create_transaction now d c = (Return tx, c') ->
    exists balance,
      wallet_of (working c) (TransactionCreate.user_id d) = Some balance
      /\ wallet_of (committed c') (TransactionCreate.user_id d)
         = Some (Decimal.add balance (TransactionCreate.amount d))
      /\ (forall other,
            other <> TransactionCreate.user_id d ->
            wallet_of (committed c') other = wallet_of (working c) other)
      /\ transactions (committed c') = transactions (working c) ++ [tx]
      /\ Transaction.user_id tx = TransactionCreate.user_id d
      /\ Transaction.amount tx = TransactionCreate.amount d
      /\ committed c' = working c'.
Proof.
  intros now d c c' tx H.
  apply create_transaction_returns_state in H.
  destruct H as (u & Hu & _ & -> & ->).
  exists (User.wallet_balance u). cbn [committed working].
  assert (Hw : wallet_of (working c) (TransactionCreate.user_id d)
               = Some (User.wallet_balance u))
    by (unfold wallet_of; rewrite Hu; reflexivity).
  split; [exact Hw|]. split; [|split].
  - rewrite wallet_of_posted, Z.eqb_refl, Hw. reflexivity.
  - intros other Hne. rewrite wallet_of_posted.
    destruct (Z.eqb_spec other (TransactionCreate.user_id d));
      [contradiction|reflexivity].
  - repeat split.
Qed.

(** Instance of [post_changes_one_wallet]: passenger 1 pays 500 out of
    1000. *)
Lemma post_changes_one_wallet_witness :
  let c := Scenario.connect (Scenario.riding (1000 # 1) 0) in
  let d :=
    {| TransactionCreate.user_id := 1;
       TransactionCreate.amount := (- (500 # 1))%Q;
       TransactionCreate.type := "trip_payment";
       TransactionCreate.payment_id := None |} in
  let c' := snd (TransactionService.create_transaction 10 d c) in
  wallet_of (committed c') 1 = Some ((1000 # 1) + - (500 # 1))%Q
  /\ wallet_of (committed c') 5 = Some 0%Q.
Proof.
  intros c d. cbv zeta.
  destruct (TransactionService.create_transaction 10 d c) as [[tx|e] c1] eqn:H;
    [|vm_compute in H; discriminate].
  cbn [snd].
  destruct (post_changes_one_wallet 10 d c c1 tx H)
    as (b & Hb & Hafter & Hother & _).
  injection Hb as <-. split; [exact Hafter|].
  rewrite (Hother 5); [reflexivity|discriminate].
Defined.

(** X14: after a [create_transaction] of type [withdraw] or [trip_payment]
    that returns, the wallet of its user is not negative, whatever the
    sign of the amount, provided [abs(amount)] is exact, that is, the
    amount has no more digits than the decimal context keeps. *)
Theorem debit_never_overdraws :
  forall (now : Z) (d : TransactionCreate.t) (c c' : Conn)
         (tx : Transaction.row),
    TransactionService.create_transaction now d c = (Return tx, c') ->
    TransactionCreate.type d = "withdraw"%string
    \/ TransactionCreate.type d = "trip_payment"%string ->
    (Decimal.abs (TransactionCreate.amount d)
     == Qabs (TransactionCreate.amount d))%Q ->
    exists balance,
      wallet_of (committed c') (TransactionCreate.user_id d) = Some balance
      /\ (0 <= balance)%Q.
Proof.
  intros now d c c' tx H Hty Habs.
  apply create_transaction_returns_state in H.
  destruct H as (u & Hu & Hchk & _ & ->).
  exists (Decimal.add (User.wallet_balance u) (TransactionCreate.amount d)).
  cbn [committed]. split.
  - rewrite wallet_of_posted, Z.eqb_refl. unfold wallet_of. rewrite Hu.
    reflexivity.
  - unfold debit_check in Hchk.
    assert (Hin : str_in (TransactionCreate.type d)
                    ["withdraw"; "trip_payment"]%string = true)
      by (destruct Hty as [-> | ->]; reflexivity).
    rewrite Hin in Hchk. cbn [andb] in Hchk.
    assert (Hle : (Qabs (TransactionCreate.amount d)
                   <= User.wallet_balance u)%Q).
    { rewrite <- Habs. apply Qnot_lt_le. intros Hlt.
      apply Qltb_lt in Hlt. congruence. }
    apply Qabs_Qle_condition in Hle. destruct Hle as [Hlow _].
    unfold Decimal.add. apply round_nonneg. lra.
Qed.

(** Instance of [debit_never_overdraws]: a withdrawal of the whole
    balance. *)
Lemma debit_never_overdraws_witness :
  let c := Scenario.connect (Scenario.riding (1000 # 1) 0) in
  let d :=
    {| TransactionCreate.user_id := 1;
       TransactionCreate.amount := (- (1000 # 1))%Q;
       TransactionCreate.type := "withdraw";
       TransactionCreate.payment_id := None |} in
  exists balance,
    wallet_of
      (committed (snd (TransactionService.create_transaction 10 d c))) 1
    = Some balance
    /\ (0 <= balance)%Q.
Proof.
  intros c d.
  destruct (TransactionService.create_transaction 10 d c) as [[tx|e] c1] eqn:H;
    [|vm_compute in H; discriminate].
  apply (debit_never_overdraws 10 d c c1 tx H).
  - left. reflexivity.
  - vm_compute. reflexivity.
Defined.

(** An amount of more digits escapes the check: the wallet holds
    [10 ^ 28], the withdrawal is of [10 ^ 28 + 0.4], whose absolute value
    rounds to [10 ^ 28]; the call returns and the wallet reads [-0.4]. *)
Lemma debit_beyond_precision_overdraws :
  let c := Scenario.connect (Scenario.riding (10 ^ 28 # 1) 0) in
  let d :=
    {| TransactionCreate.user_id := 1;
       TransactionCreate.amount := (- ((10 ^ 28 # 1) + (4 # 10)))%Q;
       TransactionCreate.type := "withdraw";
       TransactionCreate.payment_id := None |} in
  let r := TransactionService.create_transaction 10 d c in
  (exists tx, fst r = Return tx)
  /\ (forall balance,
        wallet_of (committed (snd r)) 1 = Some balance ->
        (balance == - (4 # 10))%Q).
Proof.
  intros c d r. split.
  - eexists. vm_compute. reflexivity.
  - intros balance H. vm_compute in H. inversion H. reflexivity.
Qed.

(** ** Running a call step by step *)

Lemma bind_run {A B} (m : M A) (k : A -> M B) c a c1 :
  m c = (Return a, c1) -> bind m k c = k a c1.
Proof. unfold bind. intros ->. reflexivity. Qed.

Lemma bind_raise {A B} (m : M A) (k : A -> M B) c e c1 :
  m c = (Raise e, c1) -> bind m k c = (Raise e, c1).
Proof. unfold bind. intros ->. reflexivity. Qed.

Lemma PaymentCreate_make_ok amount ty c :
  Qltb amount 0 = false ->
  str_in ty PaymentType = true ->
  PaymentCreate.make amount (Some ty) c
  = (Return {| PaymentCreate.amount := amount;
               PaymentCreate.payment_type := Some ty |}, c).
Proof.
  intros Ha Hty. unfold PaymentCreate.make. rewrite Ha, Hty. reflexivity.
Qed.

Lemma create_payment_run now pd c :
  PaymentService.create_payment now pd c
  = (Return (new_payment now pd (working c)),
     {| committed := with_payment now pd (working c);
        working := with_payment now pd (working c) |}).
Proof. reflexivity. Qed.

Lemma update_payment_status_run now pid status c :
  PaymentService.update_payment_status now pid status c
  = (Return
       (fetchone
          (returning
             (fun p => (Payment.id p =? pid) && is_none (Payment.deleted_at p))
             (Payment.set_status status now) (payments (working c)))),
     {| committed := with_status now pid status (working c);
        working := with_status now pid status (working c) |}).
Proof. reflexivity. Qed.

Lemma create_transaction_ok now d c u :
  fetchone (filter (fun v => User.id v =? TransactionCreate.user_id d)
              (users (working c))) = Some u ->
  debit_check d (User.wallet_balance u) = false ->
  TransactionService.create_transaction now d c
  = (Return (TransactionService.new_transaction now d (working c)),
     {| committed := posted now d (User.wallet_balance u) (working c);
        working := posted now d (User.wallet_balance u) (working c) |}).
Proof.
  intros Hu Hchk. rewrite create_transaction_run, Hu, Hchk. reflexivity.
Qed.

(** ** Topping up *)

(** X15: [top_up_wallet] with an amount that is not negative and a known
    payment type, for a user whose row is not soft-deleted, returns; the
    balance it reports is the decimal sum [current_balance + amount] of
    the balance before and the amount; its transaction is a deposit of
    that amount that refers to its payment; the payment is stored as
    completed although the returned payment record still says pending;
    everything is committed. *)
Theorem top_up_adds_the_amount :
  forall (now user_id : Z) (amount : Q) (payment_type : string) (c : Conn)
         (u : User.row),
    (0 <= amount)%Q ->
    str_in payment_type PaymentType = true ->
    fetchone (filter (fun v => User.id v =? user_id) (users (working c)))
      = Some u ->
    User.deleted_at u = None ->
    exists r c',
      TransactionService.top_up_wallet now user_id amount payment_type c
      = (Return r, c')
      /\ committed c' = working c'
      /\ TopUp.new_balance r
         = Some (Decimal.add (User.wallet_balance u) amount)
      /\ wallet_of (committed c') user_id
         = Some (Decimal.add (User.wallet_balance u) amount)
      /\ Transaction.type (TopUp.transaction r) = "deposit"%string
      /\ Transaction.amount (TopUp.transaction r) = amount
      /\ Transaction.payment_id (TopUp.transaction r)
         = Some (Payment.id (TopUp.payment r))
      /\ transactions (committed c')
         = transactions (working c) ++ [TopUp.transaction r]
      /\ Payment.status (TopUp.payment r) = "pending"%string
      /\ In (Payment.set_status "completed" now (TopUp.payment r))
           (payments (committed c')).
Proof.
  intros now user_id amount payment_type c u Hamount Hty Hu Hdel.
  assert (Ha : Qltb amount 0 = false).
  { destruct (Qltb amount 0) eqn:H; [|reflexivity].
    apply Qltb_lt in H. lra. }
  unfold TransactionService.top_up_wallet.
  rewrite (bind_run _ _ _ _ _ (PaymentCreate_make_ok amount payment_type c Ha Hty)).
  rewrite (bind_run _ _ _ _ _ (create_payment_run now _ c)).
  match goal with
  | |- context [TransactionCreate.make ?a ?b ?t ?p] =>
      rewrite (bind_run (TransactionCreate.make a b t p) _ _
                 {| TransactionCreate.user_id := a;
                    TransactionCreate.amount := b;
                    TransactionCreate.type := t;
                    TransactionCreate.payment_id := p |} _ eq_refl)
  end.
  erewrite bind_run; [|apply (create_transaction_ok _ _ _ u); [exact Hu|reflexivity]].
  rewrite (bind_run _ _ _ _ _ (update_payment_status_run now _ _ _)).
  unfold TransactionService.get_wallet_balance.
  unfold bind at 1, query at 1. cbn [working].
  eexists; eexists. split; [reflexivity|].
  cbn [committed working TopUp.new_balance TopUp.transaction TopUp.payment].
  split; [reflexivity|].
  assert (Hfirst :
    fetchone
      (filter (fun v => (User.id v =? user_id) && is_none (User.deleted_at v))
         (users (working c))) = Some u).
  { apply (fetchone_filter_refine (fun v => User.id v =? user_id)
             (fun v => is_none (User.deleted_at v))); [exact Hu|].
    rewrite Hdel. reflexivity. }
  split; [|split; [|repeat split]].
  - cbn [with_status set_payments users]. rewrite posted_users.
    cbn [users with_payment PaymentService.insert_payment working snd
         TransactionCreate.user_id TransactionCreate.amount].
    rewrite fetchone_filter_update by reflexivity.
    rewrite Hfirst. cbn [option_map].
    apply fetchone_filter_sound in Hu. destruct Hu as [_ Hid].
    rewrite Hid. reflexivity.
  - unfold wallet_of. cbn [with_status set_payments users].
    rewrite posted_users.
    cbn [users with_payment PaymentService.insert_payment working snd
         TransactionCreate.user_id TransactionCreate.amount].
    rewrite fetchone_filter_update by reflexivity.
    rewrite Hu. cbn [option_map].
    apply fetchone_filter_sound in Hu. destruct Hu as [_ Hid].
    rewrite Hid. reflexivity.
  - cbn [with_status set_payments payments posted set_users working snd
         TransactionService.insert_transaction with_payment
         PaymentService.insert_payment].
    apply (update_where_In
             (fun p => (Payment.id p =? payments_id_seq (working c))
                       && is_none (Payment.deleted_at p))
             (Payment.set_status "completed" now)
             (payments (working c) ++ [new_payment now _ (working c)])
             (new_payment now _ (working c))).
    + apply in_or_app. right. left. reflexivity.
    + cbn. rewrite Z.eqb_refl. reflexivity.
Qed.

(** Instance of [top_up_adds_the_amount]: passenger 1 adds 250 to 1000. *)
Lemma top_up_adds_the_amount_witness :
  exists r c',
    TransactionService.top_up_wallet 10 1 (250 # 1) "electronic"
      (Scenario.connect (Scenario.riding (1000 # 1) 0)) = (Return r, c')
    /\ TopUp.new_balance r = Some (Decimal.add (1000 # 1) (250 # 1))
    /\ (Decimal.add (1000 # 1) (250 # 1) == 1250 # 1)%Q
    /\ Payment.status (TopUp.payment r) = "pending"%string
    /\ In (Payment.set_status "completed" 10 (TopUp.payment r))
         (payments (committed c')).
Proof.
  destruct (top_up_adds_the_amount 10 1 (250 # 1) "electronic"
              (Scenario.connect (Scenario.riding (1000 # 1) 0))
              (Scenario.user 1 (1000 # 1)))
    as (r & c' & H & _ & Hb & _ & _ & _ & _ & _ & Hp & Hin).
  - discriminate.
  - reflexivity.
  - reflexivity.
  - reflexivity.
  - exists r, c'. repeat split; auto.
Defined.

(** X16: [top_up_wallet] for a user id without a user row raises 404
    [User not found] after its payment row has been committed: no
    transaction is added and no wallet changes, and the payments are those
    before followed by one row of that amount with status [pending]. *)
Theorem top_up_unknown_user_leaves_payment :
  forall (now user_id : Z) (amount : Q) (payment_type : string) (c : Conn),
    (0 <= amount)%Q ->
    str_in payment_type PaymentType = true ->
    (forall u, In u (users (working c)) -> User.id u <> user_id) ->
    exists c' p,
      TransactionService.top_up_wallet now user_id amount payment_type c
      = (Raise (HTTPException 404 "User not found"), c')
      /\ committed c' = working c'
      /\ payments (committed c') = payments (working c) ++ [p]
      /\ Payment.amount p = amount
      /\ Payment.status p = "pending"%string
      /\ transactions (committed c') = transactions (working c)
      /\ users (committed c') = users (working c).
Proof.
  intros now user_id amount payment_type c Hamount Hty Hnone.
  assert (Ha : Qltb amount 0 = false).
  { destruct (Qltb amount 0) eqn:H; [|reflexivity].
    apply Qltb_lt in H. lra. }
  unfold TransactionService.top_up_wallet.
  rewrite (bind_run _ _ _ _ _ (PaymentCreate_make_ok amount payment_type c Ha Hty)).
  rewrite (bind_run _ _ _ _ _ (create_payment_run now _ c)).
  match goal with
  | |- context [TransactionCreate.make ?a ?b ?t ?p] =>
      rewrite (bind_run (TransactionCreate.make a b t p) _ _
                 {| TransactionCreate.user_id := a;
                    TransactionCreate.amount := b;
                    TransactionCreate.type := t;
                    TransactionCreate.payment_id := p |} _ eq_refl)
  end.
  erewrite bind_raise.
  2: { rewrite create_transaction_run.
       cbn [working with_payment PaymentService.insert_payment snd users
            TransactionCreate.user_id].
       rewrite filter_nothing; [reflexivity|].
       intros u Hu. apply Z.eqb_neq. apply Hnone. exact Hu. }
  eexists; eexists. split; [reflexivity|].
  cbn. repeat split.
Qed.

(** Instance of [top_up_unknown_user_leaves_payment]: a top-up for user
    9, who does not exist. *)
Lemma top_up_unknown_user_leaves_payment_witness :
  exists c' p,
    TransactionService.top_up_wallet 10 9 (250 # 1) "cash"
      (Scenario.connect (Scenario.riding (1000 # 1) 0))
    = (Raise (HTTPException 404 "User not found"), c')
    /\ payments (committed c') = [p]
    /\ Payment.status p = "pending"%string.
Proof.
  destruct (top_up_unknown_user_leaves_payment 10 9 (250 # 1) "cash"
              (Scenario.connect (Scenario.riding (1000 # 1) 0)))
    as (c' & p & H & _ & Hp & _ & Hs & _).
  - discriminate.
  - reflexivity.
  - simpl. intros u [<-|[<-|[]]]; discriminate.
  - exists c', p. auto.
Defined.

(** ** The ledger under composed calls *)

Lemma keeps_ret {A} P (a : A) : keeps P (ret a).
Proof. intros c H. exact H. Qed.

Lemma keeps_raise {A} P e : keeps P (@raise A e).
Proof. intros c H. exact H. Qed.

Lemma keeps_bind {A B} P (m : M A) (k : A -> M B) :
  keeps P m -> (forall a, keeps P (k a)) -> keeps P (bind m k).
Proof.
  intros Hm Hk c H. unfold bind.
  pose proof (Hm c H) as H1.
  destruct (m c) as [[a|e] c1]; cbn [snd] in *; [apply Hk|]; exact H1.
Qed.

Lemma keeps_try_except {A} P (m : M A) (h : exception -> M A) :
  keeps P m -> (forall e, keeps P (h e)) -> keeps P (try_except m h).
Proof.
  intros Hm Hh c H. unfold try_except.
  pose proof (Hm c H) as H1.
  destruct (m c) as [[a|e] c1]; cbn [snd] in *; [|apply Hh]; exact H1.
Qed.

Lemma keeps_query {A} P (q : DB -> A) : keeps P (query q).
Proof. intros c H. exact H. Qed.

Lemma ledger_consistent_same db db' :
  users db' = users db ->
  transactions db' = transactions db ->
  ledger_consistent db -> ledger_consistent db'.
Proof.
  intros Hu Ht H u Hin. rewrite Hu in Hin.
  unfold ledger_sum. rewrite Ht. apply H. exact Hin.
Qed.

Lemma ledger_kept_COMMIT : keeps ledger_kept COMMIT.
Proof. intros c [_ Hw]. split; exact Hw. Qed.

Lemma ledger_kept_ROLLBACK : keeps ledger_kept ROLLBACK.
Proof. intros c [Hc _]. split; exact Hc. Qed.

Lemma ledger_kept_execute f :
  (forall db, users (f db) = users db) ->
  (forall db, transactions (f db) = transactions db) ->
  keeps ledger_kept (execute f).
Proof.
  intros Hu Ht c [Hc Hw]. split; [exact Hc|].
  cbn. eapply ledger_consistent_same; [apply Hu|apply Ht|exact Hw].
Qed.

Lemma ledger_kept_create_payment now pd :
  keeps ledger_kept (PaymentService.create_payment now pd).
Proof.
  intros c [_ Hw]. rewrite create_payment_run. cbn [snd].
  split; cbn [committed working];
    (eapply ledger_consistent_same; [| |exact Hw]; reflexivity).
Qed.

Lemma ledger_kept_update_payment_status now pid status :
  keeps ledger_kept (PaymentService.update_payment_status now pid status).
Proof.
  intros c [_ Hw]. rewrite update_payment_status_run. cbn [snd].
  split; cbn [committed working];
    (eapply ledger_consistent_same; [| |exact Hw]; reflexivity).
Qed.

Lemma keeps_PaymentCreate_make P amount ty :
  keeps P (PaymentCreate.make amount ty).
Proof.
  intros c H. unfold PaymentCreate.make.
  destruct (Qltb amount 0); [exact H|].
  match goal with
  | |- context [if ?b then _ else _] => destruct b; exact H
  end.
Qed.

Lemma keeps_TransactionCreate_make P user_id amount ty pid :
  keeps P (TransactionCreate.make user_id amount ty pid).
Proof.
  intros c H. unfold TransactionCreate.make.
  destruct (str_in ty TransactionType); exact H.
Qed.

Create HintDb ledger.

#[local] Hint Resolve keeps_ret keeps_raise keeps_query
  ledger_kept_COMMIT ledger_kept_ROLLBACK ledger_kept_create_payment
  ledger_kept_update_payment_status
  keeps_PaymentCreate_make keeps_TransactionCreate_make : ledger.

Lemma wallet_of_same_users db db' user_id :
  users db' = users db -> wallet_of db' user_id = wallet_of db user_id.
Proof. unfold wallet_of. intros ->. reflexivity. Qed.

Lemma trip_of_same_trips db' db trip_id :
  trips db' = trips db -> trip_of db' trip_id = trip_of db trip_id.
Proof. unfold trip_of. intros ->. reflexivity. Qed.

Lemma wallet_of_first db user_id u :
  fetchone (filter (fun v => User.id v =? user_id) (users db)) = Some u ->
  wallet_of db user_id = Some (User.wallet_balance u).
Proof. unfold wallet_of. intros ->. reflexivity. Qed.

Lemma bind_keeps_at {A B} (P : Conn -> Prop) (m : M A) (k : A -> M B) c :
  P (snd (m c)) ->
  (forall a c1, m c = (Return a, c1) -> P c1 -> P (snd (k a c1))) ->
  P (snd (bind m k c)).
Proof.
  unfold bind. destruct (m c) as [[a|e] c1]; cbn [snd]; intros H1 H2; auto.
Qed.

Lemma keeps_at {A} (P : Conn -> Prop) (m : M A) c :
  keeps P m -> P c -> P (snd (m c)).
Proof. intros H. apply H. Qed.

Lemma try_rollback_keeps_ledger {A} (m : M A) c :
  ledger_kept (snd (m c)) ->
  ledger_kept (snd (try_except m (fun e => ROLLBACK ;; raise e) c)).
Proof.
  unfold try_except. destruct (m c) as [[a|e] c1]; cbn [snd]; [auto|].
  intros [Hc _]. split; exact Hc.
Qed.

Lemma ledger_kept_create_transaction_at now d c :
  ledger_kept c ->
  post_exact d (working c) ->
  ledger_kept (snd (TransactionService.create_transaction now d c)).
Proof.
  intros [Hc Hw] Hex. apply create_transaction_consistent; assumption.
Qed.

Lemma settlement_tail_keeps_ledger {A} now trip_id pid (r : A) :
  keeps ledger_kept
    (execute (set_trips (update_where
       (fun t => Trip.id t =? trip_id)
       (fun t => Trip.set_updated_at now
                   (Trip.set_payment_id (Some pid) t)))) ;;
     PaymentService.update_payment_status now pid "completed" ;;
     COMMIT ;;
     ret r).
Proof.
  apply keeps_bind; [apply ledger_kept_execute; reflexivity|]. intros _.
  apply keeps_bind; [auto with ledger|]. intros _.
  apply keeps_bind; [auto with ledger|]. intros _. auto with ledger.
Qed.

(** X17: for calls that run one at a time on a connection, and whose
    sums on the wallets come out exact under the decimal context,
    [process_trip_payment] and [top_up_wallet] leave every balance equal
    to the sum of the user's transaction rows, in the committed store and
    in the store the connection sees, if that was so before the call,
    whether they return or raise and wherever they stop. *)
Theorem settlement_and_top_up_keep_the_ledger :
  forall (now trip_id user_id : Z) (amount : Q) (payment_type : string)
         (c : Conn),
    ledger_kept c ->
    ((forall trip,
        trip_of (working c) trip_id = Some trip ->
        settles_exactly amount trip (working c)) ->
     ledger_kept
       (snd (TransactionService.process_trip_payment now trip_id amount c)))
    /\ ((forall balance,
           wallet_of (working c) user_id = Some balance ->
           adds_exactly balance amount) ->
        ledger_kept
          (snd (TransactionService.top_up_wallet now user_id amount
                  payment_type c))).
Proof.
  intros now trip_id user_id amount payment_type c H. split.
  - intros Hex.
    unfold TransactionService.process_trip_payment, BEGIN.
    apply bind_keeps_at; [exact H|]. intros tr c0 Hq _.
    unfold query in Hq. fold (trip_of (working c) trip_id) in Hq.
    inversion Hq; subst tr c0. clear Hq.
    destruct (trip_of (working c) trip_id) as [trip|] eqn:Htrip; [|exact H].
    destruct (Hex trip eq_refl) as [Hpass Hdrv].
    apply bind_keeps_at; [exact H|]. intros [] c0 Hb _.
    inversion Hb; subst c0. clear Hb.
    apply try_rollback_keeps_ledger.
    apply bind_keeps_at; [apply keeps_PaymentCreate_make; exact H|].
    intros pd c1 Hpd _. apply PaymentCreate_make_returns in Hpd.
    destruct Hpd as [-> _].
    apply bind_keeps_at; [apply ledger_kept_create_payment; exact H|].
    intros p c2 Hp H1. rewrite create_payment_run in Hp.
    inversion Hp; subst p c2. clear Hp.
    set (W1 := with_payment now pd (working c)) in *.
    apply bind_keeps_at; [apply keeps_TransactionCreate_make; exact H1|].
    intros ptx c3 Hptx _. apply TransactionCreate_make_returns in Hptx.
    destruct Hptx as [-> ->].
    assert (Hw1 : forall x, wallet_of W1 x = wallet_of (working c) x)
      by (intros; apply wallet_of_same_users; reflexivity).
    apply bind_keeps_at.
    { apply ledger_kept_create_transaction_at; [exact H1|].
      intros b Hb. cbn [working TransactionCreate.user_id] in Hb.
      rewrite Hw1 in Hb. apply Hpass. exact Hb. }
    intros tx1 c4 Htx1 H2.
    apply create_transaction_returns_state in Htx1.
    destruct Htx1 as (up & Hup & _ & _ & Hc4).
    cbn [working TransactionCreate.user_id] in Hup, Hc4.
    assert (Hwp : wallet_of W1 (Trip.passenger_id trip)
                  = Some (User.wallet_balance up))
      by (apply wallet_of_first; exact Hup).
    apply bind_keeps_at;
      [|intros [] c5 _ H5; apply keeps_at;
          [apply settlement_tail_keeps_ledger|exact H5]].
    destruct (Trip.driver_id trip) as [driver|] eqn:Hd; [|exact H2].
    destruct (truthy (Some driver)); [|exact H2].
    apply bind_keeps_at; [apply keeps_TransactionCreate_make; exact H2|].
    intros dtx c5 Hdtx _. apply TransactionCreate_make_returns in Hdtx.
    destruct Hdtx as [-> ->].
    apply bind_keeps_at; [|intros; assumption].
    apply ledger_kept_create_transaction_at; [exact H2|].
    intros b Hb. subst c4.
    cbn [working TransactionCreate.user_id TransactionCreate.amount] in *.
    rewrite wallet_of_posted in Hb.
    cbn [TransactionCreate.user_id TransactionCreate.amount] in Hb.
    destruct (Z.eqb_spec driver (Trip.passenger_id trip)) as [He|Hne].
    + subst driver. rewrite Hwp in Hb. cbn [option_map] in Hb.
      inversion Hb; subst b.
      pose proof (Hdrv _ _ eq_refl (eq_trans (eq_sym (Hw1 _)) Hwp)) as Hx.
      rewrite Z.eqb_refl in Hx. exact Hx.
    + rewrite Hw1 in Hb. pose proof (Hdrv _ _ eq_refl Hb) as Hx.
      destruct (Z.eqb_spec driver (Trip.passenger_id trip));
        [contradiction|exact Hx].
  - intros Hex.
    unfold TransactionService.top_up_wallet,
      TransactionService.get_wallet_balance.
    apply bind_keeps_at; [apply keeps_PaymentCreate_make; exact H|].
    intros pd c1 Hpd _. apply PaymentCreate_make_returns in Hpd.
    destruct Hpd as [-> _].
    apply bind_keeps_at; [apply ledger_kept_create_payment; exact H|].
    intros p c2 Hp H1. rewrite create_payment_run in Hp.
    inversion Hp; subst p c2. clear Hp.
    apply bind_keeps_at; [apply keeps_TransactionCreate_make; exact H1|].
    intros dtx c3 Hdtx _. apply TransactionCreate_make_returns in Hdtx.
    destruct Hdtx as [-> ->].
    apply bind_keeps_at.
    { apply ledger_kept_create_transaction_at; [exact H1|].
      intros b Hb. cbn [working TransactionCreate.user_id] in Hb.
      apply Hex. rewrite <- Hb. symmetry.
      apply wallet_of_same_users. reflexivity. }
    intros tx c4 _ H2.
    apply bind_keeps_at;
      [apply ledger_kept_update_payment_status; exact H2|].
    intros st c5 _ H3.
    apply bind_keeps_at; [exact H3|]. intros b c6 Hq _.
    unfold query in Hq. inversion Hq; subst c6. exact H3.
Qed.

(** Instance of [settlement_and_top_up_keep_the_ledger]: passenger 1 tops
    up 1000; driver 5 starts with an empty wallet, so the settlement of
    500 stops after the passenger's debit. *)
Lemma settlement_and_top_up_keep_the_ledger_witness :
  let db :=
    Scenario.store [Scenario.user 1 0; Scenario.user 5 0]
      [Scenario.driver 5 "approved"]
      [Scenario.trip 1 1 (Some 5) "in_progress"] in
  let c := snd (TransactionService.top_up_wallet 1 1 (1000 # 1) "cash"
                  (Scenario.connect db)) in
  ledger_kept c
  /\ ledger_kept
       (snd (TransactionService.process_trip_payment 10 1 (500 # 1) c)).
Proof.
  intros db c.
  assert (H0 : ledger_kept (Scenario.connect db)).
  { split; intros u [<-|[<-|[]]]; reflexivity. }
  assert (H1 : ledger_kept c).
  { apply (proj2 (settlement_and_top_up_keep_the_ledger 1 1 1 (1000 # 1)
                    "cash" (Scenario.connect db) H0)).
    intros b Hb. vm_compute in Hb. inversion Hb; subst b.
    vm_compute. reflexivity. }
  split; [exact H1|].
  apply (proj1 (settlement_and_top_up_keep_the_ledger 10 1 1 (500 # 1)
                  "cash" c H1)).
  intros trip Htrip. vm_compute in Htrip. inversion Htrip; subst trip.
  split.
  - intros bp Hbp. vm_compute in Hbp. inversion Hbp; subst bp.
    vm_compute. reflexivity.
  - intros d bd Hd Hbd. cbn in Hd. inversion Hd; subst d.
    vm_compute in Hbd. inversion Hbd; subst bd.
    vm_compute. reflexivity.
Defined.

(** ** What a settlement does to wallets, trip and payment *)

(** X18: when [process_trip_payment] returns for a trip whose driver is a
    user other than the passenger, the passenger's wallet held at least
    [abs(-g)], the passenger's wallet now reads the decimal sum of what
    it held and [-g], the driver's the decimal sum of what it held and
    [g * Decimal("0.85")], no other wallet has changed, the trip carries
    the id of the payment and still has the status it had, the payment is
    stored as completed, and all of it is committed. *)
Theorem settlement_moves_the_fare :
  forall (now trip_id : Z) (g : Q) (c c' : Conn) (r : TripPayment)
         (trip : Trip.row) (d : Z),
    trip_of (working c) trip_id = Some trip ->
    Trip.driver_id trip = Some d ->
    d <> 0 ->
    d <> Trip.passenger_id trip ->
    TransactionService.process_trip_payment now trip_id g c = (Return r, c') ->
    exists bp bd,
      wallet_of (working c) (Trip.passenger_id trip) = Some bp
      /\ wallet_of (working c) d = Some bd
      /\ (Decimal.abs (Decimal.neg g) <= bp)%Q
      /\ wallet_of (committed c') (Trip.passenger_id trip)
         = Some (Decimal.add bp (Decimal.neg g))
      /\ wallet_of (committed c') d
         = Some (Decimal.add bd (Decimal.mul g (85 # 100)))
      /\ (forall other,
            other <> Trip.passenger_id trip -> other <> d ->
            wallet_of (committed c') other = wallet_of (working c) other)
      /\ (exists trip',
            trip_of (committed c') trip_id = Some trip'
            /\ Trip.payment_id trip' = Some (Payment.id (payment r))
            /\ Trip.trip_status trip' = Trip.trip_status trip)
      /\ Payment.amount (payment r) = g
      /\ In (Payment.set_status "completed" now (payment r))
           (payments (committed c'))
      /\ committed c' = working c'.
Proof.
  intros now trip_id g c c' r trip d Htrip Hd Hnz Hpd H.
  unfold TransactionService.process_trip_payment in H.
  apply bind_returns in H. destruct H as (tr & c0 & Hq & H).
  unfold query in Hq. fold (trip_of (working c) trip_id) in Hq.
  rewrite Htrip in Hq. inversion Hq; subst tr c0. clear Hq.
  apply bind_returns in H. destruct H as ([] & c0 & Hb & H).
  inversion Hb; subst c0. clear Hb.
  apply try_except_rollback_returns in H.
  apply bind_returns in H. destruct H as (pd & c1 & Hmk & H).
  apply PaymentCreate_make_returns in Hmk. destruct Hmk as [-> Hamount].
  apply bind_returns in H. destruct H as (p & c2 & Hp & H).
  rewrite create_payment_run in Hp. inversion Hp; subst p c2. clear Hp.
  apply bind_returns in H. destruct H as (ptx & c3 & Hptx & H).
  apply TransactionCreate_make_returns in Hptx. destruct Hptx as [-> ->].
  apply bind_returns in H. destruct H as (tx1 & c4 & Htx1 & H).
  apply create_transaction_returns_state in Htx1.
  destruct Htx1 as (up & Hup & Hchk1 & _ & ->).
  apply bind_returns in H. destruct H as ([] & c5 & Hdrv & H).
  rewrite Hd in Hdrv. unfold truthy in Hdrv.
  destruct (Z.eqb_spec d 0) as [|_]; [contradiction|]. cbn [negb] in Hdrv.
  apply bind_returns in Hdrv. destruct Hdrv as (dtx & c6 & Hdtx & Hdrv).
  apply TransactionCreate_make_returns in Hdtx. destruct Hdtx as [-> ->].
  apply bind_returns in Hdrv. destruct Hdrv as (tx2 & c7 & Htx2 & Hdrv).
  apply create_transaction_returns_state in Htx2.
  destruct Htx2 as (ud & Hud & _ & _ & ->).
  inversion Hdrv; subst c5. clear Hdrv.
  apply bind_returns in H. destruct H as ([] & c8 & Hex & H).
  unfold execute in Hex. inversion Hex; subst c8. clear Hex.
  apply bind_returns in H. destruct H as (st & c9 & Hst & H).
  rewrite update_payment_status_run in Hst. inversion Hst; subst st c9.
  clear Hst.
  apply bind_returns in H. destruct H as ([] & c10 & Hco & H).
  unfold COMMIT in Hco. inversion Hco; subst c10. clear Hco.
  unfold ret in H. inversion H; subst r c'. clear H.
  cbn [working committed payment] in *.
  set (W1 := with_payment now pd (working c)) in *.
  set (ptx := {| TransactionCreate.user_id := Trip.passenger_id trip;
                 TransactionCreate.amount := Decimal.neg g;
                 TransactionCreate.type := "trip_payment";
                 TransactionCreate.payment_id :=
                   Some (Payment.id (new_payment now pd (working c))) |}) in *.
  set (W2 := posted now ptx (User.wallet_balance up) W1) in *.
  set (dtx := {| TransactionCreate.user_id := d;
                 TransactionCreate.amount := Decimal.mul g (85 # 100);
                 TransactionCreate.type := "trip_payment";
                 TransactionCreate.payment_id :=
                   Some (Payment.id (new_payment now pd (working c))) |}) in *.
  set (W3 := posted now dtx (User.wallet_balance ud) W2) in *.
  assert (Hwp : wallet_of (working c) (Trip.passenger_id trip)
                = Some (User.wallet_balance up))
    by (rewrite <- (wallet_of_same_users (working c) W1 _ eq_refl);
        apply wallet_of_first; exact Hup).
  assert (Hwd2 : wallet_of W2 d = Some (User.wallet_balance ud))
    by (apply wallet_of_first; exact Hud).
  assert (Hwd : wallet_of (working c) d = Some (User.wallet_balance ud)).
  { rewrite <- Hwd2. unfold W2. rewrite wallet_of_posted.
    cbn [TransactionCreate.user_id ptx].
    destruct (Z.eqb_spec d (Trip.passenger_id trip)); [contradiction|].
    apply wallet_of_same_users. reflexivity. }
  exists (User.wallet_balance up), (User.wallet_balance ud).
  split; [exact Hwp|]. split; [exact Hwd|]. split.
  { unfold debit_check in Hchk1.
    change (str_in (TransactionCreate.type ptx) _) with true in Hchk1.
    change (TransactionCreate.amount ptx) with (Decimal.neg g) in Hchk1.
    cbn [andb] in Hchk1.
    apply Qnot_lt_le. intros Hlt. apply Qltb_lt in Hlt. congruence. }
  assert (Hfinal : forall user_id,
    wallet_of
      (with_status now (payments_id_seq (working c)) "completed"
         (set_trips
            (update_where (fun t => Trip.id t =? trip_id)
               (fun t => Trip.set_updated_at now
                  (Trip.set_payment_id
                     (Some (payments_id_seq (working c))) t))) W3))
      user_id = wallet_of W3 user_id)
    by (intros; apply wallet_of_same_users; reflexivity).
  split; [|split; [|split; [|split; [|split; [|split]]]]].
  - rewrite Hfinal. unfold W3. rewrite wallet_of_posted.
    cbn [TransactionCreate.user_id dtx].
    destruct (Z.eqb_spec (Trip.passenger_id trip) d); [congruence|].
    unfold W2. rewrite wallet_of_posted.
    cbn [TransactionCreate.user_id TransactionCreate.amount ptx].
    rewrite Z.eqb_refl.
    rewrite (wallet_of_same_users (working c) W1 _ eq_refl), Hwp.
    reflexivity.
  - rewrite Hfinal. unfold W3. rewrite wallet_of_posted.
    cbn [TransactionCreate.user_id TransactionCreate.amount dtx].
    rewrite Z.eqb_refl, Hwd2. reflexivity.
  - intros other Hop Hod. rewrite Hfinal. unfold W3.
    rewrite wallet_of_posted. cbn [TransactionCreate.user_id dtx].
    destruct (Z.eqb_spec other d); [contradiction|].
    unfold W2. rewrite wallet_of_posted. cbn [TransactionCreate.user_id ptx].
    destruct (Z.eqb_spec other (Trip.passenger_id trip)); [contradiction|].
    apply wallet_of_same_users. reflexivity.
  - eexists. split; [|split].
    + rewrite (trip_of_same_trips _ _ trip_id
                 (eq_refl : trips (with_status _ _ _ _) = trips (set_trips _ W3))).
      rewrite trip_of_update_where by reflexivity.
      rewrite (trip_of_same_trips _ _ trip_id
                 (eq_refl : trips W3 = trips (working c))).
      rewrite Htrip. cbn [option_map].
      rewrite (trip_of_id _ _ _ Htrip), Z.eqb_refl. reflexivity.
    + reflexivity.
    + reflexivity.
  - cbn. exact Hamount.
  - cbn [with_status set_payments payments].
    apply (update_where_In
             (fun p => (Payment.id p =? payments_id_seq (working c))
                       && is_none (Payment.deleted_at p))
             (Payment.set_status "completed" now)
             (payments (working c) ++ [new_payment now pd (working c)])
             (new_payment now pd (working c))).
    + apply in_or_app. right. left. reflexivity.
    + cbn. rewrite Z.eqb_refl. reflexivity.
  - reflexivity.
Qed.

(** Instance of [settlement_moves_the_fare]: fare 500, passenger 1 and
    driver 5 both hold 1000. *)
Lemma settlement_moves_the_fare_witness :
  let c := Scenario.connect (Scenario.riding (1000 # 1) (1000 # 1)) in
  let c' := snd (TransactionService.process_trip_payment 10 1 (500 # 1) c) in
  wallet_of (committed c') 1
  = Some (Decimal.add (1000 # 1) (Decimal.neg (500 # 1)))
  /\ wallet_of (committed c') 5
     = Some (Decimal.add (1000 # 1) (Decimal.mul (500 # 1) (85 # 100)))
  /\ (Decimal.add (1000 # 1) (Decimal.neg (500 # 1)) == 500 # 1)%Q
  /\ (Decimal.add (1000 # 1) (Decimal.mul (500 # 1) (85 # 100))
      == 1425 # 1)%Q.
Proof.
  intros c. cbv zeta.
  destruct (TransactionService.process_trip_payment 10 1 (500 # 1) c)
    as [[r|e] c1] eqn:H; [|vm_compute in H; discriminate].
  cbn [snd].
  destruct (settlement_moves_the_fare 10 1 (500 # 1) c c1 r
              (Scenario.trip 1 1 (Some 5) "in_progress") 5)
    as (bp & bd & Hbp & Hbd & _ & Hp & Hd & _).
  - reflexivity.
  - reflexivity.
  - discriminate.
  - discriminate.
  - exact H.
  - injection Hbp as <-. injection Hbd as <-.
    split; [exact Hp|]. split; [exact Hd|].
    split; vm_compute; reflexivity.
Defined.

Lemma try_except_raise {A} (m : M A) (h : exception -> M A) c e c1 :
  m c = (Raise e, c1) -> try_except m h c = h e c1.
Proof. unfold try_except. intros ->. reflexivity. Qed.

(** X19: [process_trip_payment] for a fare [g] that is not negative, on a
    passenger whose wallet holds less than [abs(-g)], raises 400
    [Insufficient wallet balance]: no transaction is added, no wallet and
    no trip changes, and the payments are those before followed by one
    committed row of that fare with status [pending]. *)
Theorem unpaid_settlement_leaves_payment :
  forall (now trip_id : Z) (g : Q) (c : Conn) (trip : Trip.row)
         (u : User.row),
    trip_of (working c) trip_id = Some trip ->
    fetchone
      (filter (fun v => User.id v =? Trip.passenger_id trip)
         (users (working c))) = Some u ->
    (0 <= g)%Q ->
    (User.wallet_balance u < Decimal.abs (Decimal.neg g))%Q ->
    exists c' p,
      TransactionService.process_trip_payment now trip_id g c
      = (Raise (HTTPException 400 "Insufficient wallet balance"), c')
      /\ committed c' = working c'
      /\ payments (committed c') = payments (working c) ++ [p]
      /\ Payment.amount p = g
      /\ Payment.status p = "pending"%string
      /\ transactions (committed c') = transactions (working c)
      /\ users (committed c') = users (working c)
      /\ trips (committed c') = trips (working c).
Proof.
  intros now trip_id g c trip u Htrip Hu Hg Hlow.
  assert (Ha : Qltb g 0 = false).
  { destruct (Qltb g 0) eqn:H; [|reflexivity]. apply Qltb_lt in H. lra. }
  unfold TransactionService.process_trip_payment.
  erewrite bind_run; [|unfold query; fold (trip_of (working c) trip_id);
                       rewrite Htrip; reflexivity].
  cbv beta iota.
  erewrite bind_run; [|reflexivity].
  erewrite try_except_raise.
  2: { rewrite (bind_run _ _ _ _ _
                  (PaymentCreate_make_ok g "electronic" c Ha eq_refl)).
       rewrite (bind_run _ _ _ _ _ (create_payment_run now _ c)).
       match goal with
       | |- context [TransactionCreate.make ?a ?b ?t ?p] =>
           rewrite (bind_run (TransactionCreate.make a b t p) _ _
                      {| TransactionCreate.user_id := a;
                         TransactionCreate.amount := b;
                         TransactionCreate.type := t;
                         TransactionCreate.payment_id := p |} _ eq_refl)
       end.
       erewrite bind_raise; [reflexivity|].
       rewrite create_transaction_run.
       cbn [working with_payment PaymentService.insert_payment snd users
            TransactionCreate.user_id].
       rewrite Hu. unfold debit_check.
       cbn [TransactionCreate.type TransactionCreate.amount].
       apply Qltb_lt in Hlow. rewrite Hlow. reflexivity. }
  eexists; eexists. split; [reflexivity|].
  cbn. repeat split.
Qed.

(** Instance of [unpaid_settlement_leaves_payment]: a fare of 500 against
    a wallet of 100. *)
Lemma unpaid_settlement_leaves_payment_witness :
  exists c' p,
    TransactionService.process_trip_payment 10 1 (500 # 1)
      (Scenario.connect (Scenario.riding (100 # 1) 0))
    = (Raise (HTTPException 400 "Insufficient wallet balance"), c')
    /\ payments (committed c') = [p]
    /\ Payment.status p = "pending"%string
    /\ transactions (committed c') = [].
Proof.
  destruct (unpaid_settlement_leaves_payment 10 1 (500 # 1)
              (Scenario.connect (Scenario.riding (100 # 1) 0))
              (Scenario.trip 1 1 (Some 5) "in_progress")
              (Scenario.user 1 (100 # 1)))
    as (c' & p & H & _ & Hp & _ & Hs & Ht & _).
  - reflexivity.
  - reflexivity.
  - discriminate.
  - reflexivity.
  - exists c', p. auto.
Defined.

(** ** The driver's endpoints *)

Lemma TripResponse_accepts trip :
  str_in (Trip.trip_status trip) TripStatus = true ->
  match Trip.trip_type trip with
  | Some ty => str_in ty TripType = true
  | None => True
  end ->
  TripResponse trip = Return trip.
Proof.
  intros Hst Hty. unfold TripResponse. rewrite Hst. cbn [negb].
  destruct (Trip.trip_type trip) as [ty|]; [rewrite Hty|]; reflexivity.
Qed.

Lemma responses_all_valid (page : list Trip.row) c :
  (forall t, In t page -> TripResponse t = Return t) ->
  DriverApi.responses page c = (Return page, c).
Proof.
  induction page as [|t page IH]; intros H; [reflexivity|].
  cbn [DriverApi.responses]. unfold bind, DriverApi.response.
  rewrite (H t (or_introl eq_refl)). unfold ret at 1.
  rewrite IH; [reflexivity|]. intros x Hx. apply H. right. exact Hx.
Qed.

(** The record of a driver has no key [id]: the user's id is under
    [user], and the driver's own key is [user_id]. *)
Lemma driver_record_has_no_id d u :
  lookup (DriverService.driver_record d u) "id" = None.
Proof. reflexivity. Qed.

(** What the dependencies answer: the record of an approved driver whose
    rows and whose user's rows are not soft-deleted, the user being
    active, or one of the four refusals; they leave the connection as it
    is. *)
Lemma get_current_user_run user_id c :
  Dependencies.get_current_user user_id c
  = match fetchone (filter
            (fun u => (User.id u =? user_id) && is_none (User.deleted_at u))
            (users (working c))) with
    | None => (Raise (HTTPException 401 "User not found"), c)
    | Some u =>
        if match User.status u with
           | Some st => String.eqb st "active"
           | None => false
           end
        then (Return (UserService.user_record u), c)
        else (Raise (HTTPException 401 "User account is not active"), c)
    end.
Proof.
  unfold Dependencies.get_current_user, UserService.get_user_by_id,
    bind, ret, raise, query. cbv beta iota.
  destruct (fetchone _) as [u|]; cbn [option_map]; [|reflexivity].
  unfold get. cbn [lookup UserService.user_record]. cbn.
  destruct (User.status u) as [st|]; cbn; [|reflexivity].
  destruct (String.eqb st "active"); reflexivity.
Qed.

Lemma get_current_driver_run u c :
  Dependencies.get_current_driver (UserService.user_record u) c
  = match fetchone (filter
            (fun du =>
               (Driver.user_id (fst du) =? User.id u)
               && is_none (Driver.deleted_at (fst du))
               && is_none (User.deleted_at (snd du)))
            (DriverService.drivers_join_users (working c))) with
    | None => (Raise (HTTPException 403 "User is not a driver"), c)
    | Some du =>
        if String.eqb (Driver.approval_status (fst du)) "approved"
        then (Return (DriverService.driver_record (fst du) (snd du)), c)
        else (Raise (HTTPException 403 "Driver is not approved"), c)
    end.
Proof.
  unfold Dependencies.get_current_driver,
    DriverService.get_driver_by_user_id, getitem.
  cbn [lookup UserService.user_record]. cbn [String.eqb Ascii.eqb Bool.eqb].
  unfold int_parameter, bind, ret, raise, query. cbv beta iota.
  destruct (fetchone _) as [du|]; cbn [option_map]; [|reflexivity].
  unfold get. cbn [lookup DriverService.driver_record]. cbn.
  destruct (String.eqb (Driver.approval_status (fst du)) "approved");
    reflexivity.
Qed.

(** What the dependencies answer: the record of an approved driver whose
    row is not soft-deleted, or one of the four refusals; they leave the
    connection as it is. *)
Lemma current_driver_cases user_id c :
  (exists d u,
     DriverApi.current_driver user_id c
     = (Return (DriverService.driver_record d u), c)
     /\ In d (drivers (working c))
     /\ Driver.user_id d = user_id
     /\ Driver.approval_status d = "approved"%string
     /\ Driver.deleted_at d = None)
  \/ (exists e,
        DriverApi.current_driver user_id c = (Raise e, c) /\ In e refusals).
Proof.
  unfold DriverApi.current_driver, refusals. unfold bind.
  rewrite get_current_user_run.
  destruct (fetchone _) as [u|] eqn:Hu;
    [|right; eexists; split; [reflexivity|cbn; auto]].
  assert (Hid : User.id u = user_id).
  { apply fetchone_filter_sound in Hu. destruct Hu as [_ Hp].
    apply andb_true_iff in Hp. destruct Hp as [Hp _].
    apply Z.eqb_eq. exact Hp. }
  destruct (match User.status u with
            | Some st => String.eqb st "active"
            | None => false
            end);
    [|right; eexists; split; [reflexivity|cbn; auto]].
  rewrite get_current_driver_run.
  match goal with
  | |- context [fetchone (filter ?p (DriverService.drivers_join_users ?db))] =>
      destruct (fetchone (filter p (DriverService.drivers_join_users db)))
        as [[d u']|] eqn:Hd
  end;
    [|right; eexists; split; [reflexivity|cbn; auto]].
  cbn [fst snd].
  destruct (String.eqb_spec (Driver.approval_status d) "approved")
    as [Happ|_];
    [|right; eexists; split; [reflexivity|cbn; auto 6]].
  left. exists d, u'. split; [reflexivity|].
  apply fetchone_filter_sound in Hd. destruct Hd as [Hin Hp].
  cbn [fst snd] in Hp.
  apply andb_true_iff in Hp. destruct Hp as [Hp _].
  apply andb_true_iff in Hp. destruct Hp as [Hp Hdel].
  apply Z.eqb_eq in Hp.
  unfold DriverService.drivers_join_users in Hin.
  apply in_flat_map in Hin. destruct Hin as (d0 & Hd0 & Hin).
  apply in_map_iff in Hin. destruct Hin as (u0 & Heq & _).
  inversion Heq; subst d0 u0.
  repeat split; auto; [congruence|].
  destruct (Driver.deleted_at d); [discriminate|reflexivity].
Qed.

Lemma as_driver_reads_id {A} (user_id : Z) (body : value -> M A) c :
  DriverApi.as_driver user_id
    (fun current_driver => bind (getitem current_driver "id") body) c
  = (Raise (id_error user_id c), c).
Proof.
  unfold DriverApi.as_driver, id_error. unfold bind at 1.
  destruct (current_driver_cases user_id c)
    as [(d & u & Hd & _)|(e & He & Hin)].
  - rewrite Hd. unfold bind, getitem. rewrite driver_record_has_no_id.
    reflexivity.
  - rewrite He. reflexivity.
Qed.

Lemma id_error_cases user_id c :
  In (id_error user_id c) (refusals ++ [KeyError "id"])
  /\ (forall d,
        DriverApi.current_driver user_id c = (Return d, c) ->
        id_error user_id c = KeyError "id").
Proof.
  unfold id_error.
  destruct (current_driver_cases user_id c)
    as [(d & u & Hd & _)|(e & He & Hin)].
  - rewrite Hd. split; [apply in_or_app; right; left; reflexivity|auto].
  - rewrite He. split; [apply in_or_app; left; exact Hin|].
    intros d Hd. discriminate.
Qed.

(** X20: no request to the accept, start, complete or cancel endpoint of
    the driver API is answered with a trip, and none changes anything.
    The dependencies refuse the request with 401 or 403, or they return
    the record of the driver, which has no key [id], so that the endpoint
    raises [KeyError] on [current_driver["id"]] before it calls the
    service. *)
Theorem transition_endpoints_always_raise :
  forall (now trip_id user_id : Z) (c : Conn),
    exists e,
      DriverApi.as_driver user_id (DriverApi.accept_trip now trip_id) c
      = (Raise e, c)
      /\ DriverApi.as_driver user_id (DriverApi.start_trip now trip_id) c
         = (Raise e, c)
      /\ DriverApi.as_driver user_id (DriverApi.complete_trip now trip_id) c
         = (Raise e, c)
      /\ DriverApi.as_driver user_id (DriverApi.cancel_trip now trip_id) c
         = (Raise e, c)
      /\ In e (refusals ++ [KeyError "id"])
      /\ (forall d,
            DriverApi.current_driver user_id c = (Return d, c) ->
            e = KeyError "id").
Proof.
  intros now trip_id user_id c.
  exists (id_error user_id c).
  unfold DriverApi.accept_trip, DriverApi.start_trip,
    DriverApi.complete_trip, DriverApi.cancel_trip.
  repeat (split; [apply as_driver_reads_id|]).
  apply id_error_cases.
Qed.

(** Instance of [transition_endpoints_always_raise]: driver 5, approved
    and riding with passenger 1, gets [KeyError] from all four
    endpoints. *)
Lemma transition_endpoints_always_raise_witness :
  let c := Scenario.connect (Scenario.riding (1000 # 1) 0) in
  DriverApi.as_driver 5 (DriverApi.accept_trip 10 1) c
  = (Raise (KeyError "id"), c)
  /\ DriverApi.as_driver 5 (DriverApi.start_trip 10 1) c
     = (Raise (KeyError "id"), c)
  /\ DriverApi.as_driver 5 (DriverApi.complete_trip 10 1) c
     = (Raise (KeyError "id"), c)
  /\ DriverApi.as_driver 5 (DriverApi.cancel_trip 10 1) c
     = (Raise (KeyError "id"), c).
Proof.
  intros c.
  destruct (transition_endpoints_always_raise 10 1 5 c)
    as (e & Ha & Hs & Hc & Hx & _ & He).
  rewrite (He (DriverService.driver_record (Scenario.driver 5 "approved")
                 (Scenario.user 5 0)) eq_refl) in Ha, Hs, Hc, Hx.
  auto.
Defined.

(** Driver 5, approved and riding with passenger 1, asks to complete the
    ride: the service call would complete it, the endpoint raises
    [KeyError] and the trip stays in progress. *)
Lemma complete_endpoint_never_reaches_the_service :
  let c := Scenario.connect (Scenario.riding (1000 # 1) 0) in
  (exists row c',
     TripService.complete_trip 10 1 5 c = (Return (Some row), c'))
  /\ DriverApi.as_driver 5 (DriverApi.complete_trip 10 1) c
     = (Raise (KeyError "id"), c)
  /\ map Trip.trip_status (trips (committed c)) = ["in_progress"%string].
Proof.
  vm_compute. split; [do 2 eexists; reflexivity|]. split; reflexivity.
Qed.

(** X22: the endpoint that lists a driver's trips never answers with a
    list and changes nothing.  For a request that the dependencies let
    through it answers 422 when [status] is no [TripStatus], [skip] is
    negative or [limit] is outside 1..1000, and otherwise raises
    [KeyError] on [current_driver["id"]] before it calls the service. *)
Theorem driver_trips_endpoint :
  forall (status : option string) (skip limit user_id : Z) (c : Conn),
    exists e,
      DriverApi.as_driver user_id
        (DriverApi.get_driver_trips status skip limit) c = (Raise e, c)
      /\ (forall d,
            DriverApi.current_driver user_id c = (Return d, c) ->
            if DriverApi.optional_status status
               && DriverApi.at_least 0 skip
               && DriverApi.between 1 1000 limit
            then e = KeyError "id"
            else exists locs, e = RequestValidationError locs).
Proof.
  intros status skip limit user_id c.
  unfold DriverApi.as_driver. unfold bind at 1.
  destruct (current_driver_cases user_id c)
    as [(d & u & Hd & _)|(e & He & Hin)].
  - rewrite Hd. unfold DriverApi.get_driver_trips, DriverApi.validate.
    unfold bind at 1. cbn [filter map fst snd].
    destruct (DriverApi.optional_status status),
      (DriverApi.at_least 0 skip), (DriverApi.between 1 1000 limit);
      cbn [negb andb map fst app];
      (eexists; split; [reflexivity|]; intros d' Hd';
       first [reflexivity|eexists; reflexivity]).
  - rewrite He. exists e. split; [reflexivity|].
    intros d Hd. discriminate.
Qed.

(** Instance of [driver_trips_endpoint]: driver 5 asks for their trips,
    ten to a page, and then for no trip to a page. *)
Lemma driver_trips_endpoint_witness :
  let c := Scenario.connect Scenario.busy_driver in
  DriverApi.as_driver 5 (DriverApi.get_driver_trips None 0 10) c
  = (Raise (KeyError "id"), c)
  /\ (exists locs,
        DriverApi.as_driver 5 (DriverApi.get_driver_trips None 0 0) c
        = (Raise (RequestValidationError locs), c)).
Proof.
  intros c.
  assert (Hdriver :
    DriverApi.current_driver 5 c
    = (Return (DriverService.driver_record (Scenario.driver 5 "approved")
                 (Scenario.user 5 0)), c)) by reflexivity.
  split.
  - destruct (driver_trips_endpoint None 0 10 5 c) as (e & He & Hcase).
    specialize (Hcase _ Hdriver). cbn in Hcase. rewrite Hcase in He.
    exact He.
  - destruct (driver_trips_endpoint None 0 0 5 c) as (e & He & Hcase).
    specialize (Hcase _ Hdriver). cbn in Hcase.
    destruct Hcase as (locs & Hlocs). rewrite Hlocs in He.
    exists locs. exact He.
Defined.

(** X23: for a request that the dependencies let through, the endpoint
    that lists the open trips answers 422, and changes nothing, when
    [skip] is negative or [limit] is outside 1..1000; within those bounds
    it answers with the page of the service call whenever the stored
    trips have a type that is a [TripType] or unset: an open trip is
    pending, and pending is a [TripStatus]. *)
Theorem available_trips_endpoint_answers :
  forall (skip limit user_id : Z) (c : Conn) (driver : dict),
    DriverApi.current_driver user_id c = (Return driver, c) ->
    (forall t, In t (trips (working c)) ->
       match Trip.trip_type t with
       | Some ty => str_in ty TripType = true
       | None => True
       end) ->
    (0 <= skip -> 1 <= limit <= 1000 ->
     exists page,
       TripService.get_available_trips skip limit c = (Return page, c)
       /\ DriverApi.as_driver user_id
            (DriverApi.get_available_trips skip limit) c = (Return page, c))
    /\ (skip < 0 \/ limit < 1 \/ 1000 < limit ->
        exists locs,
          DriverApi.as_driver user_id
            (DriverApi.get_available_trips skip limit) c
          = (Raise (RequestValidationError locs), c)).
Proof.
  intros skip limit user_id c driver Hdriver Hty.
  assert (Hrun : forall m : dict -> M (list Trip.row),
            DriverApi.as_driver user_id m c = m driver c).
  { intros m. unfold DriverApi.as_driver, bind. rewrite Hdriver.
    reflexivity. }
  rewrite !Hrun. clear Hrun.
  unfold DriverApi.get_available_trips, DriverApi.validate,
    DriverApi.at_least, DriverApi.between.
  cbn [filter map fst snd].
  split.
  - intros Hskip [Hlo Hhi].
    assert (H1 : (0 <=? skip) = true) by (apply Z.leb_le; exact Hskip).
    assert (H2 : (1 <=? limit) && (limit <=? 1000) = true).
    { apply andb_true_iff. split; apply Z.leb_le; assumption. }
    rewrite H1, H2. cbn [negb map].
    eexists. split; [reflexivity|].
    unfold bind at 1. unfold ret at 1.
    erewrite bind_run; [|reflexivity].
    apply responses_all_valid.
    intros t Ht. apply limit_offset_incl in Ht.
    apply (Permutation_in _ (order_by_perm _ _)) in Ht.
    apply filter_In in Ht. destruct Ht as [Hin Hav].
    unfold TripService.available in Hav.
    apply andb_true_iff in Hav. destruct Hav as [Hav _].
    apply andb_true_iff in Hav. destruct Hav as [Hst _].
    apply String.eqb_eq in Hst.
    apply TripResponse_accepts; [rewrite Hst; reflexivity|].
    apply Hty. exact Hin.
  - intros Hbad.
    destruct (Z.leb_spec 0 skip) as [Hs|Hs]; cbn [negb];
      [|destruct ((1 <=? limit) && (limit <=? 1000)); cbn [negb map fst];
        eexists; reflexivity].
    destruct (Z.leb_spec 1 limit) as [H1|H1]; cbn [andb negb map fst];
      [|eexists; reflexivity].
    destruct (Z.leb_spec limit 1000) as [H2|H2]; cbn [negb map fst];
      [lia|eexists; reflexivity].
Qed.

(** Instance of [available_trips_endpoint_answers]: driver 5 asks for the
    open trips, ten to a page; asking for 5000 to a page is refused. *)
Lemma available_trips_endpoint_answers_witness :
  let c := Scenario.connect Scenario.busy_driver in
  (exists page,
     TripService.get_available_trips 0 10 c = (Return page, c)
     /\ DriverApi.as_driver 5 (DriverApi.get_available_trips 0 10) c
        = (Return page, c))
  /\ (exists locs,
        DriverApi.as_driver 5 (DriverApi.get_available_trips 0 5000) c
        = (Raise (RequestValidationError locs), c)).
Proof.
  intros c.
  assert (Hdriver :
    DriverApi.current_driver 5 c
    = (Return (DriverService.driver_record (Scenario.driver 5 "approved")
                 (Scenario.user 5 0)), c)) by reflexivity.
  assert (Hty : forall t, In t (trips (working c)) ->
            match Trip.trip_type t with
            | Some ty => str_in ty TripType = true
            | None => True
            end)
    by (simpl; intros t [<-|[<-|[]]]; reflexivity).
  split.
  - apply (proj1 (available_trips_endpoint_answers 0 10 5 c _ Hdriver Hty));
      lia.
  - apply (proj2 (available_trips_endpoint_answers 0 5000 5 c _ Hdriver Hty)).
    right. right. lia.
Defined.

(** ** The estimate *)




Lemma Qtrunc_floor (x : Q) :
  (0 <= x)%Q ->
  (inject_Z (Qtrunc x) <= x)%Q /\ (x < inject_Z (Qtrunc x) + 1)%Q
  /\ 0 <= Qtrunc x.
Proof.
  intros Hx.
  assert (Hnum : 0 <= Qnum x).
  { unfold Qle in Hx. cbn in Hx. rewrite Z.mul_1_r in Hx. exact Hx. }
  assert (Heq : Qtrunc x = Qfloor x).
  { unfold Qtrunc, Qfloor. destruct x as [n d]. cbn in *.
    apply Z.quot_div_nonneg; [exact Hnum|reflexivity]. }
  rewrite Heq. split; [apply Qfloor_le|]. split.
  - pose proof (Qlt_floor x) as H. rewrite inject_Z_plus in H. exact H.
  - rewrite <- Heq. unfold Qtrunc.
    apply Z.quot_pos; [exact Hnum|]. destruct x; reflexivity.
Qed.

(** X25: for a distance that is not negative, the estimated duration is
    the whole number of minutes in twice the distance, rounded down: it is
    not negative, not above twice the distance, and less than one minute
    below it. *)
Theorem estimated_duration_is_floor :
  forall (distance_km : Q) (trip_type : string) (c c' : Conn)
         (e : TripEstimate),
    (0 <= distance_km)%Q ->
    TripService.estimate_trip distance_km trip_type c = (Return e, c') ->
    0 <= estimated_duration_minutes e
    /\ (inject_Z (estimated_duration_minutes e) <= distance_km * (2 # 1))%Q
    /\ (distance_km * (2 # 1)
        < inject_Z (estimated_duration_minutes e) + 1)%Q.
Proof.
  intros distance_km trip_type c c' e Hd H.
  unfold TripService.estimate_trip, bind, query, ret in H.
  inversion H; subst. clear H. cbn [estimated_duration_minutes].
  assert (H2 : (0 <= distance_km * (2 # 1))%Q) by lra.
  destruct (Qtrunc_floor _ H2) as (Hle & Hlt & Hnn). auto.
Qed.

(** Instance of [estimated_duration_is_floor]: 111.19 km give 222
    minutes. *)
Lemma estimated_duration_is_floor_witness :
  let e :=
    match TripService.estimate_trip (11119 # 100) "urban"
            (Scenario.connect Scenario.waiting_for_driver) with
    | (Return e, _) => estimated_duration_minutes e
    | (Raise _, _) => -1
    end in
  e = 222
  /\ (inject_Z e <= (11119 # 100) * (2 # 1))%Q
  /\ ((11119 # 100) * (2 # 1) < inject_Z e + 1)%Q.
Proof.
  cbv zeta.
  destruct (TripService.estimate_trip (11119 # 100) "urban"
              (Scenario.connect Scenario.waiting_for_driver))
    as [[e|x] c'] eqn:H; [|vm_compute in H; discriminate].
  destruct (estimated_duration_is_floor (11119 # 100) "urban" _ c' e
              ltac:(discriminate) H) as (_ & Hle & Hlt).
  split; [|split; assumption].
  vm_compute in H. injection H as <- _. reflexivity.
Defined.

(** ** Availability and the lifecycle *)

Lemma count_available_same db db' :
  drivers db' = drivers db ->
  (forall user_id,
     TripService.on_a_trip db' user_id = TripService.on_a_trip db user_id) ->
  TripService.count_available_drivers db'
  = TripService.count_available_drivers db.
Proof.
  intros Hd Hon. unfold TripService.count_available_drivers.
  rewrite Hd. f_equal. f_equal. apply filter_ext.
  intros d. rewrite Hon. reflexivity.
Qed.

Lemma on_a_trip_update guard set db user_id :
  (forall r, In r (trips db) -> guard r = true ->
     str_in (Trip.trip_status r) ["pending"; "started"; "waiting"]%string
     && opt_eqb (Trip.driver_id r) user_id = false
     /\ str_in (Trip.trip_status (set r))
          ["pending"; "started"; "waiting"]%string = false) ->
  TripService.on_a_trip (set_trips (update_where guard set) db) user_id
  = TripService.on_a_trip db user_id.
Proof.
  intros H. unfold TripService.on_a_trip, set_trips, update_where.
  cbn [trips].
  induction (trips db) as [|r l IH]; [reflexivity|].
  cbn [map existsb]. rewrite IH.
  - f_equal. destruct (guard r) eqn:Hg; [|reflexivity].
    destruct (H r (or_introl eq_refl) Hg) as [Hb Ha].
    rewrite Hb, Ha. reflexivity.
  - intros x Hx. apply H. right. exact Hx.
Qed.

Lemma transition_count guard set c :
  (forall r, guard r = true ->
     str_in (Trip.trip_status r) ["pending"; "started"; "waiting"]%string
     = false) ->
  (forall r,
     str_in (Trip.trip_status (set r)) ["pending"; "started"; "waiting"]%string
     = false) ->
  TripService.count_available_drivers
    (working (snd (TripService.transition guard set c)))
  = TripService.count_available_drivers (working c).
Proof.
  intros Hb Ha. rewrite transition_run.
  destruct (fetchone _) as [first|]; cbn [snd working]; [|reflexivity].
  apply count_available_same; [reflexivity|].
  intros user_id. apply on_a_trip_update.
  intros x _ Hg. rewrite (Hb x Hg). auto.
Qed.

(** X26: on a table keyed by id, accepting, starting, completing or
    cancelling a trip never changes the number of drivers that
    [estimate_trip] counts as available: the statuses these calls read and
    write are not among the three that the count looks at. *)
Theorem lifecycle_leaves_availability :
  forall (now trip_id d : Z) (c : Conn),
    trips_keyed (working c) ->
    TripService.count_available_drivers
      (working (snd (TripService.accept_trip now trip_id d c)))
    = TripService.count_available_drivers (working c)
    /\ TripService.count_available_drivers
         (working (snd (TripService.start_trip now trip_id d c)))
       = TripService.count_available_drivers (working c)
    /\ TripService.count_available_drivers
         (working (snd (TripService.complete_trip now trip_id d c)))
       = TripService.count_available_drivers (working c)
    /\ TripService.count_available_drivers
         (working (snd (TripService.cancel_trip now trip_id d c)))
       = TripService.count_available_drivers (working c).
Proof.
  intros now trip_id d c Hkey. split; [|split; [|split]].
  - rewrite accept_trip_run. cbv zeta.
    destruct (trip_of (working c) trip_id) as [row|] eqn:Hrow; [|reflexivity].
    destruct (TripService.not_available row) eqn:Hav; [reflexivity|].
    cbn [snd working]. apply count_available_same; [reflexivity|].
    intros user_id. apply on_a_trip_update.
    intros r Hr Hg. split; [|reflexivity].
    apply Z.eqb_eq in Hg.
    assert (r = row).
    { apply (keyed_same_row _ _ _ Hkey Hr (trip_of_In _ _ _ Hrow)).
      rewrite (trip_of_id _ _ _ Hrow). exact Hg. }
    subst r. unfold TripService.not_available in Hav.
    apply orb_false_iff in Hav. destruct Hav as [_ Hdrv].
    destruct (Trip.driver_id row); [discriminate|].
    apply andb_false_r.
  - apply transition_count; [|reflexivity].
    intros r Hg. apply andb_true_iff in Hg. destruct Hg as [_ Hst].
    apply String.eqb_eq in Hst. rewrite Hst. reflexivity.
  - apply transition_count; [|reflexivity].
    intros r Hg. apply andb_true_iff in Hg. destruct Hg as [_ Hst].
    apply String.eqb_eq in Hst. rewrite Hst. reflexivity.
  - apply transition_count; [|reflexivity].
    intros r Hg. apply andb_true_iff in Hg. destruct Hg as [_ Hst].
    unfold str_in in Hst. cbn [existsb] in Hst.
    destruct (String.eqb_spec (Trip.trip_status r) "accepted") as [->|_];
      [reflexivity|].
    destruct (String.eqb_spec (Trip.trip_status r) "in_progress") as [->|_];
      [reflexivity|discriminate].
Qed.

(** Instance of [lifecycle_leaves_availability]: one open trip, two
    approved drivers. *)
Lemma lifecycle_leaves_availability_witness :
  let c := Scenario.connect Scenario.waiting_for_driver in
  TripService.count_available_drivers
    (working (snd (TripService.accept_trip 10 1 5 c))) = 2.
Proof.
  intros c.
  rewrite (proj1 (lifecycle_leaves_availability 10 1 5 c
                    ltac:(unfold trips_keyed; simpl;
                          repeat constructor; simpl; intuition))).
  reflexivity.
Defined.

(** ** Payments *)

Lemma fetchone_returning {R} (p : R -> bool) (f : R -> R) (l : list R) :
  fetchone (returning p f l) = option_map f (fetchone (filter p l)).
Proof. unfold returning, fetchone. destruct (filter p l); reflexivity. Qed.

(** X27: [update_payment_status] on an id under which no payment can be
    read (missing or soft-deleted) returns nothing and leaves the payments
    as they were.  On a readable payment it returns and commits the payment
    with the new status and the same id and amount, and
    [get_payment_by_id] then reads what it returned. *)
Theorem payment_status_then_read :
  forall (now payment_id : Z) (status : string) (c : Conn),
    (PaymentService.get_payment_by_id payment_id c = (Return None, c) ->
     exists c',
       PaymentService.update_payment_status now payment_id status c
       = (Return None, c')
       /\ payments (working c') = payments (working c))
    /\ (forall p,
          PaymentService.get_payment_by_id payment_id c = (Return (Some p), c) ->
          exists p' c',
            PaymentService.update_payment_status now payment_id status c
            = (Return (Some p'), c')
            /\ committed c' = working c'
            /\ PaymentService.get_payment_by_id payment_id c'
               = (Return (Some p'), c')
            /\ Payment.status p' = status
            /\ Payment.id p' = Payment.id p
            /\ Payment.amount p' = Payment.amount p).
Proof.
  intros now payment_id status c.
  unfold PaymentService.get_payment_by_id, query.
  rewrite update_payment_status_run, fetchone_returning.
  set (guard := fun p => (Payment.id p =? payment_id)
                         && is_none (Payment.deleted_at p)).
  split.
  - intros H. injection H as H. fold guard in H. rewrite H. cbn [option_map].
    eexists. split; [reflexivity|].
    cbn [working with_status set_payments payments].
    apply update_where_none.
    change (filter guard (payments (working c)) = []).
    unfold fetchone in H.
    destruct (filter guard (payments (working c))); [reflexivity|discriminate].
  - intros p H. injection H as H. fold guard in H. rewrite H. cbn [option_map].
    eexists; eexists. split; [reflexivity|]. split; [reflexivity|].
    cbn [working with_status set_payments payments].
    fold guard. rewrite (fetchone_filter_update guard guard) by reflexivity.
    rewrite H. cbn [option_map].
    apply fetchone_filter_sound in H. destruct H as [_ Hg]. rewrite Hg.
    repeat split.
Qed.

(** Instance of [payment_status_then_read]: the payment of a top-up is
    marked failed. *)
Lemma payment_status_then_read_witness :
  let c :=
    snd (TransactionService.top_up_wallet 1 1 (250 # 1) "cash"
           (Scenario.connect (Scenario.riding (1000 # 1) 0))) in
  exists p' c',
    PaymentService.update_payment_status 10 1 "failed" c
    = (Return (Some p'), c')
    /\ PaymentService.get_payment_by_id 1 c' = (Return (Some p'), c')
    /\ Payment.status p' = "failed"%string.
Proof.
  intros c.
  destruct (PaymentService.get_payment_by_id 1 c) as [[[p|]|e] c0] eqn:H;
    try (vm_compute in H; discriminate).
  assert (c0 = c) by (unfold PaymentService.get_payment_by_id, query in H;
                      injection H as _ Hc; auto).
  subst c0.
  destruct (proj2 (payment_status_then_read 10 1 "failed" c) p H)
    as (p' & c' & Hup & _ & Hget & Hst & _).
  exists p', c'. auto.
Defined.

(** ** Assignment and the lifecycle *)

Lemma assign_returns_true now trip_id d c c' :
  TripService.assign_driver_to_trip now trip_id d c = (Return true, c') ->
  let guard := fun t =>
    TripService.by_id trip_id t
    && String.eqb (Trip.trip_status t) "pending" in
  let set := fun t =>
    Trip.set_updated_at now (Trip.set_driver_id (Some d) t) in
  c' = {| committed := set_trips (update_where guard set) (working c);
          working := set_trips (update_where guard set) (working c) |}
  /\ exists row, In row (trips (working c)) /\ guard row = true.
Proof.
  unfold TripService.assign_driver_to_trip. run_conn.
  destruct (fetchone (filter _ (drivers (working c)))); [|discriminate].
  destruct (fetchone (filter _ (trips (working c)))); [discriminate|].
  intros H. injection H as Hn Hc. split; [symmetry; exact Hc|].
  unfold rowcount in Hn.
  match type of Hn with
  | context [filter ?g ?l] => destruct (filter g l) as [|y ys] eqn:Hf
  end; [discriminate|].
  exists y.
  match type of Hf with
  | filter ?g ?l = _ =>
      assert (Hy : In y (filter g l)) by (rewrite Hf; left; reflexivity)
  end.
  apply filter_In in Hy. exact Hy.
Qed.

(** X28: on a table keyed by id, a trip that [assign_driver_to_trip] has
    given to a driver stays pending with that driver, and none of the
    lifecycle calls moves it: [accept_trip], [start_trip], [complete_trip]
    and [cancel_trip] on it, by that driver or any other, return nothing
    and leave the connection as it was. *)
Theorem assigned_trip_is_stuck :
  forall (now now' trip_id d d' : Z) (c c' : Conn),
    trips_keyed (working c) ->
    TripService.assign_driver_to_trip now trip_id d c = (Return true, c') ->
    (exists row,
       trip_of (working c') trip_id = Some row
       /\ Trip.driver_id row = Some d
       /\ Trip.trip_status row = "pending"%string)
    /\ TripService.accept_trip now' trip_id d' c' = (Return None, c')
    /\ TripService.start_trip now' trip_id d' c' = (Return None, c')
    /\ TripService.complete_trip now' trip_id d' c' = (Return None, c')
    /\ TripService.cancel_trip now' trip_id d' c' = (Return None, c').
Proof.
  intros now now' trip_id d d' c c' Hkey H.
  apply assign_returns_true in H. cbv zeta in H.
  destruct H as (-> & row & Hin & Hg).
  apply andb_true_iff in Hg. destruct Hg as [Hby Hst].
  pose proof Hby as Hby'. unfold TripService.by_id in Hby'.
  apply andb_true_iff in Hby'. destruct Hby' as [Hid Hdel].
  apply Z.eqb_eq in Hid. apply String.eqb_eq in Hst.
  assert (Hdl : Trip.deleted_at row = None)
    by (destruct (Trip.deleted_at row); [discriminate|reflexivity]).
  pose proof (keyed_trip_of _ _ Hkey Hin Hdl) as Hrow. rewrite Hid in Hrow.
  set (guard := fun t => TripService.by_id trip_id t
                         && String.eqb (Trip.trip_status t) "pending") in *.
  set (set := fun t => Trip.set_updated_at now
                         (Trip.set_driver_id (Some d) t)) in *.
  set (W := set_trips (update_where guard set) (working c)) in *.
  assert (Hrow' : trip_of W trip_id = Some (set row)).
  { unfold W. rewrite trip_of_update_where by reflexivity.
    rewrite Hrow. cbn [option_map]. unfold guard at 1.
    rewrite Hby, Hst. reflexivity. }
  assert (HkeyW : trips_keyed W).
  { unfold trips_keyed, W, set_trips. cbn [trips].
    rewrite update_where_column by reflexivity. exact Hkey. }
  assert (Hnone : forall g : Trip.row -> bool,
    (forall r, g r = true -> Trip.id r = trip_id) ->
    g (set row) = false ->
    filter g (trips W) = []).
  { intros g Hgid Hgrow.
    apply (keyed_guard_matches_nothing W (set row)); auto.
    - apply (trip_of_In _ _ _ Hrow').
    - intros r Hr. rewrite (Hgid r Hr). symmetry. exact Hid. }
  cbn [working].
  split; [|split; [|split; [|split]]].
  - exists (set row). split; [exact Hrow'|]. split; [reflexivity|exact Hst].
  - rewrite accept_trip_run. cbv zeta. cbn [working]. rewrite Hrow'.
    assert (Hna : TripService.not_available (set row) = true)
      by (unfold TripService.not_available; cbn; apply orb_true_r).
    rewrite Hna. reflexivity.
  - apply transition_no_match. cbn [working]. apply Hnone.
    + intros r Hr. apply andb_true_iff in Hr. destruct Hr as [Hr _].
      apply andb_true_iff in Hr. destruct Hr as [Hr _].
      apply Z.eqb_eq. exact Hr.
    + cbn. rewrite Hst. cbn. apply andb_false_r.
  - apply transition_no_match. cbn [working]. apply Hnone.
    + intros r Hr. apply andb_true_iff in Hr. destruct Hr as [Hr _].
      apply andb_true_iff in Hr. destruct Hr as [Hr _].
      apply Z.eqb_eq. exact Hr.
    + cbn. rewrite Hst. cbn. apply andb_false_r.
  - apply transition_no_match. cbn [working]. apply Hnone.
    + intros r Hr. apply andb_true_iff in Hr. destruct Hr as [Hr _].
      apply andb_true_iff in Hr. destruct Hr as [Hr _].
      apply Z.eqb_eq. exact Hr.
    + cbn. rewrite Hst. cbn. apply andb_false_r.
Qed.

(** Instance of [assigned_trip_is_stuck]: trip 1 is assigned to driver 5,
    who then tries to start it. *)
Lemma assigned_trip_is_stuck_witness :
  let c := Scenario.connect Scenario.waiting_for_driver in
  let c' := snd (TripService.assign_driver_to_trip 10 1 5 c) in
  TripService.accept_trip 11 1 5 c' = (Return None, c')
  /\ TripService.start_trip 11 1 5 c' = (Return None, c').
Proof.
  intros c. cbv zeta.
  destruct (TripService.assign_driver_to_trip 10 1 5 c) as [[[|]|e] c1] eqn:H;
    try (vm_compute in H; discriminate).
  cbn [snd].
  destruct (assigned_trip_is_stuck 10 11 1 5 5 c c1
              ltac:(unfold trips_keyed; simpl;
                    repeat constructor; simpl; intuition) H)
    as (_ & Ha & Hs & _).
  split; assumption.
Defined.
